(** * Landing-page section components: a shallow embedding and its properties

    The repository is a set of React view functions (sections of a marketing
    page) and a table of animation presets.  Each component is embedded as a
    Rocq function from its props (and, where it has local state, from that
    state) to the tree of React elements it returns.  The JavaScript built-ins
    the components call (string search, array slicing, remainder, ...) are
    embedded in [JS]; a string is kept as its UTF-8 bytes. *)

From Stdlib Require Import String Ascii List ZArith QArith Qround Lia Bool.
From Stdlib Require Import DecimalString.
From Stdlib Require DecimalNat.
From stdpp Require Import base list.

Local Open Scope string_scope.
Local Open Scope list_scope.

(** ** JavaScript built-ins used by the components *)

Module JS.

(** *** Strings

    A JavaScript string is a sequence of UTF-16 code units.  It is kept here
    as the UTF-8 bytes of its characters, which is how a string literal of
    this file is read: an ASCII character is one byte, a character up to
    U+07FF two bytes, and any other character of the Basic Multilingual
    Plane three bytes; each of them is one UTF-16 code unit.  A character
    beyond that plane is a pair of code units in JavaScript (a surrogate
    pair) and four bytes here; [bmp] says that a string has none.  Half of
    such a pair standing alone is kept as the three bytes of its own code
    point. *)

Definition byte (c : ascii) : N := N_of_ascii c.

(** A byte [10xxxxxx], which continues the character begun before it. *)
Definition continuation (c : ascii) : bool :=
  (128 <=? byte c)%N && (byte c <? 192)%N.

(** Every character of [s] is an ASCII character. *)
Definition ascii_only (s : string) : bool :=
  forallb (fun c => (byte c <? 128)%N) (list_ascii_of_string s).

(** Every character of [s] is in the Basic Multilingual Plane: no byte
    [11110xxx], which starts a character of four bytes. *)
Definition bmp (s : string) : bool :=
  forallb (fun c => (byte c <? 240)%N) (list_ascii_of_string s).

(** The continuation bytes at the start of [s]. *)
Fixpoint continuation_bytes (s : string) : string :=
  match s with
  | EmptyString => EmptyString
  | String c s' =>
      if continuation c then String c (continuation_bytes s') else EmptyString
  end.

Definition starts_with_continuation (s : string) : bool :=
  match s with
  | EmptyString => false
  | String c _ => continuation c
  end.

(** The characters of [s], each as its bytes: an ASCII byte alone, any other
    byte together with the continuation bytes that follow it. *)
Fixpoint characters (s : string) : list string :=
  match s with
  | EmptyString => []
  | String c s' =>
      if (byte c <? 128)%N || negb (starts_with_continuation s')
      then String c EmptyString :: characters s'
      else match characters s' with
           | ch :: rest => String c ch :: rest
           | [] => [String c EmptyString]
           end
  end.

(** The code point of a character of one or two bytes. *)
Definition point (ch : string) : option N :=
  match ch with
  | String a EmptyString => if (byte a <? 128)%N then Some (byte a) else None
  | String a (String b EmptyString) =>
      if (194 <=? byte a)%N && (byte a <? 224)%N && continuation b
      then Some ((byte a - 192) * 64 + (byte b - 128))%N
      else None
  | _ => None
  end.

(** The character with code point [n], for [n] below U+0800. *)
Definition chr (n : N) : string :=
  if (n <? 128)%N then String (ascii_of_N n) EmptyString
  else String (ascii_of_N (192 + n / 64))
         (String (ascii_of_N (128 + n mod 64)) EmptyString).

(** [parts.join("")]. *)
Definition join_empty (parts : list string) : string :=
  fold_right String.append EmptyString parts.

(** *** The case tables

    The rows of the Unicode Character Database that [toLowerCase] reads,
    for the blocks Basic Latin (U+0000-007F) and Latin-1 Supplement
    (U+0080-00FF) and for the Greek letters alpha to omega, capital
    (U+0391-03A9) and small (U+03B1-03C9).  [in_tables] says that a string
    stays within these characters; the built-in is embedded for such
    strings only. *)

(** The capital letters, whose lower-case mapping is the code point plus 32:
    A-Z; the letters from U+00C0 to U+00DE, which leaves out the
    multiplication sign U+00D7; the Greek capitals, where U+03A2 is not
    assigned. *)
Definition capital (n : N) : bool :=
  ((65 <=? n)%N && (n <=? 90)%N)
  || ((192 <=? n)%N && (n <=? 222)%N && negb (n =? 215)%N)
  || ((913 <=? n)%N && (n <=? 937)%N && negb (n =? 930)%N).

(** Lowercase_Mapping of UnicodeData.txt. *)
Definition lower_point (n : N) : N := if capital n then (n + 32)%N else n.

(** The property Cased: the capitals, a-z, the ordinal indicators and the
    micro sign, the small letters from U+00DF to U+00FF without the division
    sign U+00F7, and the Greek small letters. *)
Definition cased (n : N) : bool :=
  capital n
  || ((97 <=? n)%N && (n <=? 122)%N)
  || (n =? 170)%N || (n =? 181)%N || (n =? 186)%N
  || ((223 <=? n)%N && (n <=? 255)%N && negb (n =? 247)%N)
  || ((945 <=? n)%N && (n <=? 969)%N).

(** The property Case_Ignorable: apostrophe, full stop, colon, circumflex,
    grave accent, diaeresis, soft hyphen, macron, acute accent, middle dot
    and cedilla. *)
Definition case_ignorable (n : N) : bool :=
  existsb (N.eqb n) [39; 46; 58; 94; 96; 168; 173; 175; 180; 183; 184]%N.

Definition in_table (n : N) : bool :=
  (n <? 256)%N
  || ((913 <=? n)%N && (n <=? 969)%N
      && negb (n =? 930)%N && negb ((938 <=? n)%N && (n <=? 944)%N)).

Definition in_tables (s : string) : bool :=
  forallb (fun ch => match point ch with
                     | Some n => in_table n
                     | None => false
                     end) (characters s).

(** The second half of the condition Final_Sigma of SpecialCasing.txt: the
    characters that follow are zero or more case-ignorable characters and
    then a cased letter. *)
Fixpoint cased_follows (chars : list string) : bool :=
  match chars with
  | [] => false
  | ch :: rest =>
      match point ch with
      | Some n => if case_ignorable n then cased_follows rest else cased n
      | None => false
      end
  end.

(** Lower-casing character by character.  [after_cased] is the first half
    of Final_Sigma: the characters before are a cased letter and then zero
    or more case-ignorable characters.  A capital sigma (U+03A3) for which
    Final_Sigma holds becomes the final small sigma (U+03C2), any other the
    small sigma (U+03C3). *)
Fixpoint lower_from (after_cased : bool) (chars : list string) : list string :=
  match chars with
  | [] => []
  | ch :: rest =>
      match point ch with
      | Some n =>
          (if (n =? 931)%N
           then if after_cased && negb (cased_follows rest)
                then chr 962 else chr 963
           else chr (lower_point n))
          :: lower_from (if case_ignorable n then after_cased else cased n) rest
      | None => ch :: lower_from false rest
      end
  end.

(** [String.prototype.toLowerCase], for a string within the tables. *)
Definition toLowerCase (s : string) : string :=
  join_empty (lower_from false (characters s)).

(** What [toLowerCase] does to one ASCII character: the letters A-Z move to
    a-z and every other character is left as it is. *)
Definition lower_char (c : ascii) : ascii :=
  if (65 <=? byte c)%N && (byte c <=? 90)%N then ascii_of_N (byte c + 32) else c.

(** [lower_char] on every byte: what [toLowerCase] does to an ASCII
    string. *)
Fixpoint lower_ascii (s : string) : string :=
  match s with
  | EmptyString => EmptyString
  | String c s' => String (lower_char c) (lower_ascii s')
  end.

(** [s.includes(q)]: [q] occurs in [s] at some position (the empty string
    occurs in every string, at position 0). *)
Fixpoint includes (s q : string) : bool :=
  String.prefix q s ||
  match s with
  | EmptyString => false
  | String _ s' => includes s' q
  end.

(** [s.split(" ")]: the pieces of [s] between single spaces; [n] pieces for
    [n - 1] spaces, so consecutive, leading and trailing spaces give empty
    pieces. *)
Fixpoint split_space (s : string) : list string :=
  match s with
  | EmptyString => [EmptyString]
  | String c s' =>
      if Ascii.eqb c " "%char then EmptyString :: split_space s'
      else match split_space s' with
           | w :: ws => String c w :: ws
           | [] => [String c EmptyString]
           end
  end.

(** The first half of the surrogate pair of the character whose UTF-8
    bytes are [a b c d], as the three bytes of its own code point: with
    [point] the code point of the character, the half is
    U+D800 + (point - U+10000) / 1024. *)
Definition high_surrogate (a b c d : ascii) : string :=
  let point := ((byte a - 240) * 262144 + (byte b - 128) * 4096
                + (byte c - 128) * 64 + (byte d - 128))%N in
  let half := (55296 + (point - 65536) / 1024)%N in
  String (ascii_of_N 237)
    (String (ascii_of_N (128 + (half / 64) mod 64))
       (String (ascii_of_N (128 + half mod 64)) EmptyString)).

(** [n[0]] followed by the coercion [join] applies to it: the first UTF-16
    code unit as a string, and [undefined], which [join] prints as the empty
    string, when [n] is empty.  For a string that starts with a character of
    the Basic Multilingual Plane the first code unit is that character; of
    a character beyond that plane it is the first half of the pair. *)
Definition first_char (n : string) : string :=
  match n with
  | EmptyString => EmptyString
  | String c rest =>
      if (byte c <? 128)%N then String c EmptyString
      else if (byte c <? 240)%N then String c (continuation_bytes rest)
      else match continuation_bytes rest with
           | String d (String e (String f EmptyString)) =>
               high_surrogate c d e f
           | bytes => String c bytes
           end
  end.

(** Truthiness of an optional string prop: [undefined] and the empty string
    are falsy. *)
Definition truthy (o : option string) : bool :=
  match o with
  | Some s => negb (String.eqb s EmptyString)
  | None => false
  end.

(** [a || b] on optional strings. *)
Definition or_else (a b : option string) : option string :=
  if truthy a then a else b.

(** The index arithmetic of [Array.prototype.slice]: a negative index counts
    from the end, and the result is clamped to [0, len]. *)
Definition rel_index (len : nat) (i : Z) : nat :=
  if (i <? 0)%Z then Z.to_nat (Z.max (Z.of_nat len + i) 0)
  else Z.to_nat (Z.min i (Z.of_nat len)).

(** [l.slice(start, stop)]; [stop] omitted means the length of [l]. *)
Definition slice {A} (l : list A) (start : Z) (stop : option Z) : list A :=
  let len := length l in
  let from := rel_index len start in
  let to := match stop with Some e => rel_index len e | None => len end in
  take (to - from) (drop from l).

(** [Math.ceil(n / 2)] for an array length [n]: the division is the exact
    rational one (halving a length is exact in double precision). *)
Definition ceil_half (n : nat) : Z :=
  Qceiling (inject_Z (Z.of_nat n) / 2).

(** [a % b] on integers, for a divisor other than zero: the remainder takes
    the sign of the dividend. *)
Definition rem (a b : Z) : Z := Z.rem a b.

(** A [number]: a double is a rational, or one of the three special values. *)
Inductive number : Type :=
| Finite (q : Q)
| NaN
| PosInfinity
| NegInfinity.

(** [i < r] for an integer [i] and a number [r]; every comparison with [NaN]
    is false. *)
Definition lt_int (i : Z) (r : number) : bool :=
  match r with
  | Finite q => if Qlt_le_dec (inject_Z i) q then true else false
  | NaN => false
  | PosInfinity => true
  | NegInfinity => false
  end.

(** Object and array literals passed around as plain data. *)
#[warnings="-register-all"]
Inductive value : Type :=
| Num (q : Q)
| Str (s : string)
| Bool (b : bool)
| Undefined
| Obj (fields : list (string * value))
| Arr (items : list value).

(** Property access [o.k]: the first field named [k], if any. *)
Fixpoint get_field (k : string) (fields : list (string * value)) : option value :=
  match fields with
  | [] => None
  | (k', v) :: rest => if String.eqb k k' then Some v else get_field k rest
  end.

Definition get (k : string) (o : value) : option value :=
  match o with
  | Obj fields => get_field k fields
  | _ => None
  end.

(** An optional string prop read as a value. *)
Definition of_option (o : option string) : value :=
  match o with
  | Some s => Str s
  | None => Undefined
  end.

(** The decimal text of an array index, as a template literal prints it. *)
Definition index_text (i : nat) : string :=
  NilZero.string_of_uint (Nat.to_uint i).

Definition int_text (z : Z) : string :=
  NilZero.string_of_int (Z.to_int z).

(** The double quote character, as a one-character string. *)
Definition dquote : string := String "034"%char EmptyString.

(** [l[i]] for an integer [i]: [undefined] outside the array. *)
Definition at_index {A} (l : list A) (i : Z) : option A :=
  if (i <? 0)%Z then None else l !! Z.to_nat i.

End JS.

(** ** React element trees *)

Module Markup.
Import JS.

(** A prop of an element: plain data, or an event handler, kept as the state
    update it performs when the event fires ([S] is the type of the local
    state of the component that renders the element). *)
Inductive attr (S : Type) : Type :=
| Val (v : value)
| Handler (h : S -> S)
| InputHandler (h : string -> S -> S)
| BoolHandler (h : bool -> S -> S).

Arguments Val {S} v.
Arguments Handler {S} h.
Arguments InputHandler {S} h.
Arguments BoolHandler {S} h.

(** An element tree.  A conditional child [{a && element}] whose value is
    falsy ([undefined], [false], the empty string) is rendered as nothing by
    React and takes no place among the children. *)
#[warnings="-register-all"]
Inductive node (S : Type) : Type :=
| Text (s : string)
| Elem (tag : string) (props : list (string * attr S)) (children : list (node S)).

Arguments Text {S} s.
Arguments Elem {S} tag props children.

Definition cls {S} (c : string) : string * attr S := ("className", Val (Str c)).
Definition str {S} (k v : string) : string * attr S := (k, Val (Str v)).
Definition key {S} (i : nat) : string * attr S :=
  ("key", Val (Num (inject_Z (Z.of_nat i)))).

(** [<tag className="c">children</tag>]. *)
Definition el {S} (tag c : string) (children : list (node S)) : node S :=
  Elem tag [cls c] children.

(** [{prop && element}] for an optional string prop. *)
Definition when_truthy {S} (o : option string) (element : string -> node S)
  : list (node S) :=
  match o with
  | Some s => if truthy o then [element s] else []
  | None => []
  end.

(** [{prop && element}] for an optional object prop (an object is truthy). *)
Definition when_given {S V} (o : option V) (element : V -> node S)
  : list (node S) :=
  match o with
  | Some v => [element v]
  | None => []
  end.

(** [{flag && element}]. *)
Definition when_true {S} (b : bool) (element : node S) : list (node S) :=
  if b then [element] else [].

Definition children {S} (t : node S) : list (node S) :=
  match t with
  | Text _ => []
  | Elem _ _ cs => cs
  end.

(** The node reached by following child positions from the root. *)
Fixpoint node_at {S} (path : list nat) (t : node S) : option (node S) :=
  match path with
  | [] => Some t
  | i :: rest =>
      match children t !! i with
      | Some c => node_at rest c
      | None => None
      end
  end.

(** The tree without the node at [path]. *)
Fixpoint delete_at {S} (path : list nat) (t : node S) : node S :=
  match path, t with
  | [i], Elem tag ps cs => Elem tag ps (delete i cs)
  | i :: rest, Elem tag ps cs => Elem tag ps (alter (delete_at rest) i cs)
  | _, _ => t
  end.

(** The node itself and every node below it, in document order. *)
Fixpoint descendants {S} (t : node S) : list (node S) :=
  t :: match t with
       | Text _ => []
       | Elem _ _ cs => flat_map descendants cs
       end.

(** The [className] of an element. *)
Fixpoint class_prop {S} (ps : list (string * attr S)) : option string :=
  match ps with
  | [] => None
  | (k, Val (Str c)) :: rest =>
      if String.eqb k "className" then Some c else class_prop rest
  | _ :: rest => class_prop rest
  end.

(** [c] is one of the space-separated class names of the element. *)
Definition has_class {S} (c : string) (t : node S) : bool :=
  match t with
  | Elem _ ps _ =>
      match class_prop ps with
      | Some names => existsb (String.eqb c) (split_space names)
      | None => false
      end
  | Text _ => false
  end.

(** The click handlers of one element. *)
Fixpoint own_handlers {S} (ps : list (string * attr S)) : list (S -> S) :=
  match ps with
  | [] => []
  | (_, Handler h) :: rest => h :: own_handlers rest
  | _ :: rest => own_handlers rest
  end.

(** Every click handler attached somewhere in the tree. *)
Fixpoint handlers {S} (t : node S) : list (S -> S) :=
  match t with
  | Text _ => []
  | Elem _ ps cs => own_handlers ps ++ flat_map handlers cs
  end.

End Markup.

(** ** lib/animations.ts: the animation presets *)

Module Animations.
Import JS.

Definition fadeIn : value :=
  Obj [("hidden", Obj [("opacity", Num 0)]);
       ("visible", Obj [("opacity", Num 1)])].

Definition fadeInUp : value :=
  Obj [("hidden", Obj [("opacity", Num 0); ("y", Num 20)]);
       ("visible", Obj [("opacity", Num 1); ("y", Num 0)])].

Definition fadeInDown : value :=
  Obj [("hidden", Obj [("opacity", Num 0); ("y", Num (-20))]);
       ("visible", Obj [("opacity", Num 1); ("y", Num 0)])].

Definition fadeInLeft : value :=
  Obj [("hidden", Obj [("opacity", Num 0); ("x", Num (-20))]);
       ("visible", Obj [("opacity", Num 1); ("x", Num 0)])].

Definition fadeInRight : value :=
  Obj [("hidden", Obj [("opacity", Num 0); ("x", Num 20)]);
       ("visible", Obj [("opacity", Num 1); ("x", Num 0)])].

Definition scaleIn : value :=
  Obj [("hidden", Obj [("opacity", Num 0); ("scale", Num (8 # 10))]);
       ("visible", Obj [("opacity", Num 1); ("scale", Num 1)])].

Definition scaleInUp : value :=
  Obj [("hidden", Obj [("opacity", Num 0); ("scale", Num (8 # 10)); ("y", Num 20)]);
       ("visible", Obj [("opacity", Num 1); ("scale", Num 1); ("y", Num 0)])].

Definition slideInLeft : value :=
  Obj [("hidden", Obj [("x", Num (-100)); ("opacity", Num 0)]);
       ("visible", Obj [("x", Num 0); ("opacity", Num 1)])].

Definition slideInRight : value :=
  Obj [("hidden", Obj [("x", Num 100); ("opacity", Num 0)]);
       ("visible", Obj [("x", Num 0); ("opacity", Num 1)])].

Definition slideInUp : value :=
  Obj [("hidden", Obj [("y", Num 100); ("opacity", Num 0)]);
       ("visible", Obj [("y", Num 0); ("opacity", Num 1)])].

Definition slideInDown : value :=
  Obj [("hidden", Obj [("y", Num (-100)); ("opacity", Num 0)]);
       ("visible", Obj [("y", Num 0); ("opacity", Num 1)])].

Definition staggerContainer : value :=
  Obj [("hidden", Obj [("opacity", Num 0)]);
       ("visible",
        Obj [("opacity", Num 1);
             ("transition",
              Obj [("staggerChildren", Num (1 # 10));
                   ("delayChildren", Num (1 # 10))])])].

Definition staggerItem : value :=
  Obj [("hidden", Obj [("opacity", Num 0); ("y", Num 20)]);
       ("visible",
        Obj [("opacity", Num 1); ("y", Num 0);
             ("transition", Obj [("duration", Num (5 # 10))])])].

Definition blur : value :=
  Obj [("hidden", Obj [("opacity", Num 0); ("filter", Str "blur(10px)")]);
       ("visible", Obj [("opacity", Num 1); ("filter", Str "blur(0px)")])].

Definition rotate : value :=
  Obj [("hidden", Obj [("opacity", Num 0); ("rotate", Num (-10))]);
       ("visible", Obj [("opacity", Num 1); ("rotate", Num 0)])].

Definition transitions : value :=
  Obj [("default", Obj [("duration", Num (5 # 10)); ("ease", Str "easeOut")]);
       ("smooth",
        Obj [("duration", Num (8 # 10));
             ("ease", Arr [Num (6 # 10); Num (5 # 100); Num (1 # 100); Num (9 # 10)])]);
       ("spring",
        Obj [("type", Str "spring"); ("stiffness", Num 100); ("damping", Num 15)]);
       ("bouncy",
        Obj [("type", Str "spring"); ("stiffness", Num 300); ("damping", Num 20)]);
       ("fast", Obj [("duration", Num (3 # 10)); ("ease", Str "easeOut")]);
       ("slow", Obj [("duration", Num 1); ("ease", Str "easeInOut")])].

Definition viewportOptions : value :=
  Obj [("once", Bool true);
       ("margin", Str "0px 0px -100px 0px");
       ("amount", Num (3 # 10))].

(** The animation variants of the module, under their export names (the two
    remaining exports, [transitions] and [viewportOptions], are not variants). *)
Definition exported_variants : list (string * value) :=
  [("fadeIn", fadeIn); ("fadeInUp", fadeInUp); ("fadeInDown", fadeInDown);
   ("fadeInLeft", fadeInLeft); ("fadeInRight", fadeInRight);
   ("scaleIn", scaleIn); ("scaleInUp", scaleInUp);
   ("slideInLeft", slideInLeft); ("slideInRight", slideInRight);
   ("slideInUp", slideInUp); ("slideInDown", slideInDown);
   ("staggerContainer", staggerContainer); ("staggerItem", staggerItem);
   ("blur", blur); ("rotate", rotate)].

(** [v.state.prop], e.g. [fadeInUp.visible.y]. *)
Definition state_prop (v : value) (state prop : string) : option value :=
  match get state v with
  | Some st => get prop st
  | None => None
  end.

(** Member access [o.k] on a module-level object ([undefined] when absent). *)
Definition member (k : string) (o : value) : value :=
  match get k o with
  | Some v => v
  | None => Undefined
  end.

End Animations.

(** ** components/sections/faq-section.tsx *)

Module Faq_section.
Import JS Markup Animations.

Record Faq := { question : string; answer : string }.

Record FaqSectionProps := {
  badge : option string;
  title : string;
  description : option string;
  faqs : list Faq
}.

Definition badge_span {S} (b : string) : node S :=
  el "span"
    "inline-flex items-center rounded-full border border-primary/20 bg-primary/10 px-4 py-1.5 text-sm font-medium text-primary mb-4"
    [Text b].

Definition description_paragraph {S} (d : string) : node S :=
  el "p" "text-lg text-muted-foreground" [Text d].

Definition accordion_item {S} (index : nat) (faq : Faq) : node S :=
  Elem "AccordionItem"
    [key index; str "value" ("item-" ++ index_text index);
     cls "border rounded-lg px-6 bg-card"]
    [el "AccordionTrigger" "text-left hover:no-underline py-4"
       [el "span" "font-semibold" [Text (question faq)]];
     el "AccordionContent" "text-muted-foreground pb-4" [Text (answer faq)]].

Definition FaqSection (p : FaqSectionProps) : node unit :=
  el "section" "py-20 sm:py-32 bg-secondary/30"
    [el "div" "container mx-auto px-4"
       [Elem "motion.div"
          [("initial", Val (Obj [("opacity", Num 0); ("y", Num 20)]));
           ("whileInView", Val (Obj [("opacity", Num 1); ("y", Num 0)]));
           ("viewport", Val viewportOptions);
           cls "mx-auto max-w-2xl text-center mb-16"]
          (when_truthy (badge p) badge_span
           ++ [el "h2" "text-3xl font-bold tracking-tight sm:text-4xl lg:text-5xl mb-4"
                 [Text (title p)]]
           ++ when_truthy (description p) description_paragraph);
        Elem "motion.div"
          [("variants", Val fadeInUp); str "initial" "hidden";
           str "whileInView" "visible"; ("viewport", Val viewportOptions);
           cls "mx-auto max-w-3xl"]
          [Elem "Accordion"
             [str "type" "single"; ("collapsible", Val (Bool true));
              cls "space-y-4"]
             (imap accordion_item (faqs p))]]].

End Faq_section.

(** ** components/sections/hero-section.tsx *)

Module Hero_section.
Import JS Markup Animations.

Record Cta := { text : string; href : string }.

Record HeroSectionProps := {
  badge : option string;
  title : string;
  description : string;
  primaryCta : Cta;
  secondaryCta : option Cta;
  image : option string
}.

(** The element that shows the badge (with the [motion.div] it sits in). *)
Definition badge_block {S} (b : string) : node S :=
  Elem "motion.div" [("variants", Val staggerItem); cls "mb-8 inline-block"]
    [el "span"
       "inline-flex items-center rounded-full border border-primary/20 bg-primary/10 px-4 py-1.5 text-sm font-medium text-primary"
       [Text b]].

Definition primary_button {S} (c : Cta) : node S :=
  Elem "Button" [("asChild", Val (Bool true)); str "size" "lg"; cls "text-base"]
    [Elem "a" [str "href" (href c)]
       [Text (text c); el "ArrowRight" "ml-2 size-4" []]].

Definition secondary_button {S} (c : Cta) : node S :=
  Elem "Button"
    [("asChild", Val (Bool true)); str "variant" "outline"; str "size" "lg";
     cls "text-base"]
    [Elem "a" [str "href" (href c)]
       [el "Play" "mr-2 size-4" []; Text (text c)]].

Definition image_block {S} (src : string) : node S :=
  Elem "motion.div"
    [("initial", Val (Obj [("opacity", Num 0); ("y", Num 40)]));
     ("whileInView", Val (Obj [("opacity", Num 1); ("y", Num 0)]));
     ("viewport", Val viewportOptions);
     ("transition", Val (member "smooth" transitions));
     cls "mt-16 sm:mt-24"]
    [el "div" "relative rounded-xl border bg-card shadow-2xl"
       [Elem "img" [str "src" src; str "alt" "Hero"; cls "w-full rounded-xl"] []]].

(** [badge = "New Release"] among the parameters: the default stands in when
    the prop is [undefined]. *)
Definition HeroSection (p : HeroSectionProps) : node unit :=
  let badge := default "New Release" (badge p) in
  el "section"
    "relative overflow-hidden bg-gradient-to-b from-background to-secondary/20 py-20 sm:py-32"
    [el "div" "absolute inset-0 -z-10 overflow-hidden"
       [el "div" "absolute left-1/2 top-0 -translate-x-1/2 blur-3xl opacity-20"
          [el "div"
             "aspect-[1155/678] w-[72.1875rem] bg-gradient-to-tr from-primary to-accent"
             []]];
     el "div" "container mx-auto px-4"
       ([Elem "motion.div"
           [("variants", Val staggerContainer); str "initial" "hidden";
            str "whileInView" "visible"; ("viewport", Val viewportOptions);
            cls "mx-auto max-w-4xl text-center"]
           [badge_block badge;
            Elem "motion.h1"
              [("variants", Val staggerItem);
               cls "mb-6 text-4xl font-bold tracking-tight sm:text-6xl lg:text-7xl"]
              [Text (title p)];
            Elem "motion.p"
              [("variants", Val staggerItem);
               cls "mb-10 text-lg text-muted-foreground sm:text-xl"]
              [Text (description p)];
            Elem "motion.div"
              [("variants", Val staggerItem);
               cls "flex flex-col gap-4 sm:flex-row sm:justify-center"]
              (primary_button (primaryCta p)
               :: when_given (secondaryCta p) secondary_button)]]
        ++ when_truthy (image p) image_block)].

End Hero_section.

(** ** Evaluation of a component body against its module's bindings

    A component file binds the names it imports.  Evaluating a JSX
    expression reads its tag, then its props from left to right, then its
    children from left to right; reading a name that the module does not
    bind throws a [ReferenceError], which ends the render. *)

Module Eval.
Import JS Markup.

Inductive error : Type :=
| ReferenceError (name : string)
| TypeError (reading : string).

Inductive result (A : Type) : Type :=
| Ok (a : A)
| Throw (e : error).

Arguments Ok {A} a.
Arguments Throw {A} e.

#[export] Instance result_ret : MRet result := fun A a => Ok a.
#[export] Instance result_bind : MBind result := fun A B k m =>
  match m with
  | Ok a => k a
  | Throw e => Throw e
  end.

#[export] Instance result_fmap : FMap result := fun A B f m =>
  match m with
  | Ok a => Ok (f a)
  | Throw e => Throw e
  end.

(** The names a module binds: imported components, and imported data with
    their values. *)
Record scope := {
  components : list string;
  data : list (string * value)
}.

Definition component (sc : scope) (x : string) : result string :=
  if existsb (String.eqb x) (components sc) then Ok x
  else Throw (ReferenceError x).

Definition ref (sc : scope) (x : string) : result value :=
  match get_field x (data sc) with
  | Some v => Ok v
  | None => Throw (ReferenceError x)
  end.

(** An intrinsic (lower-case) tag is a string, not a name. *)
Definition html (tag : string) : result string := Ok tag.

Fixpoint sequence {A} (ms : list (result A)) : result (list A) :=
  match ms with
  | [] => Ok []
  | m :: rest => a ← m; l ← sequence rest; Ok (a :: l)
  end.

Definition jsx {S} (tag : result string)
    (props : list (result (string * attr S)))
    (children : list (result (list (node S)))) : result (node S) :=
  t ← tag; ps ← sequence props; cs ← sequence children;
  Ok (Elem t ps (concat cs)).

Definition lit {S} (p : string * attr S) : result (string * attr S) := Ok p.

Definition bound {S} (k : string) (v : result value)
  : result (string * attr S) :=
  x ← v; Ok (k, Val x).

Definition txt {S} (s : string) : result (list (node S)) := Ok [Text s].

Definition child {S} (e : result (node S)) : result (list (node S)) :=
  n ← e; Ok [n].

(** [{prop && element}]: the element is evaluated only when the prop is
    truthy. *)
Definition and_then {S} (o : option string)
    (element : string -> result (node S)) : result (list (node S)) :=
  match o with
  | Some s => if truthy o then child (element s) else Ok []
  | None => Ok []
  end.

Definition and_given {S V} (o : option V)
    (element : V -> result (node S)) : result (list (node S)) :=
  match o with
  | Some v => child (element v)
  | None => Ok []
  end.

(** [{list.map((x, index) => element)}]. *)
Definition each {S A} (l : list A) (element : nat -> A -> result (node S))
  : result (list (node S)) :=
  sequence (imap element l).

(** The evaluation ends with a value. *)
Definition succeeds {A} (m : result A) : Prop := exists a, m = Ok a.

End Eval.

(** ** components/sections/variants/hero-split.tsx: HeroSectionSplit *)

Module Hero_split.
Import JS Markup Eval.

Record Cta := { text : string; href : string }.

Inductive position : Type := left | right.

Record HeroSectionSplitProps := {
  badge : option string;
  title : string;
  description : string;
  primaryCta : Cta;
  secondaryCta : option Cta;
  image : option string;
  imagePosition : option position
}.

(** The import statements of the file: [motion] from framer-motion,
    [Button], the three names taken from lib/animations, and two icons. *)
Definition imports : scope := {|
  components := ["motion"; "Button"; "ArrowRight"; "Play"];
  data := [("fadeInLeft", Animations.fadeInLeft);
           ("fadeInRight", Animations.fadeInRight);
           ("viewportOptions", Animations.viewportOptions)]
|}.

Definition motion (sc : scope) (tag : string) : result string :=
  m ← component sc "motion"; Ok (m ++ "." ++ tag)%string.

Definition textContent (sc : scope) (p : HeroSectionSplitProps)
  : result (node unit) :=
  jsx (motion sc "div")
    [bound "variants" (ref sc "fadeInLeft");
     lit (str "initial" "hidden");
     lit (str "whileInView" "visible");
     bound "viewport" (ref sc "viewportOptions");
     bound "transition" (Animations.member "default" <$> ref sc "transitions");
     lit (cls "flex flex-col justify-center")]
    [and_then (badge p) (fun b =>
       jsx (html "div") [lit (cls "mb-6 inline-block")]
         [child (jsx (html "span")
            [lit (cls "inline-flex items-center rounded-full border border-primary/20 bg-primary/10 px-4 py-1.5 text-sm font-medium text-primary")]
            [txt b])]);
     child (jsx (html "h1")
       [lit (cls "mb-6 text-4xl font-bold tracking-tight sm:text-5xl lg:text-6xl")]
       [txt (title p)]);
     child (jsx (html "p")
       [lit (cls "mb-8 text-lg text-muted-foreground sm:text-xl")]
       [txt (description p)]);
     child (jsx (html "div") [lit (cls "flex flex-col gap-4 sm:flex-row")]
       [child (jsx (component sc "Button")
          [lit ("asChild", Val (Bool true)); lit (str "size" "lg");
           lit (cls "text-base")]
          [child (jsx (html "a") [lit (str "href" (href (primaryCta p)))]
             [txt (text (primaryCta p));
              child (jsx (component sc "ArrowRight")
                       [lit (cls "ml-2 size-4")] [])])]);
        and_given (secondaryCta p) (fun c =>
          jsx (component sc "Button")
            [lit ("asChild", Val (Bool true)); lit (str "variant" "outline");
             lit (str "size" "lg"); lit (cls "text-base")]
            [child (jsx (html "a") [lit (str "href" (href c))]
               [child (jsx (component sc "Play")
                         [lit (cls "mr-2 size-4")] []);
                txt (text c)])])])].

Definition imageContent (sc : scope) (p : HeroSectionSplitProps)
  : result (list (node unit)) :=
  and_then (image p) (fun src =>
    jsx (motion sc "div")
      [bound "variants" (ref sc "fadeInRight");
       lit (str "initial" "hidden");
       lit (str "whileInView" "visible");
       bound "viewport" (ref sc "viewportOptions");
       bound "transition" (Animations.member "smooth" <$> ref sc "transitions");
       lit (cls "flex items-center justify-center")]
      [child (jsx (html "div")
         [lit (cls "relative rounded-xl border bg-card shadow-2xl overflow-hidden")]
         [child (jsx (html "img")
            [lit (str "src" src); lit (str "alt" "Hero");
             lit (cls "w-full h-auto")] [])])]).

(** The body of the component, over the bindings [sc] of its module. *)
Definition HeroSectionSplit_in (sc : scope) (p : HeroSectionSplitProps)
  : result (node unit) :=
  let imagePosition := default right (imagePosition p) in
  text_content ← textContent sc p;
  image_content ← imageContent sc p;
  jsx (html "section") [lit (cls "relative py-20 sm:py-32")]
    [child (jsx (html "div") [lit (cls "container mx-auto px-4")]
       [child (jsx (html "div")
          [lit (cls "grid gap-12 lg:grid-cols-2 lg:gap-16 items-center")]
          (match imagePosition with
           | left => [Ok image_content; Ok [text_content]]
           | right => [Ok [text_content]; Ok image_content]
           end))])].

Definition HeroSectionSplit : HeroSectionSplitProps -> result (node unit) :=
  HeroSectionSplit_in imports.

(** The bindings the file would have with [transitions] imported too, as
    hero-section.tsx imports it. *)
Definition imports_with_transitions : scope := {|
  components := components imports;
  data := data imports ++ [("transitions", Animations.transitions)]
|}.

End Hero_split.

(** ** components/sections/variants/footer-mega.tsx: FooterMega *)

Module Footer_mega.
Import JS Markup Eval.

Record FooterLink := { label : string; href : string }.

Record FooterColumn := { title : string; links : list FooterLink }.

Record SocialLinks := {
  github : option string;
  twitter : option string;
  linkedin : option string;
  youtube : option string
}.

Record FooterMegaProps := {
  companyName : string;
  description : option string;
  tagline : option string;
  columns : list FooterColumn;
  socialLinks : option SocialLinks;
  contactEmail : option string;
  address : option string
}.

(** The import statements of the file: [Button], [Separator] and four
    icons. *)
Definition imports : scope := {|
  components := ["Button"; "Separator"; "Github"; "Twitter"; "Linkedin"; "Youtube"];
  data := []
|}.

Definition social_button (sc : scope) (url aria icon : string)
  : result (node unit) :=
  jsx (component sc "Button")
    [lit (str "variant" "ghost"); lit (str "size" "icon");
     lit ("asChild", Val (Bool true))]
    [child (jsx (html "a")
       [lit (str "href" url); lit (str "target" "_blank");
        lit (str "rel" "noopener noreferrer"); lit (str "aria-label" aria)]
       [child (jsx (component sc icon) [lit (cls "size-5")] [])])].

Definition contact_info (sc : scope) (p : FooterMegaProps)
  : result (node unit) :=
  jsx (html "div") [lit (cls "space-y-3 mb-6")]
    [and_then (contactEmail p) (fun email =>
       jsx (html "div") [lit (cls "flex items-center gap-2 text-sm")]
         [child (jsx (component sc "Mail")
                   [lit (cls "size-4 text-muted-foreground")] []);
          child (jsx (html "a")
            [lit (str "href" ("mailto:" ++ email));
             lit (cls "text-muted-foreground hover:text-primary transition-colors")]
            [txt email])]);
     and_then (address p) (fun a =>
       jsx (html "p") [lit (cls "text-sm text-muted-foreground")] [txt a])].

Definition social_links (sc : scope) (s : SocialLinks) : result (node unit) :=
  jsx (html "div") [lit (cls "flex gap-2")]
    [and_then (github s) (fun url => social_button sc url "GitHub" "Github");
     and_then (twitter s) (fun url => social_button sc url "Twitter" "Twitter");
     and_then (linkedin s) (fun url => social_button sc url "LinkedIn" "Linkedin");
     and_then (youtube s) (fun url => social_button sc url "YouTube" "Youtube")].

Definition link_column (index : nat) (column : FooterColumn)
  : result (node unit) :=
  jsx (html "div") [lit (key index)]
    [child (jsx (html "h4")
       [lit (cls "font-semibold mb-4 text-sm uppercase tracking-wider")]
       [txt (title column)]);
     child (jsx (html "ul") [lit (cls "space-y-3")]
       [each (links column) (fun linkIndex link =>
          jsx (html "li") [lit (key linkIndex)]
            [child (jsx (html "a")
               [lit (str "href" (href link));
                lit (cls "text-sm text-muted-foreground hover:text-primary transition-colors")]
               [txt (label link)])])])].

Definition policy_link (url caption : string) : result (list (node unit)) :=
  child (jsx (html "a")
    [lit (str "href" url);
     lit (cls "text-sm text-muted-foreground hover:text-primary transition-colors")]
    [txt caption]).

(** The body of the component, over the bindings [sc] of its module;
    [currentYear] is what [new Date().getFullYear()] returns. *)
Definition FooterMega_in (sc : scope) (currentYear : Z) (p : FooterMegaProps)
  : result (node unit) :=
  jsx (html "footer") [lit (cls "border-t bg-background")]
    [child (jsx (html "div") [lit (cls "container mx-auto px-4 py-16 sm:py-20")]
       [child (jsx (html "div") [lit (cls "grid gap-12 lg:grid-cols-5 mb-12")]
          [child (jsx (html "div") [lit (cls "lg:col-span-2")]
             [child (jsx (html "h3") [lit (cls "text-2xl font-bold mb-3")]
                [txt (companyName p)]);
              and_then (tagline p) (fun t =>
                jsx (html "p") [lit (cls "text-sm font-medium text-primary mb-3")]
                  [txt t]);
              and_then (description p) (fun d =>
                jsx (html "p")
                  [lit (cls "text-sm text-muted-foreground mb-6 max-w-md")]
                  [txt d]);
              and_then (or_else (contactEmail p) (address p)) (fun _ =>
                contact_info sc p);
              and_given (socialLinks p) (social_links sc)]);
           each (columns p) link_column]);
        child (jsx (component sc "Separator") [lit (cls "mb-8")] []);
        child (jsx (html "div")
          [lit (cls "flex flex-col gap-4 sm:flex-row sm:justify-between sm:items-center")]
          [child (jsx (html "p") [lit (cls "text-sm text-muted-foreground")]
             [txt "© "; txt (int_text currentYear); txt " ";
              txt (companyName p); txt ". All rights reserved."]);
           child (jsx (html "div") [lit (cls "flex flex-wrap gap-6")]
             [policy_link "/privacy" "Privacy Policy";
              policy_link "/terms" "Terms of Service";
              policy_link "/cookies" "Cookie Policy";
              policy_link "/accessibility" "Accessibility"])])])].

Definition FooterMega : Z -> FooterMegaProps -> result (node unit) :=
  FooterMega_in imports.

End Footer_mega.

(** ** components/sections/variants/navbar-centered.tsx: NavbarCentered *)

Module Navbar_centered.
Import JS Markup.

Record NavLink := { label : string; href : string }.

Record Cta := { text : string; cta_href : string }.

Record NavbarCenteredProps := {
  brandName : string;
  links : list NavLink;
  leftLinks : option (list NavLink);
  rightLinks : option (list NavLink);
  ctaButton : option Cta
}.

(** [leftLinks || links.slice(0, Math.ceil(links.length / 2))]; an array,
    even an empty one, is truthy. *)
Definition left (p : NavbarCenteredProps) : list NavLink :=
  match leftLinks p with
  | Some l => l
  | None => slice (links p) 0 (Some (ceil_half (length (links p))))
  end.

(** [rightLinks || links.slice(Math.ceil(links.length / 2))]. *)
Definition right (p : NavbarCenteredProps) : list NavLink :=
  match rightLinks p with
  | Some l => l
  | None => slice (links p) (ceil_half (length (links p))) None
  end.

(** [[...left, ...right]], the links of the mobile menu. *)
Definition mobile_links (p : NavbarCenteredProps) : list NavLink :=
  left p ++ right p.

Definition desktop_link (index : nat) (link : NavLink) : node bool :=
  Elem "a"
    [key index; str "href" (href link);
     cls "text-sm font-medium text-muted-foreground transition-colors hover:text-primary"]
    [Text (label link)].

Definition mobile_link (index : nat) (link : NavLink) : node bool :=
  Elem "a"
    [key index; str "href" (href link);
     ("onClick", Handler (fun _ => false));
     cls "text-lg font-medium text-muted-foreground transition-colors hover:text-primary"]
    [Text (label link)].

(** The component at local state [isOpen] (the mobile sheet is open). *)
Definition NavbarCentered (p : NavbarCenteredProps) (isOpen : bool) : node bool :=
  el "header"
    "sticky top-0 z-50 w-full border-b bg-background/95 backdrop-blur supports-[backdrop-filter]:bg-background/60"
    [el "nav" "container mx-auto flex h-16 items-center justify-between px-4"
       [el "div" "hidden md:flex md:items-center md:gap-6"
          (imap desktop_link (left p));
        Elem "a"
          [str "href" "/";
           cls "flex items-center space-x-2 md:absolute md:left-1/2 md:-translate-x-1/2"]
          [el "span" "text-xl font-bold" [Text (brandName p)]];
        el "div" "hidden md:flex md:items-center md:gap-6"
          (imap desktop_link (right p)
           ++ when_given (ctaButton p) (fun c =>
                Elem "Button" [("asChild", Val (Bool true)); str "size" "sm"]
                  [Elem "a" [str "href" (cta_href c)] [Text (text c)]]));
        Elem "Sheet"
          [("open", Val (Bool isOpen));
           ("onOpenChange", BoolHandler (fun b _ => b))]
          [Elem "SheetTrigger" [("asChild", Val (Bool true)); cls "md:hidden"]
             [Elem "Button" [str "variant" "ghost"; str "size" "icon"]
                [el "Menu" "size-5" [];
                 el "span" "sr-only" [Text "Toggle menu"]]];
           Elem "SheetContent" [str "side" "right"; cls "w-[300px] sm:w-[400px]"]
             [el "nav" "flex flex-col gap-4 mt-8 px-2"
                (imap mobile_link (mobile_links p)
                 ++ when_given (ctaButton p) (fun c =>
                      Elem "Button" [("asChild", Val (Bool true)); cls "mt-4"]
                        [Elem "a"
                           [str "href" (cta_href c);
                            ("onClick", Handler (fun _ => false))]
                           [Text (text c)]]))]]]].

End Navbar_centered.

(** ** components/sections/variants/faq-searchable.tsx: FaqSectionSearchable *)

Module Faq_searchable.
Import JS Markup Animations.

Record Faq := { question : string; answer : string }.

Record FaqBaseProps := {
  badge : option string;
  title : string;
  description : option string;
  faqs : list Faq
}.

(** The predicate of the filter. *)
Definition matches (searchQuery : string) (faq : Faq) : bool :=
  includes (toLowerCase (question faq)) (toLowerCase searchQuery)
  || includes (toLowerCase (answer faq)) (toLowerCase searchQuery).

Definition filteredFaqs (faqs : list Faq) (searchQuery : string) : list Faq :=
  List.filter (matches searchQuery) faqs.

Definition accordion_item {S} (index : nat) (faq : Faq) : node S :=
  Elem "AccordionItem"
    [key index; str "value" ("item-" ++ index_text index);
     cls "border rounded-lg px-6 bg-card"]
    [el "AccordionTrigger" "text-left hover:no-underline py-4"
       [el "span" "font-semibold" [Text (question faq)]];
     el "AccordionContent" "text-muted-foreground pb-4" [Text (answer faq)]].

Definition accordion {S} (shown : list Faq) : node S :=
  Elem "Accordion"
    [str "type" "single"; ("collapsible", Val (Bool true)); cls "space-y-4"]
    (imap accordion_item shown).

Definition no_results {S} (searchQuery : string) : node S :=
  el "div" "text-center py-12"
    [el "p" "text-muted-foreground text-lg"
       [Text ("No results found for " ++ dquote); Text searchQuery; Text dquote];
     el "p" "text-sm text-muted-foreground mt-2"
       [Text "Try searching with different keywords"]].

(** [filteredFaqs.length > 0 ? accordion : message]. *)
Definition results {S} (faqs : list Faq) (searchQuery : string) : node S :=
  if (0 <? length (filteredFaqs faqs searchQuery))%nat
  then accordion (filteredFaqs faqs searchQuery)
  else no_results searchQuery.

(** The component at local state [searchQuery]. *)
Definition FaqSectionSearchable (p : FaqBaseProps) (searchQuery : string)
  : node string :=
  el "section" "py-20 sm:py-32 bg-secondary/30"
    [el "div" "container mx-auto px-4"
       [Elem "motion.div"
          [("initial", Val (Obj [("opacity", Num 0); ("y", Num 20)]));
           ("whileInView", Val (Obj [("opacity", Num 1); ("y", Num 0)]));
           ("viewport", Val viewportOptions);
           cls "mx-auto max-w-2xl text-center mb-12"]
          (when_truthy (badge p) (fun b =>
             el "span"
               "inline-flex items-center rounded-full border border-primary/20 bg-primary/10 px-4 py-1.5 text-sm font-medium text-primary mb-4"
               [Text b])
           ++ [el "h2" "text-3xl font-bold tracking-tight sm:text-4xl lg:text-5xl mb-4"
                 [Text (title p)]]
           ++ when_truthy (description p) (fun d =>
                el "p" "text-lg text-muted-foreground" [Text d]));
        Elem "motion.div"
          [("initial", Val (Obj [("opacity", Num 0); ("y", Num 20)]));
           ("whileInView", Val (Obj [("opacity", Num 1); ("y", Num 0)]));
           ("viewport", Val viewportOptions);
           cls "mx-auto max-w-3xl mb-12"]
          [el "div" "relative"
             [el "Search"
                "absolute left-4 top-1/2 -translate-y-1/2 size-5 text-muted-foreground"
                [];
              Elem "Input"
                [str "type" "text";
                 str "placeholder" "Search frequently asked questions...";
                 str "value" searchQuery;
                 ("onChange", InputHandler (fun typed _ => typed));
                 cls "pl-12 h-14 text-base"]
                []]];
        Elem "motion.div"
          [("variants", Val fadeInUp); str "initial" "hidden";
           str "whileInView" "visible"; ("viewport", Val viewportOptions);
           cls "mx-auto max-w-3xl"]
          [results (faqs p) searchQuery]]].

End Faq_searchable.

(** ** components/sections/testimonials-section.tsx: TestimonialsSection *)

Module Testimonials_section.
Import JS Markup Animations.

Record Testimonial := {
  name : string;
  role : string;
  company : string;
  avatar : option string;
  rating : number;
  content : string
}.

Record TestimonialsSectionProps := {
  badge : option string;
  title : string;
  description : option string;
  testimonials : list Testimonial
}.

Definition filled : string := "fill-yellow-400 text-yellow-400".
Definition unfilled : string := "fill-muted text-muted".

(** The star drawn at position [i] of the rating row. *)
Definition star {S} (t : Testimonial) (i : nat) : node S :=
  Elem "Star"
    [key i;
     cls ("size-4 " ++ (if lt_int (Z.of_nat i) (rating t) then filled else unfilled))]
    [].

(** [Array.from({ length: 5 }).map((_, i) => star)]. *)
Definition stars {S} (t : Testimonial) : list (node S) :=
  star t <$> seq 0 5.

(** [name.split(" ").map((n) => n[0]).join("")]. *)
Definition fallback_text (t : Testimonial) : string :=
  join_empty (first_char <$> split_space (name t)).

Definition card (index : nat) (t : Testimonial) : node unit :=
  Elem "motion.div" [key index; ("variants", Val staggerItem)]
    [el "Card" "h-full border-2 transition-all hover:border-primary/50 hover:shadow-lg"
       [el "CardContent" "p-6"
          [el "div" "mb-4 flex gap-1" (stars t);
           el "blockquote" "mb-6 text-muted-foreground"
             [Text dquote; Text (content t); Text dquote];
           el "div" "flex items-center gap-3"
             [Elem "Avatar" []
                [Elem "AvatarImage"
                   [("src", Val (of_option (avatar t))); str "alt" (name t)] [];
                 Elem "AvatarFallback" [] [Text (fallback_text t)]];
              Elem "div" []
                [el "div" "font-semibold" [Text (name t)];
                 el "div" "text-sm text-muted-foreground"
                   [Text (role t); Text " at "; Text (company t)]]]]]].

Definition TestimonialsSection (p : TestimonialsSectionProps) : node unit :=
  el "section" "py-20 sm:py-32"
    [el "div" "container mx-auto px-4"
       [Elem "motion.div"
          [("initial", Val (Obj [("opacity", Num 0); ("y", Num 20)]));
           ("whileInView", Val (Obj [("opacity", Num 1); ("y", Num 0)]));
           ("viewport", Val viewportOptions);
           cls "mx-auto max-w-2xl text-center mb-16"]
          (when_truthy (badge p) (fun b =>
             el "span"
               "inline-flex items-center rounded-full border border-primary/20 bg-primary/10 px-4 py-1.5 text-sm font-medium text-primary mb-4"
               [Text b])
           ++ [el "h2" "text-3xl font-bold tracking-tight sm:text-4xl lg:text-5xl mb-4"
                 [Text (title p)]]
           ++ when_truthy (description p) (fun d =>
                el "p" "text-lg text-muted-foreground" [Text d]));
        Elem "motion.div"
          [("variants", Val staggerContainer); str "initial" "hidden";
           str "whileInView" "visible"; ("viewport", Val viewportOptions);
           cls "grid gap-8 sm:grid-cols-2 lg:grid-cols-3"]
          (imap card (testimonials p))]].

End Testimonials_section.

(** ** components/sections/variants/testimonials-masonry.tsx *)

Module Testimonials_masonry.
Import JS Markup Animations.

Record Testimonial := {
  name : string;
  role : string;
  company : string;
  avatar : option string;
  rating : number;
  content : string
}.

Record TestimonialsBaseProps := {
  badge : option string;
  title : string;
  description : option string;
  testimonials : list Testimonial
}.

Definition filled : string := "fill-yellow-400 text-yellow-400".
Definition unfilled : string := "fill-muted text-muted".

Definition star {S} (t : Testimonial) (i : nat) : node S :=
  Elem "Star"
    [key i;
     cls ("size-4 " ++ (if lt_int (Z.of_nat i) (rating t) then filled else unfilled))]
    [].

Definition stars {S} (t : Testimonial) : list (node S) :=
  star t <$> seq 0 5.

(** [name.split(" ").map((n) => n[0]).join("")]. *)
Definition fallback_text (t : Testimonial) : string :=
  join_empty (first_char <$> split_space (name t)).

Definition card (index : nat) (t : Testimonial) : node unit :=
  Elem "motion.div"
    [key index; ("variants", Val staggerItem); cls "break-inside-avoid"]
    [el "Card" "border-2 transition-all hover:border-primary/50 hover:shadow-lg"
       [el "CardContent" "p-6"
          [el "div" "mb-4 flex gap-1" (stars t);
           el "blockquote" "mb-6 text-muted-foreground"
             [Text dquote; Text (content t); Text dquote];
           el "div" "flex items-center gap-3"
             [el "Avatar" "size-10"
                [Elem "AvatarImage"
                   [("src", Val (of_option (avatar t))); str "alt" (name t)] [];
                 Elem "AvatarFallback" [] [Text (fallback_text t)]];
              Elem "div" []
                [el "div" "font-semibold text-sm" [Text (name t)];
                 el "div" "text-xs text-muted-foreground" [Text (role t)]]]]]].

Definition TestimonialsSectionMasonry (p : TestimonialsBaseProps) : node unit :=
  el "section" "py-20 sm:py-32"
    [el "div" "container mx-auto px-4"
       [Elem "motion.div"
          [("initial", Val (Obj [("opacity", Num 0); ("y", Num 20)]));
           ("whileInView", Val (Obj [("opacity", Num 1); ("y", Num 0)]));
           ("viewport", Val viewportOptions);
           cls "mx-auto max-w-2xl text-center mb-16"]
          (when_truthy (badge p) (fun b =>
             el "span"
               "inline-flex items-center rounded-full border border-primary/20 bg-primary/10 px-4 py-1.5 text-sm font-medium text-primary mb-4"
               [Text b])
           ++ [el "h2" "text-3xl font-bold tracking-tight sm:text-4xl lg:text-5xl mb-4"
                 [Text (title p)]]
           ++ when_truthy (description p) (fun d =>
                el "p" "text-lg text-muted-foreground" [Text d]));
        Elem "motion.div"
          [("variants", Val staggerContainer); str "initial" "hidden";
           str "whileInView" "visible"; ("viewport", Val viewportOptions);
           cls "columns-1 sm:columns-2 lg:columns-3 gap-6 space-y-6"]
          (imap card (testimonials p))]].

End Testimonials_masonry.

(** ** components/sections/variants/testimonials-carousel.tsx *)

Module Testimonials_carousel.
Import JS Markup Animations Eval.

Record Testimonial := {
  name : string;
  role : string;
  company : string;
  avatar : option string;
  rating : number;
  content : string
}.

Record TestimonialsBaseProps := {
  badge : option string;
  title : string;
  description : option string;
  testimonials : list Testimonial
}.

(** The updater passed to [setCurrentIndex] by [next]. *)
Definition next (p : TestimonialsBaseProps) (prev : Z) : Z :=
  rem (prev + 1) (Z.of_nat (length (testimonials p))).

(** The updater passed to [setCurrentIndex] by [previous]. *)
Definition previous (p : TestimonialsBaseProps) (prev : Z) : Z :=
  rem (prev - 1 + Z.of_nat (length (testimonials p)))
      (Z.of_nat (length (testimonials p))).

(** What a click on the dot at position [index] does:
    [setCurrentIndex(index)]. *)
Definition go_to (index : nat) (prev : Z) : Z := Z.of_nat index.

Definition filled : string := "fill-yellow-400 text-yellow-400".
Definition unfilled : string := "fill-muted text-muted".

Definition star {S} (t : Testimonial) (i : nat) : node S :=
  Elem "Star"
    [key i;
     cls ("size-5 " ++ (if lt_int (Z.of_nat i) (rating t) then filled else unfilled))]
    [].

Definition stars {S} (t : Testimonial) : list (node S) :=
  star t <$> seq 0 5.

(** [name.split(" ").map((n) => n[0]).join("")]. *)
Definition fallback_text (t : Testimonial) : string :=
  join_empty (first_char <$> split_space (name t)).

Definition slide (currentIndex : Z) (t : Testimonial) : node Z :=
  Elem "motion.div"
    [("key", Val (Num (inject_Z currentIndex)));
     ("initial", Val (Obj [("opacity", Num 0); ("x", Num 100)]));
     ("animate", Val (Obj [("opacity", Num 1); ("x", Num 0)]));
     ("exit", Val (Obj [("opacity", Num 0); ("x", Num (-100))]));
     ("transition", Val (Obj [("duration", Num (3 # 10))]))]
    [el "Card" "border-2"
       [el "CardContent" "p-8 sm:p-12"
          [el "Quote" "size-12 text-primary/20 mb-6" [];
           el "div" "mb-6 flex gap-1" (stars t);
           el "blockquote" "mb-8 text-xl sm:text-2xl font-medium"
             [Text dquote; Text (content t); Text dquote];
           el "div" "flex items-center gap-4"
             [el "Avatar" "size-14"
                [Elem "AvatarImage"
                   [("src", Val (of_option (avatar t))); str "alt" (name t)] [];
                 Elem "AvatarFallback" [] [Text (fallback_text t)]];
              Elem "div" []
                [el "div" "font-semibold text-lg" [Text (name t)];
                 el "div" "text-muted-foreground"
                   [Text (role t); Text " at "; Text (company t)]]]]]].

Definition dot (currentIndex : Z) (index : nat) (t : Testimonial) : node Z :=
  Elem "button"
    [key index;
     ("onClick", Handler (go_to index));
     cls ("size-2 rounded-full transition-all "
          ++ (if (Z.of_nat index =? currentIndex)%Z then "bg-primary w-8"
              else "bg-muted hover:bg-primary/50"));
     str "aria-label" ("Go to testimonial " ++ index_text (index + 1))]
    [].

Definition arrow (p : TestimonialsBaseProps) (step : Z -> Z) (icon : string)
  : node Z :=
  Elem "Button"
    [str "variant" "outline"; str "size" "icon";
     ("onClick", Handler step);
     ("disabled", Val (Bool (length (testimonials p) <=? 1)%nat))]
    [el icon "size-4" []].

(** The component at local state [currentIndex].  [testimonials[currentIndex]]
    is [undefined] outside the array, and reading its [rating] then throws. *)
Definition TestimonialsSectionCarousel (p : TestimonialsBaseProps)
    (currentIndex : Z) : result (node Z) :=
  match at_index (testimonials p) currentIndex with
  | None => Throw (TypeError "rating")
  | Some currentTestimonial =>
      Ok (el "section" "py-20 sm:py-32 bg-secondary/30"
        [el "div" "container mx-auto px-4"
           [Elem "motion.div"
              [("initial", Val (Obj [("opacity", Num 0); ("y", Num 20)]));
               ("whileInView", Val (Obj [("opacity", Num 1); ("y", Num 0)]));
               ("viewport", Val viewportOptions);
               cls "mx-auto max-w-2xl text-center mb-16"]
              (when_truthy (badge p) (fun b =>
                 el "span"
                   "inline-flex items-center rounded-full border border-primary/20 bg-primary/10 px-4 py-1.5 text-sm font-medium text-primary mb-4"
                   [Text b])
               ++ [el "h2"
                     "text-3xl font-bold tracking-tight sm:text-4xl lg:text-5xl mb-4"
                     [Text (title p)]]
               ++ when_truthy (description p) (fun d =>
                    el "p" "text-lg text-muted-foreground" [Text d]));
            el "div" "mx-auto max-w-4xl relative"
              [Elem "AnimatePresence" [str "mode" "wait"]
                 [slide currentIndex currentTestimonial];
               el "div" "flex items-center justify-center gap-4 mt-8"
                 [arrow p (previous p) "ChevronLeft";
                  el "div" "flex gap-2" (imap (dot currentIndex) (testimonials p));
                  arrow p (next p) "ChevronRight"]]]])
  end.

End Testimonials_carousel.

(** ** components/sections/variants/pricing-toggle.tsx: PricingSectionToggle *)

Module Pricing_toggle.
Import JS Markup Animations.

Record Cta := { text : string; href : string }.

Record PricingTierWithToggle := {
  name : string;
  period : string;
  description : string;
  features : list string;
  cta : Cta;
  popular : option bool;
  monthlyPrice : string;
  yearlyPrice : string
}.

Record PricingSectionToggleProps := {
  badge : option string;
  title : string;
  section_description : option string;
  pricingTiers : list PricingTierWithToggle;
  yearlyDiscount : option string
}.

(** Truthiness of the optional [popular] flag. *)
Definition is_popular (tier : PricingTierWithToggle) : bool :=
  default false (popular tier).

(** The click handler of the switch: [() => setIsYearly(!isYearly)], with
    [isYearly] the state the handler was rendered at. *)
Definition toggle (isYearly : bool) (current : bool) : bool := negb isYearly.

(** [isYearly ? tier.yearlyPrice : tier.monthlyPrice]. *)
Definition displayed_price (isYearly : bool) (tier : PricingTierWithToggle)
  : string :=
  if isYearly then yearlyPrice tier else monthlyPrice tier.

Definition discount_badge {S} (discount : string) : node S :=
  Elem "Badge" [str "variant" "secondary"; cls "ml-2"] [Text discount].

Definition billed_annually {S} : node S :=
  el "div" "text-xs text-muted-foreground mt-1" [Text "Billed annually"].

Section WithClassNames.

(** [cn] of lib/utils, which joins class names; the file is not part of the
    sources at hand, so the components are stated for any such function. *)
Variable cn : string -> string -> string.

Definition switch (isYearly : bool) : list (node bool) :=
  [el "span"
     ("text-sm font-medium transition-colors "
      ++ (if negb isYearly then "text-foreground" else "text-muted-foreground"))
     [Text "Monthly"];
   Elem "button"
     [("onClick", Handler (toggle isYearly));
      cls (cn "relative inline-flex h-6 w-11 items-center rounded-full transition-colors"
              (if isYearly then "bg-primary" else "bg-muted"))]
     [el "span"
        (cn "inline-block h-4 w-4 transform rounded-full bg-white transition-transform"
            (if isYearly then "translate-x-6" else "translate-x-1"))
        []];
   el "span"
     ("text-sm font-medium transition-colors "
      ++ (if isYearly then "text-foreground" else "text-muted-foreground"))
     [Text "Yearly"]].

Definition price_block (isYearly : bool) (tier : PricingTierWithToggle)
  : node bool :=
  el "div" "mb-2"
    ([Elem "motion.span"
        [str "key" (if isYearly then "yearly" else "monthly");
         ("initial", Val (Obj [("opacity", Num 0); ("y", Num (-10))]));
         ("animate", Val (Obj [("opacity", Num 1); ("y", Num 0)]));
         cls "text-4xl font-bold"]
        [Text (displayed_price isYearly tier)];
      el "span" "text-muted-foreground" [Text "/"; Text (period tier)]]
     ++ when_true isYearly billed_annually).

Definition tier_card (isYearly : bool) (index : nat)
    (tier : PricingTierWithToggle) : node bool :=
  Elem "motion.div" [key index; ("variants", Val staggerItem)]
    [el "Card"
       ("relative h-full border-2 transition-all hover:shadow-lg "
        ++ (if is_popular tier then "border-primary shadow-xl scale-105"
            else "border-border hover:border-primary/50"))
       (when_true (is_popular tier)
          (el "div" "absolute -top-4 left-1/2 -translate-x-1/2"
             [el "Badge" "bg-primary text-primary-foreground px-4 py-1"
                [Text "Most Popular"]])
        ++ [el "CardHeader" "text-center pb-8 pt-8"
              [el "CardTitle" "text-2xl mb-2" [Text (name tier)];
               price_block isYearly tier;
               el "p" "text-sm text-muted-foreground" [Text (description tier)]];
            el "CardContent" "space-y-6"
              [el "ul" "space-y-3"
                 (imap (fun featureIndex feature =>
                    Elem "li" [key featureIndex; cls "flex items-start gap-3"]
                      [el "Check" "size-5 shrink-0 text-primary mt-0.5" [];
                       el "span" "text-sm" [Text feature]])
                    (features tier));
               Elem "Button"
                 [("asChild", Val (Bool true)); cls "w-full";
                  str "variant" (if is_popular tier then "default" else "outline");
                  str "size" "lg"]
                 [Elem "a" [str "href" (href (cta tier))]
                    [Text (text (cta tier))]]]])].

(** The component at local state [isYearly]; [yearlyDiscount = "Save 20%"]
    among the parameters. *)
Definition PricingSectionToggle (p : PricingSectionToggleProps)
    (isYearly : bool) : node bool :=
  let yearlyDiscount := default "Save 20%" (yearlyDiscount p) in
  el "section" "py-20 sm:py-32 bg-secondary/30"
    [el "div" "container mx-auto px-4"
       [Elem "motion.div"
          [("initial", Val (Obj [("opacity", Num 0); ("y", Num 20)]));
           ("whileInView", Val (Obj [("opacity", Num 1); ("y", Num 0)]));
           ("viewport", Val viewportOptions);
           cls "mx-auto max-w-2xl text-center mb-12"]
          (when_truthy (badge p) (fun b =>
             el "span"
               "inline-flex items-center rounded-full border border-primary/20 bg-primary/10 px-4 py-1.5 text-sm font-medium text-primary mb-4"
               [Text b])
           ++ [el "h2" "text-3xl font-bold tracking-tight sm:text-4xl lg:text-5xl mb-4"
                 [Text (title p)]]
           ++ when_truthy (section_description p) (fun d =>
                el "p" "text-lg text-muted-foreground" [Text d]));
        el "div" "flex items-center justify-center gap-4 mb-12"
          (switch isYearly
           ++ when_true isYearly (discount_badge yearlyDiscount));
        Elem "motion.div"
          [("variants", Val staggerContainer); str "initial" "hidden";
           str "whileInView" "visible"; ("viewport", Val viewportOptions);
           cls "grid gap-8 lg:grid-cols-3"]
          (imap (tier_card isYearly) (pricingTiers p))]].

End WithClassNames.

End Pricing_toggle.

(** ** The words of the specification, as definitions *)

Module Spec.
Import JS Markup.

(** [upper] is a capital letter and [lower] is the same letter in small;
    the capital sigma has two small forms. *)
Definition letter_pair (upper lower : string) : Prop :=
  exists n, capital n = true /\ upper = chr n
            /\ (lower = chr (n + 32) \/ (n = 931%N /\ lower = chr 962)).

Definition same_char_ignoring_case (c d : string) : Prop :=
  c = d \/ letter_pair c d \/ letter_pair d c.

(** Two strings that differ at most in the case of their letters. *)
Definition same_ignoring_case (a b : string) : Prop :=
  Forall2 same_char_ignoring_case (characters a) (characters b).

(** [text] contains [q] case-insensitively: some stretch of the characters
    of [text] is [q] up to the case of its letters. *)
Definition contains_ignoring_case (text q : string) : Prop :=
  exists before mid after,
    characters text = before ++ mid ++ after
    /\ Forall2 same_char_ignoring_case mid (characters q).

(** The question or the answer of [faq] contains the query
    case-insensitively. *)
Definition hit (searchQuery : string) (faq : Faq_searchable.Faq) : Prop :=
  contains_ignoring_case (Faq_searchable.question faq) searchQuery
  \/ contains_ignoring_case (Faq_searchable.answer faq) searchQuery.

(** [kept] holds exactly the elements of [l] that satisfy [P], as often and
    in the order they occur in [l]. *)
Inductive keeps_exactly {A} (P : A -> Prop) : list A -> list A -> Prop :=
| keeps_nil : keeps_exactly P [] []
| keeps_yes x l kept :
    P x -> keeps_exactly P l kept -> keeps_exactly P (x :: l) (x :: kept)
| keeps_no x l kept :
    ~ P x -> keeps_exactly P l kept -> keeps_exactly P (x :: l) kept.

(** The first character of each space-separated word: a character is taken
    when it is not a space and stands at the start of the string or right
    after a space. *)
Fixpoint initials_from (at_word_start : bool) (chars : list string) : string :=
  match chars with
  | [] => EmptyString
  | ch :: rest =>
      if String.eqb ch " " then initials_from true rest
      else if at_word_start then (ch ++ initials_from false rest)%string
      else initials_from false rest
  end.

Definition initials (s : string) : string := initials_from true (characters s).


(** A row of rating stars: five of them, the one at position [i] filled
    exactly when [i < rating]. *)
Definition star_row {S} (row : list (node S)) (rating : number) : Prop :=
  length row = 5%nat
  /\ forall i, (i < 5)%nat ->
       exists star,
         row !! i = Some star
         /\ has_class "fill-yellow-400" star = lt_int (Z.of_nat i) rating
         /\ has_class "fill-muted" star = negb (lt_int (Z.of_nat i) rating).

Definition filled_count {S} (row : list (node S)) : nat :=
  length (List.filter (has_class "fill-yellow-400") row).



(** FaqSection and HeroSection as functions of one optional prop, the
    other props fixed. *)
Definition faq_with_badge (t : string) (d : option string)
    (f : list Faq_section.Faq) (b : option string) : node unit :=
  Faq_section.FaqSection
    {| Faq_section.badge := b; Faq_section.title := t;
       Faq_section.description := d; Faq_section.faqs := f |}.

Definition faq_with_description (b : option string) (t : string)
    (f : list Faq_section.Faq) (d : option string) : node unit :=
  Faq_section.FaqSection
    {| Faq_section.badge := b; Faq_section.title := t;
       Faq_section.description := d; Faq_section.faqs := f |}.

Definition hero_with_badge (t d : string) (c : Hero_section.Cta)
    (s : option Hero_section.Cta) (i : option string) (b : option string)
  : node unit :=
  Hero_section.HeroSection
    {| Hero_section.badge := b; Hero_section.title := t;
       Hero_section.description := d; Hero_section.primaryCta := c;
       Hero_section.secondaryCta := s; Hero_section.image := i |}.


Definition hero_with_image (b : option string) (t d : string)
    (c : Hero_section.Cta) (s : option Hero_section.Cta) (i : option string)
  : node unit :=
  hero_with_badge t d c s i b.

(** [count] filled stars are what an integer rating [r] calls for: [r] of
    them between 0 and 5, all five above, none below. *)
Definition counts_rating (count : nat) (r : Z) : Prop :=
  ((0 <= r <= 5)%Z -> count = Z.to_nat r)
  /\ ((5 < r)%Z -> count = 5%nat)
  /\ ((r < 0)%Z -> count = 0%nat).

(** The number of positions 0..4 that are below the rating. *)
Definition flags (rating : number) : nat :=
  ((if lt_int 0 rating then 1 else 0) + (if lt_int 1 rating then 1 else 0)
   + (if lt_int 2 rating then 1 else 0) + (if lt_int 3 rating then 1 else 0)
   + (if lt_int 4 rating then 1 else 0))%nat.

(** A property of a visible state is absent or has the given value. *)
Definition absent_or (expected : value) (o : option value) : Prop :=
  o = None \/ o = Some expected.

(** An animation variant that goes from transparent to opaque and ends
    with no offset, rotation, blur or scaling left. *)
Definition preset_ok (v : value) : Prop :=
  Animations.state_prop v "hidden" "opacity" = Some (Num 0)
  /\ Animations.state_prop v "visible" "opacity" = Some (Num 1)
  /\ absent_or (Num 0) (Animations.state_prop v "visible" "x")
  /\ absent_or (Num 0) (Animations.state_prop v "visible" "y")
  /\ absent_or (Num 0) (Animations.state_prop v "visible" "rotate")
  /\ absent_or (Str "blur(0px)") (Animations.state_prop v "visible" "filter")
  /\ absent_or (Num 1) (Animations.state_prop v "visible" "scale").

End Spec.

(** ** The local state of the stateful components, as transition systems *)

Module State.
Import JS Markup Eval.

(** The indices the carousel can be at: [useState(0)], then any click
    handler of the tree rendered at the current index. *)
Inductive carousel_reachable (p : Testimonials_carousel.TestimonialsBaseProps)
  : Z -> Prop :=
| carousel_initial : carousel_reachable p 0%Z
| carousel_click i tree h :
    carousel_reachable p i ->
    Testimonials_carousel.TestimonialsSectionCarousel p i = Ok tree ->
    In h (handlers tree) ->
    carousel_reachable p (h i).

(** The states one click leads to: every click handler of the tree
    rendered at the current state, applied to that state. *)
Definition pricing_click (cn : string -> string -> string)
    (p : Pricing_toggle.PricingSectionToggleProps) (isYearly : bool)
  : list bool :=
  (fun h => h isYearly) <$> handlers (Pricing_toggle.PricingSectionToggle cn p isYearly).

End State.

(** ** Sample props, after the usage examples in the sources *)

Module Samples.
Import JS.

Definition navbar : Navbar_centered.NavbarCenteredProps := {|
  Navbar_centered.brandName := "MyBrand";
  Navbar_centered.links :=
    [{| Navbar_centered.label := "About"; Navbar_centered.href := "/about" |};
     {| Navbar_centered.label := "Services"; Navbar_centered.href := "/services" |};
     {| Navbar_centered.label := "Work"; Navbar_centered.href := "/work" |}];
  Navbar_centered.leftLinks := None;
  Navbar_centered.rightLinks := None;
  Navbar_centered.ctaButton := None
|}.

Definition testimonial (who : string) (stars : Q)
  : Testimonials_carousel.Testimonial := {|
  Testimonials_carousel.name := who;
  Testimonials_carousel.role := "CEO";
  Testimonials_carousel.company := "TechCorp";
  Testimonials_carousel.avatar := None;
  Testimonials_carousel.rating := Finite stars;
  Testimonials_carousel.content := "This product transformed our business..."
|}.

Definition carousel : Testimonials_carousel.TestimonialsBaseProps := {|
  Testimonials_carousel.badge := Some "Testimonials";
  Testimonials_carousel.title := "What Our Customers Say";
  Testimonials_carousel.description := None;
  Testimonials_carousel.testimonials :=
    [testimonial "John Doe" 5; testimonial "Alice" 4; testimonial "Bob" 3]
|}.

Definition faqs : list Faq_searchable.Faq :=
  [{| Faq_searchable.question := "How do I reset my password?";
      Faq_searchable.answer := "Click forgot password..." |};
   {| Faq_searchable.question := "What payment methods do you accept?";
      Faq_searchable.answer := "We accept..." |}].

Definition hero_split : Hero_split.HeroSectionSplitProps := {|
  Hero_split.badge := Some "New Feature";
  Hero_split.title := "Build Faster with Our Platform";
  Hero_split.description := "The complete solution for modern developers.";
  Hero_split.primaryCta :=
    {| Hero_split.text := "Get Started"; Hero_split.href := "/signup" |};
  Hero_split.secondaryCta :=
    Some {| Hero_split.text := "Watch Demo"; Hero_split.href := "/demo" |};
  Hero_split.image := Some "/product-screenshot.png";
  Hero_split.imagePosition := Some Hero_split.right
|}.

Definition footer_mega : Footer_mega.FooterMegaProps := {|
  Footer_mega.companyName := "Enterprise Corp";
  Footer_mega.description := Some "Leading provider of business solutions";
  Footer_mega.tagline := Some "Empowering businesses since 2010";
  Footer_mega.columns :=
    [{| Footer_mega.title := "Products";
        Footer_mega.links :=
          [{| Footer_mega.label := "Product A"; Footer_mega.href := "/product-a" |};
           {| Footer_mega.label := "Product B"; Footer_mega.href := "/product-b" |}] |}];
  Footer_mega.socialLinks :=
    Some {| Footer_mega.github := None;
            Footer_mega.twitter := Some "https://twitter.com/enterprise";
            Footer_mega.linkedin := Some "https://linkedin.com/company/enterprise";
            Footer_mega.youtube := None |};
  Footer_mega.contactEmail := Some "info@enterprise.com";
  Footer_mega.address := Some "123 Business St, City, State 12345"
|}.

End Samples.

(** ** Reading props and handlers off a rendered tree *)

Module Events.
Import JS Markup.

(** The prop named [k] of an element. *)
Fixpoint lookup_prop {S} (k : string) (ps : list (string * attr S))
  : option (attr S) :=
  match ps with
  | [] => None
  | (k', a) :: rest => if String.eqb k k' then Some a else lookup_prop k rest
  end.

Definition prop {S} (k : string) (t : node S) : option (attr S) :=
  match t with
  | Elem _ ps _ => lookup_prop k ps
  | Text _ => None
  end.

(** The handlers of one element that take the text of an input. *)
Fixpoint own_input_handlers {S} (ps : list (string * attr S))
  : list (string -> S -> S) :=
  match ps with
  | [] => []
  | (_, InputHandler h) :: rest => h :: own_input_handlers rest
  | _ :: rest => own_input_handlers rest
  end.

Fixpoint input_handlers {S} (t : node S) : list (string -> S -> S) :=
  match t with
  | Text _ => []
  | Elem _ ps cs => own_input_handlers ps ++ flat_map input_handlers cs
  end.

(** The handlers of one element that take a flag. *)
Fixpoint own_bool_handlers {S} (ps : list (string * attr S))
  : list (bool -> S -> S) :=
  match ps with
  | [] => []
  | (_, BoolHandler h) :: rest => h :: own_bool_handlers rest
  | _ :: rest => own_bool_handlers rest
  end.

Fixpoint bool_handlers {S} (t : node S) : list (bool -> S -> S) :=
  match t with
  | Text _ => []
  | Elem _ ps cs => own_bool_handlers ps ++ flat_map bool_handlers cs
  end.

(** The string value of the prop named [k], when it has one. *)
Definition text_prop {S} (k : string) (t : node S) : option string :=
  match prop k t with
  | Some (Val (Str s)) => Some s
  | _ => None
  end.

End Events.

(** ** More of the JavaScript built-ins *)

Module JS_more.
Import JS.

(** [Object.keys(o)]: the property names of an object literal, in the order
    they are written. *)
Definition keys (o : value) : list string :=
  match o with
  | Obj fields => fst <$> fields
  | _ => []
  end.

(** The bytes of a string: its characters, when they are ASCII. *)
Definition chars (s : string) : list ascii := list_ascii_of_string s.

(** [index === n] for an array index and a number: strict equality holds
    when the number is that integer. *)
Definition index_is (index : nat) (n : number) : bool :=
  match n with
  | Finite q => Qeq_bool (inject_Z (Z.of_nat index)) q
  | _ => false
  end.

End JS_more.

(** ** components/sections/variants/faq-twocolumn.tsx: FaqSectionTwoColumn *)

Module Faq_twocolumn.
Import JS Markup Animations.

Record Faq := { question : string; answer : string }.

Record FaqBaseProps := {
  badge : option string;
  title : string;
  description : option string;
  faqs : list Faq
}.




Definition accordion_item {S} (side : string) (index : nat) (faq : Faq)
  : node S :=
  Elem "AccordionItem"
    [key index; str "value" (side ++ "-" ++ index_text index);
     cls "border rounded-lg px-6 bg-card"]
    [el "AccordionTrigger" "text-left hover:no-underline py-4"
       [el "span" "font-semibold" [Text (question faq)]];
     el "AccordionContent" "text-muted-foreground pb-4" [Text (answer faq)]].



End Faq_twocolumn.

(** ** components/sections/variants/faq-categorized.tsx: FaqSectionCategorized *)

Module Faq_categorized.
Import JS Markup Animations.

Record Faq := { question : string; answer : string }.

Record FaqCategory := { name : string; faqs : list Faq }.

Record FaqSectionCategorizedProps := {
  badge : option string;
  title : string;
  description : option string;
  categories : list FaqCategory
}.

(** [categories[0]?.name]. *)
Definition defaultValue (p : FaqSectionCategorizedProps) : option string :=
  name <$> head (categories p).

Definition trigger {S} (category : FaqCategory) : node S :=
  Elem "TabsTrigger"
    [str "key" (name category); str "value" (name category)]
    [Text (name category)].

Definition accordion_item {S} (category : FaqCategory) (index : nat)
    (faq : Faq) : node S :=
  Elem "AccordionItem"
    [key index; str "value" (name category ++ "-" ++ index_text index);
     cls "border rounded-lg px-6 bg-card"]
    [el "AccordionTrigger" "text-left hover:no-underline py-4"
       [el "span" "font-semibold" [Text (question faq)]];
     el "AccordionContent" "text-muted-foreground pb-4" [Text (answer faq)]].

Definition panel {S} (category : FaqCategory) : node S :=
  Elem "TabsContent"
    [str "key" (name category); str "value" (name category)]
    [Elem "Accordion"
       [str "type" "single"; ("collapsible", Val (Bool true)); cls "space-y-4"]
       (imap (accordion_item category) (faqs category))].

Definition FaqSectionCategorized (p : FaqSectionCategorizedProps) : node unit :=
  el "section" "py-20 sm:py-32 bg-secondary/30"
    [el "div" "container mx-auto px-4"
       [Elem "motion.div"
          [("initial", Val (Obj [("opacity", Num 0); ("y", Num 20)]));
           ("whileInView", Val (Obj [("opacity", Num 1); ("y", Num 0)]));
           ("viewport", Val viewportOptions);
           cls "mx-auto max-w-2xl text-center mb-16"]
          (when_truthy (badge p) (fun b =>
             el "span"
               "inline-flex items-center rounded-full border border-primary/20 bg-primary/10 px-4 py-1.5 text-sm font-medium text-primary mb-4"
               [Text b])
           ++ [el "h2" "text-3xl font-bold tracking-tight sm:text-4xl lg:text-5xl mb-4"
                 [Text (title p)]]
           ++ when_truthy (description p) (fun d =>
                el "p" "text-lg text-muted-foreground" [Text d]));
        Elem "motion.div"
          [("variants", Val fadeInUp); str "initial" "hidden";
           str "whileInView" "visible"; ("viewport", Val viewportOptions);
           cls "mx-auto max-w-4xl"]
          [Elem "Tabs"
             [("defaultValue", Val (of_option (defaultValue p))); cls "w-full"]
             (el "TabsList" "w-full justify-start mb-8 flex-wrap h-auto"
                (trigger <$> categories p)
              :: (panel <$> categories p))]]].

End Faq_categorized.

(** ** components/sections/variants/features-bento.tsx: FeaturesSectionBento *)

Module Features_bento.
Import JS JS_more Markup Animations.

(** [icon] is an icon component, kept by its name. *)
Record Feature := { icon : string; title : string; description : string }.

Record FeaturesSectionBentoProps := {
  badge : option string;
  section_title : string;
  section_description : option string;
  features : list Feature;
  featuredIndex : option number
}.

(** [index === featuredIndex], with [featuredIndex = 0] among the
    parameters. *)
Definition isFeatured (p : FeaturesSectionBentoProps) (index : nat) : bool :=
  index_is index (default (Finite 0) (featuredIndex p)).

Definition card (p : FeaturesSectionBentoProps) (index : nat)
    (feature : Feature) : node unit :=
  let featured := isFeatured p index in
  Elem "motion.div"
    [key index; ("variants", Val staggerItem);
     cls (if featured then "sm:col-span-2 lg:col-span-2"
          else "sm:col-span-1 lg:col-span-1")]
    [el "Card"
       ("h-full border-2 transition-all hover:border-primary/50 hover:shadow-lg "
        ++ (if featured then "bg-primary/5" else ""))
       [el "CardContent" (if featured then "p-8" else "p-6")
          [el "div"
             ("mb-4 inline-flex rounded-lg bg-primary/10 "
              ++ (if featured then "p-4" else "p-3"))
             [el (icon feature)
                ("text-primary " ++ (if featured then "size-8" else "size-6"))
                []];
           el "h3"
             ("mb-2 font-semibold " ++ (if featured then "text-2xl" else "text-xl"))
             [Text (title feature)];
           el "p" "text-muted-foreground" [Text (description feature)]]]].

Definition FeaturesSectionBento (p : FeaturesSectionBentoProps) : node unit :=
  el "section" "py-20 sm:py-32"
    [el "div" "container mx-auto px-4"
       [Elem "motion.div"
          [("initial", Val (Obj [("opacity", Num 0); ("y", Num 20)]));
           ("whileInView", Val (Obj [("opacity", Num 1); ("y", Num 0)]));
           ("viewport", Val viewportOptions);
           cls "mx-auto max-w-2xl text-center mb-16"]
          (when_truthy (badge p) (fun b =>
             el "span"
               "inline-flex items-center rounded-full border border-primary/20 bg-primary/10 px-4 py-1.5 text-sm font-medium text-primary mb-4"
               [Text b])
           ++ [el "h2" "text-3xl font-bold tracking-tight sm:text-4xl lg:text-5xl mb-4"
                 [Text (section_title p)]]
           ++ when_truthy (section_description p) (fun d =>
                el "p" "text-lg text-muted-foreground" [Text d]));
        Elem "motion.div"
          [("variants", Val staggerContainer); str "initial" "hidden";
           str "whileInView" "visible"; ("viewport", Val viewportOptions);
           cls "grid gap-6 sm:grid-cols-2 lg:grid-cols-4 auto-rows-fr"]
          (imap (card p) (features p))]].

End Features_bento.

(** ** components/sections/steps-section.tsx: StepsSection *)

Module Steps_section.
Import JS Markup Animations.

(** [icon] is an icon component, kept by its name. *)
Record Step := { icon : string; title : string; description : string }.

Record StepsSectionProps := {
  badge : option string;
  section_title : string;
  section_description : option string;
  steps : list Step;
  alternating : option bool
}.

(** [index % 2 === 0]. *)
Definition isEven (index : nat) : bool := (rem (Z.of_nat index) 2 =? 0)%Z.

(** [alternating && !isEven], with [alternating = true] among the
    parameters. *)
Definition reversed (p : StepsSectionProps) (index : nat) : bool :=
  default true (alternating p) && negb (isEven index).

Definition step_block (p : StepsSectionProps) (index : nat) (step : Step)
  : node unit :=
  let variant := if reversed p index then fadeInRight else fadeInLeft in
  Elem "motion.div"
    [key index; ("variants", Val variant); str "initial" "hidden";
     str "whileInView" "visible"; ("viewport", Val viewportOptions);
     ("transition", Val (member "smooth" transitions));
     cls ("flex flex-col gap-8 "
          ++ (if reversed p index then "md:flex-row-reverse" else "md:flex-row")
          ++ " items-center")]
    [el "div" "relative flex-shrink-0"
       [el "div"
          "flex size-24 items-center justify-center rounded-full bg-primary text-primary-foreground shadow-lg"
          [el (icon step) "size-12" []];
        el "div"
          "absolute -right-2 -top-2 flex size-10 items-center justify-center rounded-full bg-accent text-accent-foreground font-bold shadow-md"
          [Text (index_text (index + 1))]];
     el "div" ("flex-1 " ++ (if reversed p index then "md:text-right" else ""))
       [el "h3" "mb-3 text-2xl font-bold" [Text (title step)];
        el "p" "text-lg text-muted-foreground" [Text (description step)]]].

Definition StepsSection (p : StepsSectionProps) : node unit :=
  el "section" "py-20 sm:py-32 bg-secondary/30"
    [el "div" "container mx-auto px-4"
       [Elem "motion.div"
          [("initial", Val (Obj [("opacity", Num 0); ("y", Num 20)]));
           ("whileInView", Val (Obj [("opacity", Num 1); ("y", Num 0)]));
           ("viewport", Val viewportOptions);
           cls "mx-auto max-w-2xl text-center mb-16"]
          (when_truthy (badge p) (fun b =>
             el "span"
               "inline-flex items-center rounded-full border border-primary/20 bg-primary/10 px-4 py-1.5 text-sm font-medium text-primary mb-4"
               [Text b])
           ++ [el "h2" "text-3xl font-bold tracking-tight sm:text-4xl lg:text-5xl mb-4"
                 [Text (section_title p)]]
           ++ when_truthy (section_description p) (fun d =>
                el "p" "text-lg text-muted-foreground" [Text d]));
        el "div" "mx-auto max-w-5xl space-y-16"
          (imap (step_block p) (steps p))]].

End Steps_section.

(** ** components/sections/variants/pricing-table.tsx: PricingSectionTable *)

Module Pricing_table.
Import JS JS_more Markup Animations Eval.

Record Cta := { text : string; href : string }.

(** A cell of the comparison: [boolean | string]. *)
Inductive cell : Type :=
| Flag (b : bool)
| Label (s : string).

Record PricingFeature := { name : string; tiers : list cell }.

Record PricingSectionTableProps := {
  badge : option string;
  title : string;
  description : option string;
  tierNames : list string;
  prices : list string;
  periods : list string;
  descriptions : list string;
  features : list PricingFeature;
  ctas : list Cta;
  popularTier : option number
}.

(** [index === popularTier]; nothing is strictly equal to an omitted
    [popularTier]. *)
Definition is_popular (p : PricingSectionTableProps) (index : nat) : bool :=
  match popularTier p with
  | Some n => index_is index n
  | None => false
  end.

(** [{list[index]}] as a child: an element outside the array is
    [undefined] and renders nothing. *)
Definition text_at {S} (l : list string) (index : nat) : list (node S) :=
  match l !! index with
  | Some s => [Text s]
  | None => []
  end.

(** The head cell of one tier.  [ctas[index].href] reads a property of
    [ctas[index]], which throws when there is no such element. *)
Definition head_cell (p : PricingSectionTableProps) (index : nat)
    (tier_name : string) : result (node unit) :=
  match ctas p !! index with
  | None => Throw (TypeError "href")
  | Some c =>
      Ok (Elem "th" [key index; cls "p-4 text-center"]
        [el "div"
           ("relative p-6 rounded-t-xl "
            ++ (if is_popular p index
                then "bg-primary/5 border-2 border-b-0 border-primary" else ""))
           (when_true (is_popular p index)
              (el "Badge" "absolute -top-3 left-1/2 -translate-x-1/2 bg-primary"
                 [Text "Popular"])
            ++ [el "div" "font-bold text-xl mb-2" [Text tier_name];
                el "div" "text-3xl font-bold mb-1" (text_at (prices p) index);
                el "div" "text-sm text-muted-foreground mb-2"
                  (Text "/" :: text_at (periods p) index);
                el "div" "text-sm text-muted-foreground mb-4"
                  (text_at (descriptions p) index);
                Elem "Button"
                  [("asChild", Val (Bool true)); cls "w-full";
                   str "variant"
                     (if is_popular p index then "default" else "outline")]
                  [Elem "a" [str "href" (href c)] [Text (text c)]]])])
  end.

(** [typeof value === "boolean" ? (value ? check : cross) : text]. *)
Definition cell_content {S} (value : cell) : node S :=
  match value with
  | Flag true => el "Check" "size-5 text-primary mx-auto" []
  | Flag false => el "X" "size-5 text-muted mx-auto" []
  | Label s => el "span" "text-sm" [Text s]
  end.

Definition body_cell (p : PricingSectionTableProps) (tierIndex : nat)
    (value : cell) : node unit :=
  Elem "td"
    [key tierIndex;
     cls ("p-4 text-center "
          ++ (if is_popular p tierIndex
              then "bg-primary/5 border-x-2 border-primary" else ""))]
    [cell_content value].

Definition body_row (p : PricingSectionTableProps) (featureIndex : nat)
    (feature : PricingFeature) : node unit :=
  Elem "tr" [key featureIndex; cls "border-t"]
    (el "td" "p-4 font-medium" [Text (name feature)]
     :: imap (body_cell p) (tiers feature)).

Definition PricingSectionTable (p : PricingSectionTableProps)
  : result (node unit) :=
  head_cells ← sequence (imap (head_cell p) (tierNames p));
  Ok (el "section" "py-20 sm:py-32"
    [el "div" "container mx-auto px-4"
       [Elem "motion.div"
          [("initial", Val (Obj [("opacity", Num 0); ("y", Num 20)]));
           ("whileInView", Val (Obj [("opacity", Num 1); ("y", Num 0)]));
           ("viewport", Val viewportOptions);
           cls "mx-auto max-w-2xl text-center mb-16"]
          (when_truthy (badge p) (fun b =>
             el "span"
               "inline-flex items-center rounded-full border border-primary/20 bg-primary/10 px-4 py-1.5 text-sm font-medium text-primary mb-4"
               [Text b])
           ++ [el "h2" "text-3xl font-bold tracking-tight sm:text-4xl lg:text-5xl mb-4"
                 [Text (title p)]]
           ++ when_truthy (description p) (fun d =>
                el "p" "text-lg text-muted-foreground" [Text d]));
        el "div" "overflow-x-auto"
          [el "table" "w-full border-collapse"
             [Elem "thead" []
                [Elem "tr" []
                   (el "th" "p-4 text-left w-1/3" [] :: head_cells)];
              Elem "tbody" [] (imap (body_row p) (features p))]]]]).

End Pricing_table.

(** ** components/sections/variants/navbar-megamenu.tsx: NavbarMegaMenu *)

Module Navbar_megamenu.
Import JS Markup Eval.

Record NavLink := { label : string; href : string }.

Record MegaMenuColumn := { title : string; links : list NavLink }.

Record MegaMenuItem := { item_label : string; columns : list MegaMenuColumn }.

Record Cta := { text : string; cta_href : string }.

Record NavbarMegaMenuProps := {
  brandName : string;
  menuItems : list MegaMenuItem;
  simpleLinks : option (list NavLink);
  ctaButton : option Cta
}.

(** The import statements of the file: [useState], [Button], the three
    sheet components and the [Menu] icon. *)
Definition imports : scope := {|
  components := ["Button"; "Sheet"; "SheetContent"; "SheetTrigger"; "Menu"];
  data := []
|}.

(** The bindings the file would have with the navigation-menu components
    imported too. *)
Definition imports_with_navigation_menu : scope := {|
  components :=
    components imports
    ++ ["NavigationMenu"; "NavigationMenuList"; "NavigationMenuItem";
        "NavigationMenuTrigger"; "NavigationMenuContent"; "NavigationMenuLink"];
  data := []
|}.

Definition menu_link (sc : scope) (linkIndex : nat) (link : NavLink)
  : result (node bool) :=
  jsx (html "li") [lit (key linkIndex)]
    [child (jsx (component sc "NavigationMenuLink")
       [lit ("asChild", Val (Bool true))]
       [child (jsx (html "a")
          [lit (str "href" (href link));
           lit (cls "block text-sm text-muted-foreground hover:text-primary transition-colors")]
          [txt (label link)])])].

Definition menu_column (sc : scope) (colIndex : nat) (column : MegaMenuColumn)
  : result (node bool) :=
  jsx (html "div") [lit (key colIndex); lit (cls "space-y-3")]
    [child (jsx (html "h4") [lit (cls "text-sm font-semibold")]
       [txt (title column)]);
     child (jsx (html "ul") [lit (cls "space-y-2")]
       [each (links column) (menu_link sc)])].

Definition menu_item (sc : scope) (index : nat) (item : MegaMenuItem)
  : result (node bool) :=
  jsx (component sc "NavigationMenuItem") [lit (key index)]
    [child (jsx (component sc "NavigationMenuTrigger")
       [lit (cls "text-sm font-medium")] [txt (item_label item)]);
     child (jsx (component sc "NavigationMenuContent") []
       [child (jsx (html "div")
          [lit (cls "grid gap-6 p-6 w-[600px] grid-cols-2")]
          [each (columns item) (menu_column sc)])])].

Definition simple_item (sc : scope) (index : nat) (link : NavLink)
  : result (node bool) :=
  jsx (component sc "NavigationMenuItem")
    [lit (str "key" ("simple-" ++ index_text index))]
    [child (jsx (component sc "NavigationMenuLink")
       [lit ("asChild", Val (Bool true))]
       [child (jsx (html "a")
          [lit (str "href" (href link));
           lit (cls "text-sm font-medium text-muted-foreground transition-colors hover:text-primary px-4 py-2")]
          [txt (label link)])])].

(** The links of one column in the mobile sheet. *)
Definition mobile_column_links (colIndex : nat) (column : MegaMenuColumn)
  : list (node bool) :=
  imap (fun linkIndex link =>
    Elem "a"
      [str "key" (index_text colIndex ++ "-" ++ index_text linkIndex);
       str "href" (href link);
       ("onClick", Handler (fun _ => false));
       cls "block text-sm pl-4 text-muted-foreground transition-colors hover:text-primary"]
      [Text (label link)])
    (links column).

Definition mobile_item (itemIndex : nat) (item : MegaMenuItem) : node bool :=
  Elem "div" [key itemIndex; cls "space-y-2"]
    (el "div" "font-semibold text-foreground" [Text (item_label item)]
     :: concat (imap mobile_column_links (columns item))).

Definition mobile_simple_link (index : nat) (link : NavLink) : node bool :=
  Elem "a"
    [key index; str "href" (href link);
     ("onClick", Handler (fun _ => false));
     cls "text-lg font-medium text-muted-foreground transition-colors hover:text-primary"]
    [Text (label link)].

(** The body of the component at local state [isOpen], over the bindings
    [sc] of its module; [simpleLinks = []] among the parameters. *)
Definition NavbarMegaMenu_in (sc : scope) (p : NavbarMegaMenuProps)
    (isOpen : bool) : result (node bool) :=
  let simpleLinks := default [] (simpleLinks p) in
  jsx (html "header")
    [lit (cls "sticky top-0 z-50 w-full border-b bg-background/95 backdrop-blur supports-[backdrop-filter]:bg-background/60")]
    [child (jsx (html "nav")
       [lit (cls "container mx-auto flex h-16 items-center justify-between px-4")]
       [child (jsx (html "a")
          [lit (str "href" "/"); lit (cls "flex items-center space-x-2")]
          [child (jsx (html "span") [lit (cls "text-xl font-bold")]
             [txt (brandName p)])]);
        child (jsx (html "div")
          [lit (cls "hidden md:flex md:items-center md:gap-6")]
          [child (jsx (component sc "NavigationMenu") []
             [child (jsx (component sc "NavigationMenuList") []
                [each (menuItems p) (menu_item sc);
                 each simpleLinks (simple_item sc)])]);
           and_given (ctaButton p) (fun c =>
             jsx (component sc "Button") [lit ("asChild", Val (Bool true))]
               [child (jsx (html "a") [lit (str "href" (cta_href c))]
                  [txt (text c)])])]);
        child (jsx (component sc "Sheet")
          [lit ("open", Val (Bool isOpen));
           lit ("onOpenChange", BoolHandler (fun b _ => b))]
          [child (jsx (component sc "SheetTrigger")
             [lit ("asChild", Val (Bool true)); lit (cls "md:hidden")]
             [child (jsx (component sc "Button")
                [lit (str "variant" "ghost"); lit (str "size" "icon")]
                [child (jsx (component sc "Menu") [lit (cls "size-5")] []);
                 child (jsx (html "span") [lit (cls "sr-only")]
                   [txt "Toggle menu"])])]);
           child (jsx (component sc "SheetContent")
             [lit (str "side" "right"); lit (cls "w-[300px] sm:w-[400px]")]
             [child (jsx (html "nav")
                [lit (cls "flex flex-col gap-4 mt-8 px-2")]
                [Ok (imap mobile_item (menuItems p));
                 Ok (imap mobile_simple_link simpleLinks);
                 and_given (ctaButton p) (fun c =>
                   jsx (component sc "Button")
                     [lit ("asChild", Val (Bool true)); lit (cls "mt-4")]
                     [child (jsx (html "a")
                        [lit (str "href" (cta_href c));
                         lit ("onClick", Handler (fun _ => false))]
                        [txt (text c)])])])])])])].

Definition NavbarMegaMenu : NavbarMegaMenuProps -> bool -> result (node bool) :=
  NavbarMegaMenu_in imports.

End Navbar_megamenu.

(** ** footer-mega.tsx: the elements its helpers evaluate to

    The values of [social_button] and [link_column] once every name is
    resolved, and the networks whose button is shown. *)

Module Footer_mega_output.
Import JS Markup Eval Footer_mega.

(** The networks of [s] that have a non-empty address, by the label of
    their button. *)
Definition networks (s : SocialLinks) : list string :=
  fst <$> List.filter (fun network => truthy (snd network))
            [("GitHub", github s); ("Twitter", twitter s);
             ("LinkedIn", linkedin s); ("YouTube", youtube s)].

Definition social_button_tree (url aria icon : string) : node unit :=
  Elem "Button"
    [str "variant" "ghost"; str "size" "icon"; ("asChild", Val (Bool true))]
    [Elem "a"
       [str "href" url; str "target" "_blank"; str "rel" "noopener noreferrer";
        str "aria-label" aria]
       [el icon "size-5" []]].

Definition column_tree (index : nat) (column : FooterColumn) : node unit :=
  Elem "div" [key index]
    [el "h4" "font-semibold mb-4 text-sm uppercase tracking-wider"
       [Text (title column)];
     el "ul" "space-y-3"
       (imap (fun linkIndex link =>
          Elem "li" [key linkIndex]
            [Elem "a"
               [str "href" (href link);
                cls "text-sm text-muted-foreground hover:text-primary transition-colors"]
               [Text (label link)]])
          (links column))].

End Footer_mega_output.

(** ** Further sample props *)

Module More_samples.
Import JS.

Definition reviewer (who : string) : Testimonials_section.Testimonial := {|
  Testimonials_section.name := who;
  Testimonials_section.role := "CEO";
  Testimonials_section.company := "TechCorp";
  Testimonials_section.avatar := None;
  Testimonials_section.rating := Finite 5;
  Testimonials_section.content := "This product transformed our business..."
|}.

Definition steps : Steps_section.StepsSectionProps := {|
  Steps_section.badge := Some "How it works";
  Steps_section.section_title := "Three simple steps";
  Steps_section.section_description := None;
  Steps_section.steps :=
    [{| Steps_section.icon := "UserPlus"; Steps_section.title := "Sign up";
        Steps_section.description := "Create your account" |};
     {| Steps_section.icon := "Settings"; Steps_section.title := "Configure";
        Steps_section.description := "Set up your workspace" |};
     {| Steps_section.icon := "Rocket"; Steps_section.title := "Launch";
        Steps_section.description := "Go live" |}];
  Steps_section.alternating := None
|}.

(** The sample footer without its contact e-mail. *)
Definition footer_without_email : Footer_mega.FooterMegaProps := {|
  Footer_mega.companyName := Footer_mega.companyName Samples.footer_mega;
  Footer_mega.description := Footer_mega.description Samples.footer_mega;
  Footer_mega.tagline := Footer_mega.tagline Samples.footer_mega;
  Footer_mega.columns := Footer_mega.columns Samples.footer_mega;
  Footer_mega.socialLinks := Footer_mega.socialLinks Samples.footer_mega;
  Footer_mega.contactEmail := None;
  Footer_mega.address := Footer_mega.address Samples.footer_mega
|}.

(** The props of the usage example of PricingSectionTable. *)
Definition pricing_table : Pricing_table.PricingSectionTableProps := {|
  Pricing_table.badge := None;
  Pricing_table.title := "Compare Plans";
  Pricing_table.description := None;
  Pricing_table.tierNames := ["Basic"; "Pro"; "Enterprise"];
  Pricing_table.prices := ["$10"; "$29"; "$99"];
  Pricing_table.periods := ["month"; "month"; "month"];
  Pricing_table.descriptions :=
    ["For individuals"; "For teams"; "For companies"];
  Pricing_table.features :=
    [{| Pricing_table.name := "Storage";
        Pricing_table.tiers :=
          [Pricing_table.Label "5 GB"; Pricing_table.Label "50 GB";
           Pricing_table.Label "Unlimited"] |};
     {| Pricing_table.name := "Users";
        Pricing_table.tiers :=
          [Pricing_table.Label "1"; Pricing_table.Label "10";
           Pricing_table.Label "Unlimited"] |};
     {| Pricing_table.name := "Support";
        Pricing_table.tiers :=
          [Pricing_table.Flag false; Pricing_table.Flag true;
           Pricing_table.Flag true] |}];
  Pricing_table.ctas :=
    [{| Pricing_table.text := "Get Started"; Pricing_table.href := "/signup" |};
     {| Pricing_table.text := "Get Started"; Pricing_table.href := "/signup" |};
     {| Pricing_table.text := "Contact Sales"; Pricing_table.href := "/contact" |}];
  Pricing_table.popularTier := Some (Finite 1)
|}.

(** A grid of testimonials with one review. *)
Definition reviews (who : string)
  : Testimonials_section.TestimonialsSectionProps := {|
  Testimonials_section.badge := None;
  Testimonials_section.title := "What Our Customers Say";
  Testimonials_section.description := None;
  Testimonials_section.testimonials := [reviewer who]
|}.

(** The sample FAQs as the props of the searchable section. *)
Definition faq_search : Faq_searchable.FaqBaseProps := {|
  Faq_searchable.badge := Some "FAQ";
  Faq_searchable.title := "How can we help?";
  Faq_searchable.description := None;
  Faq_searchable.faqs := Samples.faqs
|}.

End More_samples.

(** * Properties *)

(** ** Strings *)

Section StringFacts.
Import JS.

Lemma lower_ascii_app (a b : string) :
  lower_ascii (a ++ b) = (lower_ascii a ++ lower_ascii b)%string.
Proof.
  induction a as [|c a IH]; simpl; [reflexivity | now rewrite IH].
Qed.

Lemma lower_ascii_split (s x y : string) :
  lower_ascii s = (x ++ y)%string ->
  exists s1 s2, s = (s1 ++ s2)%string /\ lower_ascii s1 = x /\ lower_ascii s2 = y.
Proof.
  revert s. induction x as [|c x IH]; intros s H.
  - exists EmptyString, s. auto.
  - destruct s as [|d s]; simpl in H; [discriminate|].
    injection H as Hc Hs. destruct (IH _ Hs) as (s1 & s2 & -> & H1 & H2).
    exists (String d s1), s2. simpl. rewrite H1, Hc. auto.
Qed.

Lemma prefix_app (q s : string) :
  String.prefix q s = true <-> exists rest, s = (q ++ rest)%string.
Proof.
  revert s. induction q as [|c q IH]; intros s.
  - split; [intros _; exists s; reflexivity | now destruct s].
  - destruct s as [|d s]; simpl.
    + split; [discriminate | intros [r Hr]; discriminate].
    + destruct (ascii_dec c d) as [->|Hne].
      * rewrite IH. split; intros [r Hr]; exists r; [now rewrite Hr | now injection Hr].
      * split; [discriminate | intros [r Hr]; injection Hr; congruence].
Qed.

Lemma includes_occurs (s q : string) :
  includes s q = true <->
  exists before after, s = (before ++ q ++ after)%string.
Proof.
  induction s as [|c s IH]; cbn [includes].
  - rewrite orb_false_r. split.
    + intros H. apply prefix_app in H. destruct H as [r Hr].
      exists EmptyString, r. exact Hr.
    + intros (b & a & H). destruct b; simpl in H.
      * apply prefix_app. eauto.
      * discriminate.
  - rewrite orb_true_iff, IH. split.
    + intros [H | (b & a & ->)].
      * apply prefix_app in H. destruct H as [r Hr].
        exists EmptyString, r. exact Hr.
      * exists (String c b), a. reflexivity.
    + intros (b & a & H). destruct b as [|c' b]; simpl in H.
      * left. apply prefix_app. eauto.
      * injection H as -> ->. right. eauto.
Qed.

Lemma includes_empty (s : string) : includes s EmptyString = true.
Proof. destruct s; reflexivity. Qed.

Lemma append_assoc (a b c : string) :
  ((a ++ b) ++ c = a ++ b ++ c)%string.
Proof. induction a as [|x a IH]; simpl; [reflexivity | now rewrite IH]. Qed.

Lemma ascii_only_cons (c : ascii) (s : string) :
  ascii_only (String c s) = (byte c <? 128)%N && ascii_only s.
Proof. reflexivity. Qed.

Lemma ascii_only_app (a b : string) :
  ascii_only (a ++ b) = ascii_only a && ascii_only b.
Proof.
  induction a as [|c a IH]; [reflexivity|].
  cbn [String.append]. rewrite !ascii_only_cons, IH. apply andb_assoc.
Qed.

Lemma characters_cons_ascii (c : ascii) (s : string) :
  (byte c <? 128)%N = true ->
  characters (String c s) = String c EmptyString :: characters s.
Proof. intros H. cbn [characters]. now rewrite H. Qed.

Lemma characters_app_ascii (a b : string) :
  ascii_only a = true -> characters (a ++ b) = characters a ++ characters b.
Proof.
  induction a as [|c a IH]; intros H; [reflexivity|].
  rewrite ascii_only_cons in H. apply andb_true_iff in H. destruct H as [Hc Ha].
  cbn [String.append]. rewrite !characters_cons_ascii by exact Hc.
  now rewrite IH.
Qed.

Lemma characters_split_ascii (s : string) (l1 l2 : list string) :
  ascii_only s = true -> characters s = l1 ++ l2 ->
  exists s1 s2, s = (s1 ++ s2)%string /\ characters s1 = l1 /\ characters s2 = l2.
Proof.
  revert s. induction l1 as [|ch l1 IH]; intros s Hs H.
  - exists EmptyString, s. auto.
  - destruct s as [|c s]; [discriminate|].
    rewrite ascii_only_cons in Hs. apply andb_true_iff in Hs.
    destruct Hs as [Hc Hs].
    rewrite characters_cons_ascii in H by exact Hc.
    injection H as <- H. destruct (IH s Hs H) as (s1 & s2 & -> & H1 & H2).
    exists (String c s1), s2. split; [reflexivity|].
    split; [|exact H2]. rewrite characters_cons_ascii by exact Hc.
    now rewrite H1.
Qed.

Lemma capital_ascii (n : N) :
  (n < 128)%N -> capital n = (65 <=? n)%N && (n <=? 90)%N.
Proof.
  intros Hn. unfold capital.
  replace (192 <=? n)%N with false by (symmetry; apply N.leb_gt; lia).
  replace (913 <=? n)%N with false by (symmetry; apply N.leb_gt; lia).
  cbn [andb]. now rewrite !orb_false_r.
Qed.

Lemma chr_lower_ascii (c : ascii) :
  (byte c <? 128)%N = true ->
  chr (lower_point (byte c)) = String (lower_char c) EmptyString.
Proof.
  intros Hc. apply N.ltb_lt in Hc. unfold lower_point, lower_char.
  rewrite capital_ascii by exact Hc.
  destruct ((65 <=? byte c)%N && (byte c <=? 90)%N) eqn:E; unfold chr.
  - apply andb_true_iff in E. destruct E as [_ E]. apply N.leb_le in E.
    replace (byte c + 32 <? 128)%N with true
      by (symmetry; apply N.ltb_lt; lia).
    reflexivity.
  - replace (byte c <? 128)%N with true by (symmetry; now apply N.ltb_lt).
    unfold byte. now rewrite ascii_N_embedding.
Qed.

Lemma lower_from_ascii (after_cased : bool) (s : string) :
  ascii_only s = true ->
  join_empty (lower_from after_cased (characters s)) = lower_ascii s.
Proof.
  revert after_cased. induction s as [|c s IH]; intros st H; [reflexivity|].
  rewrite ascii_only_cons in H. apply andb_true_iff in H. destruct H as [Hc Hs].
  rewrite characters_cons_ascii by exact Hc.
  cbn [lower_from point]. rewrite Hc.
  replace (byte c =? 931)%N with false
    by (symmetry; apply N.eqb_neq; apply N.ltb_lt in Hc; lia).
  cbn [join_empty fold_right]. rewrite chr_lower_ascii by exact Hc.
  change (join_empty ?l) with (fold_right String.append EmptyString l) in IH.
  rewrite IH by exact Hs. reflexivity.
Qed.

(** On an ASCII string [toLowerCase] works byte by byte. *)
Lemma toLowerCase_ascii (s : string) :
  ascii_only s = true -> toLowerCase s = lower_ascii s.
Proof. apply lower_from_ascii. Qed.

End StringFacts.

Section CaseFacts.
Import JS Spec.

Lemma same_char_ascii (c d : ascii) :
  (byte c <? 128)%N = true -> (byte d <? 128)%N = true ->
  same_char_ignoring_case (String c EmptyString) (String d EmptyString)
  <-> lower_char c = lower_char d.
Proof.
  intros Hc Hd. apply N.ltb_lt in Hc. apply N.ltb_lt in Hd.
  assert (pair_lower : forall x y : ascii,
            letter_pair (String x EmptyString) (String y EmptyString) ->
            lower_char x = lower_char y).
  { intros x y (n & Hn & Hx & Hy). unfold chr in Hx.
    destruct (N.ltb_spec n 128) as [Hlt | Hge]; [|discriminate Hx].
    rewrite capital_ascii in Hn by exact Hlt.
    apply andb_true_iff in Hn. destruct Hn as [H1 H2].
    apply N.leb_le in H1. apply N.leb_le in H2.
    destruct Hy as [Hy | [Hy _]]; [|lia].
    unfold chr in Hy.
    replace (n + 32 <? 128)%N with true in Hy
      by (symmetry; apply N.ltb_lt; lia).
    injection Hx as ->. injection Hy as ->.
    unfold lower_char, byte. rewrite !N_ascii_embedding by lia.
    replace ((65 <=? n)%N && (n <=? 90)%N) with true
      by (symmetry; apply andb_true_iff; split; apply N.leb_le; lia).
    replace ((65 <=? n + 32)%N && (n + 32 <=? 90)%N) with false
      by (symmetry; apply andb_false_iff; right; apply N.leb_gt; lia).
    reflexivity. }
  assert (lower_pair : forall x y : ascii,
            (65 <= byte x <= 90)%N -> y = ascii_of_N (byte x + 32) ->
            letter_pair (String x EmptyString) (String y EmptyString)).
  { intros x y Hx ->. exists (byte x). split; [|split].
    - rewrite capital_ascii by lia. apply andb_true_iff.
      split; apply N.leb_le; lia.
    - unfold chr. replace (byte x <? 128)%N with true
        by (symmetry; apply N.ltb_lt; lia).
      unfold byte. now rewrite ascii_N_embedding.
    - left. unfold chr. replace (byte x + 32 <? 128)%N with true
        by (symmetry; apply N.ltb_lt; lia).
      reflexivity. }
  split.
  - intros [H | [H | H]].
    + now injection H as ->.
    + now apply pair_lower.
    + symmetry. now apply pair_lower.
  - unfold lower_char.
    destruct ((65 <=? byte c)%N && (byte c <=? 90)%N) eqn:Uc;
      destruct ((65 <=? byte d)%N && (byte d <=? 90)%N) eqn:Ud; intros H;
      try (apply andb_true_iff in Uc; destruct Uc as [U1 U2];
           apply N.leb_le in U1; apply N.leb_le in U2);
      try (apply andb_true_iff in Ud; destruct Ud as [V1 V2];
           apply N.leb_le in V1; apply N.leb_le in V2).
    + left. apply (f_equal N_of_ascii) in H.
      rewrite !N_ascii_embedding in H by lia.
      assert (E : byte c = byte d) by lia. unfold byte in E.
      apply (f_equal ascii_of_N) in E. rewrite !ascii_N_embedding in E.
      now rewrite E.
    + right. left. apply lower_pair; [lia | now symmetry].
    + right. right. apply lower_pair; [lia | exact H].
    + left. now rewrite H.
Qed.

Lemma same_ascii (a b : string) :
  ascii_only a = true -> ascii_only b = true ->
  Forall2 same_char_ignoring_case (characters a) (characters b)
  <-> lower_ascii a = lower_ascii b.
Proof.
  revert b. induction a as [|c a IH]; intros [|d b] Ha Hb;
    try (rewrite ascii_only_cons in Ha; apply andb_true_iff in Ha;
         destruct Ha as [Hc Ha]);
    try (rewrite ascii_only_cons in Hb; apply andb_true_iff in Hb;
         destruct Hb as [Hd Hb]);
    rewrite ?characters_cons_ascii by assumption.
  - split; [reflexivity | constructor].
  - split; [intros H; inversion H | discriminate].
  - split; [intros H; inversion H | discriminate].
  - cbn [lower_ascii]. split.
    + intros H. inversion H as [|? ? ? ? Hcd Hrest]; subst.
      apply same_char_ascii in Hcd; [|assumption..].
      apply IH in Hrest; [|assumption..]. now rewrite Hcd, Hrest.
    + intros H. injection H as Hcd Hrest. constructor.
      * now apply same_char_ascii.
      * now apply IH.
Qed.

(** On ASCII text, comparing the lower-cased strings is containment up to
    the case of the letters. *)
Lemma includes_ignoring_case (text q : string) :
  ascii_only text = true -> ascii_only q = true ->
  includes (toLowerCase text) (toLowerCase q) = true <->
  contains_ignoring_case text q.
Proof.
  intros Ht Hq. rewrite !toLowerCase_ascii by assumption.
  rewrite includes_occurs. split.
  - intros (b & a & H).
    apply lower_ascii_split in H. destruct H as (s1 & s23 & -> & <- & H).
    apply lower_ascii_split in H. destruct H as (s2 & s3 & -> & H2 & _).
    rewrite !ascii_only_app in Ht.
    apply andb_true_iff in Ht. destruct Ht as [H1 Ht].
    apply andb_true_iff in Ht. destruct Ht as [H2' H3].
    exists (characters s1), (characters s2), (characters s3). split.
    + now rewrite !characters_app_ascii.
    + now apply same_ascii.
  - intros (b & m & a & H & Hm).
    apply characters_split_ascii in H; [|exact Ht].
    destruct H as (s1 & s23 & -> & <- & H).
    rewrite ascii_only_app in Ht.
    apply andb_true_iff in Ht. destruct Ht as [H1 Ht].
    apply characters_split_ascii in H; [|exact Ht].
    destruct H as (s2 & s3 & -> & <- & <-).
    rewrite ascii_only_app in Ht.
    apply andb_true_iff in Ht. destruct Ht as [H2 H3].
    apply same_ascii in Hm; [|assumption..].
    exists (lower_ascii s1), (lower_ascii s3).
    now rewrite !lower_ascii_app, Hm.
Qed.

Lemma includes_app_l (s a b : string) :
  includes s (a ++ b) = true -> includes s a = true.
Proof.
  rewrite !includes_occurs. intros (x & y & ->).
  exists x, (b ++ y)%string.
  f_equal. induction a as [|c a IH]; simpl; [reflexivity | now rewrite IH].
Qed.

End CaseFacts.

(** ** Lists *)

Section ListFacts.
Context {A : Type}.

Lemma filter_sublist (f : A -> bool) (l : list A) :
  sublist (List.filter f l) l.
Proof.
  induction l as [|x l IH]; simpl; [constructor|].
  destruct (f x); now constructor.
Qed.

Lemma filter_sublist_weaker (f g : A -> bool) (l : list A) :
  (forall x, f x = true -> g x = true) ->
  sublist (List.filter f l) (List.filter g l).
Proof.
  intros Hfg. induction l as [|x l IH]; simpl; [constructor|].
  destruct (f x) eqn:Hf.
  - rewrite (Hfg x Hf). now constructor.
  - destruct (g x); [now constructor | exact IH].
Qed.

Lemma filter_keeps_exactly (f : A -> bool) (l : list A) :
  Spec.keeps_exactly (fun x => f x = true) l (List.filter f l).
Proof.
  induction l as [|x l IH]; simpl; [constructor|].
  destruct (f x) eqn:Hf; constructor; auto. congruence.
Qed.

Lemma keeps_exactly_iff (P Q : A -> Prop) (l kept : list A) :
  (forall x, P x <-> Q x) ->
  Spec.keeps_exactly P l kept -> Spec.keeps_exactly Q l kept.
Proof.
  intros HPQ. induction 1; constructor; auto; now rewrite <- HPQ.
Qed.

Lemma filter_all (f : A -> bool) (l : list A) :
  (forall x, f x = true) -> List.filter f l = l.
Proof.
  intros Hf. induction l as [|x l IH]; simpl; [reflexivity|].
  now rewrite Hf, IH.
Qed.

Lemma filter_nil_iff (f : A -> bool) (l : list A) :
  List.filter f l = [] <-> ~ Exists (fun x => f x = true) l.
Proof.
  induction l as [|x l IH]; simpl.
  - split; [intros _ H; inversion H | reflexivity].
  - destruct (f x) eqn:Hf.
    + split; [discriminate | intros H; exfalso; apply H; now left].
    + rewrite IH. split; intros H E.
      * inversion E; subst; [congruence | auto].
      * apply H. now right.
Qed.

End ListFacts.

(** ** FaqSectionSearchable: the search filter *)

Section FaqSearch.
Import JS Markup Spec Faq_searchable.

Lemma matches_hit (searchQuery : string) (faq : Faq) :
  ascii_only searchQuery = true ->
  ascii_only (question faq) = true -> ascii_only (answer faq) = true ->
  matches searchQuery faq = true <-> hit searchQuery faq.
Proof.
  intros Hq Hquestion Hanswer. unfold matches, hit.
  now rewrite orb_true_iff, !includes_ignoring_case.
Qed.

Lemma keeps_exactly_ext {A} (P Q : A -> Prop) (l kept : list A) :
  Forall (fun x => P x <-> Q x) l ->
  keeps_exactly P l kept -> keeps_exactly Q l kept.
Proof.
  intros HPQ H. induction H as [|x l kept Hx _ IH|x l kept Hx _ IH];
    [constructor | |]; inversion HPQ as [|? ? Hhead Htail]; subst.
  - apply keeps_yes; [now apply Hhead | now apply IH].
  - apply keeps_no; [now rewrite <- Hhead | now apply IH].
Qed.

(** C2, at a search string with a capital sigma.  The question [ασα]
    contains the search string [ΑΣ] case-insensitively: its first two
    letters are the small forms of the two capitals, so that [ασ] and [ΑΣ]
    are the same search string up to case.  The component finds that FAQ
    for the search string [ασ], but for [ΑΣ] it shows the
    "no results" message: [toLowerCase] turns a capital sigma at the end of
    a word into the final small sigma, and [ας] does not occur in [ασα]. *)
Theorem faq_search_misses_capital_sigma :
  let faq := {| question := "ασα"; answer := "Sigma" |} in
  let p := {| badge := None; title := "FAQ"; description := None;
              faqs := [faq] |} in
  in_tables "ασα" = true /\ in_tables "ΑΣ" = true
  /\ hit "ΑΣ" faq
  /\ same_ignoring_case "ασ" "ΑΣ"
  /\ toLowerCase "ΑΣ" = "ας"
  /\ filteredFaqs (faqs p) "ΑΣ" = []
  /\ node_at [0; 2; 0] (FaqSectionSearchable p "ΑΣ")
     = Some (el "div" "text-center py-12"
               [el "p" "text-muted-foreground text-lg"
                  [Text ("No results found for " ++ dquote); Text "ΑΣ";
                   Text dquote];
                el "p" "text-sm text-muted-foreground mt-2"
                  [Text "Try searching with different keywords"]])
  /\ filteredFaqs (faqs p) "ασ" = [faq].
Proof.
  intros faq p.
  assert (Hsame : Forall2 same_char_ignoring_case ["α"; "σ"] ["Α"; "Σ"]).
  { constructor; [|constructor; [|constructor]]; right; right.
    - exists 913%N. split; [reflexivity|]. split; [reflexivity|].
      left. reflexivity.
    - exists 931%N. split; [reflexivity|]. split; [reflexivity|].
      left. reflexivity. }
  split; [reflexivity|]. split; [reflexivity|]. split; [|split].
  - left. exists [], (characters "ασ"), (characters "α").
    split; [reflexivity | exact Hsame].
  - exact Hsame.
  - repeat split.
Qed.

(** C9, at a search string with a capital sigma.  The search string [ΑΣ]
    excludes the FAQ whose question is [ασα], and the longer search string
    [ΑΣΑ], which extends it, brings the FAQ back: the sigma is the last
    letter of the first and lower-cased to its final form, and it is inside
    the word in the second. *)
Theorem faq_filter_longer_query_adds_entry :
  let faq := {| question := "ασα"; answer := "Sigma" |} in
  in_tables "ασα" = true /\ in_tables ("ΑΣ" ++ "Α") = true
  /\ toLowerCase "ΑΣ" = "ας"
  /\ toLowerCase ("ΑΣ" ++ "Α") = "ασα"
  /\ filteredFaqs [faq] "ΑΣ" = []
  /\ filteredFaqs [faq] ("ΑΣ" ++ "Α") = [faq]
  /\ ~ sublist (filteredFaqs [faq] ("ΑΣ" ++ "Α")) (filteredFaqs [faq] "ΑΣ").
Proof.
  intros faq. repeat split.
  intros H. apply sublist_length in H. vm_compute in H. lia.
Qed.

End FaqSearch.

(** ** NavbarCentered: splitting the links *)

Section NavbarSplit.
Import JS Markup Navbar_centered.

Lemma ceil_half_nat (n : nat) : ceil_half n = Z.of_nat ((n + 1) / 2).
Proof.
  unfold ceil_half, Qceiling, Qfloor. cbn -[Nat.div Z.div Z.of_nat Z.mul].
  rewrite Nat2Z.inj_div, Nat2Z.inj_add. change (Z.of_nat 1) with 1%Z.
  change (Z.of_nat 2) with 2%Z. change (Z.pos (1 * 2)) with 2%Z.
  rewrite Z.mul_1_r.
  pose proof (Z.div_mod (- Z.of_nat n) 2 ltac:(lia)).
  pose proof (Z.mod_pos_bound (- Z.of_nat n) 2 ltac:(lia)).
  pose proof (Z.div_mod (Z.of_nat n + 1) 2 ltac:(lia)).
  pose proof (Z.mod_pos_bound (Z.of_nat n + 1) 2 ltac:(lia)).
  lia.
Qed.

Lemma slice_prefix {A} (l : list A) (k : nat) :
  (k <= length l)%nat -> slice l 0 (Some (Z.of_nat k)) = take k l.
Proof.
  intros Hk. unfold slice, rel_index. simpl.
  replace (Z.of_nat k <? 0)%Z with false by (symmetry; apply Z.ltb_ge; lia).
  rewrite Z.min_l, Nat2Z.id by lia.
  rewrite (Z.min_l 0 (Z.of_nat (length l))) by lia.
  change (Z.to_nat 0) with 0%nat. now rewrite Nat.sub_0_r.
Qed.

Lemma slice_suffix {A} (l : list A) (k : nat) :
  (k <= length l)%nat -> slice l (Z.of_nat k) None = drop k l.
Proof.
  intros Hk. unfold slice, rel_index.
  replace (Z.of_nat k <? 0)%Z with false by (symmetry; apply Z.ltb_ge; lia).
  rewrite Z.min_l, Nat2Z.id by lia.
  apply take_ge. rewrite length_drop. lia.
Qed.

(** C3. With [leftLinks] and [rightLinks] omitted, the left group is the
    first ceil(n/2) links, the right group is the remaining floor(n/2)
    links, and the mobile menu, which renders the left group followed by the
    right group, renders the links array itself. *)
Theorem navbar_centered_splits_in_half (p : NavbarCenteredProps) (isOpen : bool) :
  leftLinks p = None -> rightLinks p = None ->
  let n := length (links p) in
  left p = take ((n + 1) / 2) (links p)
  /\ right p = drop ((n + 1) / 2) (links p)
  /\ length (left p) = ((n + 1) / 2)%nat
  /\ length (right p) = (n / 2)%nat
  /\ mobile_links p = links p
  /\ node_at [0; 3; 1; 0] (NavbarCentered p isOpen)
     = Some (el "nav" "flex flex-col gap-4 mt-8 px-2"
               (imap mobile_link (links p)
                ++ when_given (ctaButton p) (fun c =>
                     Elem "Button" [("asChild", Val (Bool true)); cls "mt-4"]
                       [Elem "a"
                          [str "href" (cta_href c);
                           ("onClick", Handler (fun _ => false))]
                          [Text (text c)]]))).
Proof.
  intros HL HR n.
  assert (Hle : ((n + 1) / 2 <= n)%nat).
  { pose proof (Nat.div_mod_eq (n + 1) 2).
    pose proof (Nat.mod_upper_bound (n + 1) 2 ltac:(lia)). lia. }
  assert (Hhalves : (n - (n + 1) / 2 = n / 2)%nat).
  { pose proof (Nat.div_mod_eq (n + 1) 2). pose proof (Nat.div_mod_eq n 2).
    pose proof (Nat.mod_upper_bound (n + 1) 2 ltac:(lia)).
    pose proof (Nat.mod_upper_bound n 2 ltac:(lia)). lia. }
  assert (EL : left p = take ((n + 1) / 2) (links p)).
  { unfold left. rewrite HL, ceil_half_nat. now apply slice_prefix. }
  assert (ER : right p = drop ((n + 1) / 2) (links p)).
  { unfold right. rewrite HR, ceil_half_nat. now apply slice_suffix. }
  assert (EM : mobile_links p = links p).
  { unfold mobile_links. rewrite EL, ER. apply take_drop. }
  repeat split; try assumption.
  - rewrite EL, length_take. fold n. lia.
  - rewrite ER, length_drop. fold n. lia.
  - simpl. now rewrite EM.
Qed.

End NavbarSplit.

(** ** Handlers of rendered trees *)

Section HandlerFacts.
Import JS Markup.
Context {S : Type}.

Lemma handlers_when_truthy (o : option string) (element : string -> node S) :
  (forall s, handlers (element s) = []) ->
  flat_map handlers (when_truthy o element) = [].
Proof.
  intros H. unfold when_truthy. destruct o as [s|]; [|reflexivity].
  destruct (truthy (Some s)); simpl; [now rewrite H | reflexivity].
Qed.

Lemma handlers_imap_none {A} (f : nat -> A -> node S) (l : list A) :
  (forall i a, handlers (f i a) = []) -> flat_map handlers (imap f l) = [].
Proof.
  intros H. revert f H. induction l as [|a l IH]; intros f H; simpl;
    [reflexivity|].
  rewrite H. simpl. apply IH. intros i b. apply H.
Qed.

End HandlerFacts.

(** ** TestimonialsSectionCarousel: the index *)

Section Carousel.
Import JS Markup Eval State Testimonials_carousel.

Lemma dot_handlers (currentIndex : Z) (l : list Testimonial) (from : nat) :
  flat_map handlers (imap (fun k => dot currentIndex (from + k)) l)
  = go_to <$> seq from (length l).
Proof.
  revert from. induction l as [|t l IH]; intros from; simpl; [reflexivity|].
  rewrite Nat.add_0_r. f_equal.
  rewrite <- IH. f_equal. apply imap_ext. intros k x _. simpl.
  f_equal. lia.
Qed.

Lemma dots_handlers (currentIndex : Z) (l : list Testimonial) :
  flat_map handlers (imap (dot currentIndex) l) = go_to <$> seq 0 (length l).
Proof.
  rewrite <- (dot_handlers currentIndex l 0). f_equal.
Qed.

Lemma carousel_handlers (p : TestimonialsBaseProps) (i : Z) (tree : node Z) :
  TestimonialsSectionCarousel p i = Ok tree ->
  handlers tree
  = [previous p] ++ (go_to <$> seq 0 (length (testimonials p))) ++ [next p].
Proof.
  unfold TestimonialsSectionCarousel.
  destruct (at_index (testimonials p) i) as [t|]; [|discriminate].
  intros [= <-]. cbn [handlers el own_handlers cls flat_map app].
  rewrite !flat_map_app.
  rewrite !handlers_when_truthy by reflexivity.
  cbn [flat_map handlers own_handlers app].
  rewrite dots_handlers. simpl.
  rewrite (handlers_when_truthy (description p)) by reflexivity.
  simpl. now rewrite !app_nil_r.
Qed.

Lemma at_index_in_range {A} (l : list A) (i : Z) :
  (0 <= i < Z.of_nat (length l))%Z -> exists a, at_index l i = Some a.
Proof.
  intros Hi. unfold at_index.
  replace (i <? 0)%Z with false by (symmetry; apply Z.ltb_ge; lia).
  apply lookup_lt_is_Some. lia.
Qed.

(** C4. For every non-empty testimonials list the carousel index always
    stays in [0, length): it starts at 0, the next button maps index i to
    (i+1) mod length, the previous button maps i to (i-1+length) mod length,
    the dot at each position sets the index to that position, these are the
    only click handlers of the rendered tree, and no sequence of clicks
    leads to an index outside the range. *)
Theorem carousel_index_stays_in_range (p : TestimonialsBaseProps) :
  (0 < length (testimonials p))%nat ->
  let n := Z.of_nat (length (testimonials p)) in
  (forall i, carousel_reachable p i -> (0 <= i < n)%Z)
  /\ (forall i, (0 <= i < n)%Z ->
        next p i = ((i + 1) mod n)%Z
        /\ previous p i = ((i - 1 + n) mod n)%Z
        /\ exists tree,
             TestimonialsSectionCarousel p i = Ok tree
             /\ handlers tree
                = [previous p]
                  ++ (go_to <$> seq 0 (length (testimonials p)))
                  ++ [next p]
             /\ forall index t,
                  testimonials p !! index = Some t ->
                  node_at [0; 1; 1; 1; index] tree = Some (dot i index t))
  /\ (forall index prev, go_to index prev = Z.of_nat index).
Proof.
  intros Hn n.
  assert (Hnext : forall i, (0 <= i < n)%Z -> next p i = ((i + 1) mod n)%Z).
  { intros i Hi. unfold next, rem. fold n. apply Z.rem_mod_nonneg; lia. }
  assert (Hprev : forall i, (0 <= i < n)%Z ->
                            previous p i = ((i - 1 + n) mod n)%Z).
  { intros i Hi. unfold previous, rem. fold n. apply Z.rem_mod_nonneg; lia. }
  split; [|split].
  - induction 1 as [|i tree h _ IH Htree Hh]; [lia|].
    rewrite (carousel_handlers _ _ _ Htree) in Hh.
    apply in_app_or in Hh. destruct Hh as [[<- | []] | Hh].
    { rewrite Hprev by exact IH. apply Z.mod_pos_bound. lia. }
    apply in_app_or in Hh. destruct Hh as [Hh | [<- | []]].
    + apply list_elem_of_In, list_elem_of_fmap in Hh.
      destruct Hh as (k & -> & Hk). apply list_elem_of_In, in_seq in Hk.
      unfold go_to, n. lia.
    + rewrite Hnext by exact IH. apply Z.mod_pos_bound. lia.
  - intros i Hi. split; [now apply Hnext | split; [now apply Hprev|]].
    destruct (at_index_in_range (testimonials p) i Hi) as [t Ht].
    unfold TestimonialsSectionCarousel at 1. rewrite Ht. eexists.
    split; [reflexivity|split].
    + apply carousel_handlers with (i := i).
      unfold TestimonialsSectionCarousel. now rewrite Ht.
    + intros index t' Hindex. cbn [node_at children el lookup].
      simpl. rewrite list_lookup_imap, Hindex. reflexivity.
  - reflexivity.
Qed.

End Carousel.

(** ** Membership in rendered trees *)

Section TreeFacts.
Import JS Markup.
Context {S : Type}.

Lemma in_descendants_elem (x : node S) tag ps cs :
  In x (descendants (Elem tag ps cs)) ->
  x = Elem tag ps cs \/ exists c, In c cs /\ In x (descendants c).
Proof.
  simpl. intros [H | H]; [left; now symmetry|right].
  apply in_flat_map in H. exact H.
Qed.

Lemma in_descendants_text (x : node S) s :
  In x (descendants (Text s)) -> x = Text s.
Proof. simpl. intros [H | []]. now symmetry. Qed.

Lemma in_imap_inv {A} (f : nat -> A -> node S) (l : list A) (c : node S) :
  In c (imap f l) -> exists i a, l !! i = Some a /\ c = f i a.
Proof.
  intros H. apply list_elem_of_In, elem_of_lookup_imap in H.
  destruct H as (i & a & -> & H). eauto.
Qed.

Lemma in_fmap_inv {A} (f : A -> node S) (l : list A) (c : node S) :
  In c (f <$> l) -> exists a, c = f a.
Proof.
  intros H. apply list_elem_of_In, list_elem_of_fmap in H.
  destruct H as (a & -> & _). eauto.
Qed.

Lemma in_child_descendants (x c : node S) tag ps cs :
  In c cs -> In x (descendants c) -> In x (descendants (Elem tag ps cs)).
Proof.
  intros Hc Hx. simpl. right. apply in_flat_map. eauto.
Qed.

Lemma node_at_in_descendants (path : list nat) (t x : node S) :
  node_at path t = Some x -> In x (descendants t).
Proof.
  revert t. induction path as [|i path IH]; intros t; simpl.
  - intros [= ->]. destruct x; simpl; now left.
  - destruct (children t !! i) as [c|] eqn:Hc; [|discriminate].
    intros H. destruct t as [s|tag ps cs]; simpl in Hc; [discriminate|].
    eapply in_child_descendants; [|apply IH, H].
    apply list_elem_of_In. eapply list_elem_of_lookup_2, Hc.
Qed.

Lemma node_at_app (path rest : list nat) (t : node S) :
  node_at (path ++ rest) t = node_at path t ≫= node_at rest.
Proof.
  revert t. induction path as [|i path IH]; intros t; [reflexivity|].
  cbn [app node_at]. destruct (children t !! i); [apply IH | reflexivity].
Qed.

End TreeFacts.

Create HintDb markup.
#[local] Hint Unfold Markup.el Markup.cls Markup.str Markup.key : markup.

(** Takes apart a hypothesis that places a node somewhere in a rendered
    tree, down to equations between the node and the elements of the tree. *)
Ltac in_tree :=
  repeat (autounfold with markup in *;
    match goal with
    | H : In _ (Markup.descendants (Markup.Elem _ _ _)) |- _ =>
        let c := fresh "c" in let Hc := fresh "Hc" in
        apply in_descendants_elem in H;
        destruct H as [H | (c & Hc & H)]; [try discriminate H|]
    | H : In _ (Markup.descendants (Markup.Text _)) |- _ =>
        apply in_descendants_text in H; try discriminate H
    | H : In _ [] |- _ => destruct H
    | H : In ?c (_ :: _) |- _ => destruct H as [H | H]; [subst c|]
    | H : In _ (_ ++ _) |- _ => apply in_app_or in H; destruct H as [H | H]
    | H : In ?c (imap _ _) |- _ =>
        let i := fresh "i" in let a := fresh "a" in let Ha := fresh "Ha" in
        apply in_imap_inv in H; destruct H as (i & a & Ha & H); subst c
    | H : In ?c (_ <$> _) |- _ =>
        let a := fresh "a" in
        apply in_fmap_inv in H; destruct H as (a & H); subst c
    | H : In _ (Markup.when_truthy ?o _) |- _ =>
        lazymatch o with
        | None => cbn [Markup.when_truthy] in H
        | Some _ => cbn [Markup.when_truthy] in H; destruct (JS.truthy _)
        | _ => destruct o
        end
    | H : In _ (Markup.when_given ?o _) |- _ =>
        lazymatch o with
        | None => cbn [Markup.when_given] in H
        | Some _ => cbn [Markup.when_given] in H
        | _ => destruct o
        end
    | H : In _ (Markup.when_true ?b _) |- _ =>
        lazymatch b with
        | true => cbn [Markup.when_true] in H
        | false => cbn [Markup.when_true] in H
        | _ => destruct b
        end
    end).

(** ** FaqSection and HeroSection: optional props *)

Section OptionalProps.
Import JS Markup Spec.

#[local] Hint Unfold Faq_section.FaqSection Faq_section.accordion_item
  Faq_section.badge_span Faq_section.description_paragraph
  Hero_section.HeroSection Hero_section.badge_block
  Hero_section.primary_button Hero_section.secondary_button
  Hero_section.image_block : markup.








End OptionalProps.

(** ** PricingSectionToggle: the billing switch *)

Section PricingToggle.
Import JS Markup State Pricing_toggle.
Variable cn : string -> string -> string.

#[local] Hint Unfold tier_card price_block discount_badge billed_annually
  switch : markup.

Lemma tier_card_handlers (isYearly : bool) (index : nat)
    (tier : PricingTierWithToggle) :
  handlers (tier_card isYearly index tier) = [].
Proof.
  unfold tier_card.
  cbn [handlers el cls own_handlers flat_map app key str].
  rewrite flat_map_app. unfold when_true.
  destruct (is_popular tier), isYearly; simpl;
    rewrite handlers_imap_none by reflexivity; reflexivity.
Qed.

Lemma pricing_handlers (p : PricingSectionToggleProps) (isYearly : bool) :
  handlers (PricingSectionToggle cn p isYearly) = [toggle isYearly].
Proof.
  unfold PricingSectionToggle.
  cbn [handlers el cls own_handlers flat_map app].
  rewrite !flat_map_app.
  rewrite (handlers_when_truthy (badge p)) by reflexivity.
  rewrite handlers_imap_none by apply tier_card_handlers.
  cbn [flat_map handlers own_handlers app].
  rewrite (handlers_when_truthy (section_description p)) by reflexivity.
  destruct isYearly; reflexivity.
Qed.

(** C5. The switch is a single boolean: its click handler is the only one
    of the tree, a click negates the state, so that two clicks restore it;
    the price block of every tier's card shows [yearlyPrice] when the state
    is yearly and [monthlyPrice] otherwise, followed by the note
    "Billed annually" exactly when the state is yearly; and the badge with
    the discount text stands after the switch exactly when the state is
    yearly.  Neither the note nor the badge is anywhere in the monthly
    tree. *)
Theorem pricing_toggle_is_a_boolean (p : PricingSectionToggleProps)
    (isYearly : bool) :
  let tree := PricingSectionToggle cn p in
  let discount :=
    Elem "Badge" [str "variant" "secondary"; cls "ml-2"]
      [Text (default "Save 20%" (yearlyDiscount p))] in
  let note := el "div" "text-xs text-muted-foreground mt-1"
                [Text "Billed annually"] in
  pricing_click cn p isYearly = [negb isYearly]
  /\ pricing_click cn p (negb isYearly) = [isYearly]
  /\ (forall index tier,
        pricingTiers p !! index = Some tier ->
        node_at [0; 2; index; 0; if is_popular tier then 1 else 0; 1]%nat
          (tree isYearly)
        = Some (el "div" "mb-2"
                  ([Elem "motion.span"
                      [str "key" (if isYearly then "yearly" else "monthly");
                       ("initial", Val (Obj [("opacity", Num 0); ("y", Num (-10))]));
                       ("animate", Val (Obj [("opacity", Num 1); ("y", Num 0)]));
                       cls "text-4xl font-bold"]
                      [Text (if isYearly then yearlyPrice tier
                             else monthlyPrice tier)];
                    el "span" "text-muted-foreground"
                      [Text "/"; Text (period tier)]]
                   ++ (if isYearly then [note] else []))))
  /\ node_at [0; 1; 3]%nat (tree isYearly)
     = (if isYearly then Some discount else None)
  /\ (In note (descendants (tree isYearly)) -> isYearly = true)
  /\ (In discount (descendants (tree isYearly)) -> isYearly = true).
Proof.
  intros tree discount note.
  split; [|split; [|split; [|split; [|split]]]].
  - unfold pricing_click. now rewrite pricing_handlers.
  - unfold pricing_click. rewrite pricing_handlers.
    destruct isYearly; reflexivity.
  - intros index tier Htier.
    change [0; 2; index; 0; if is_popular tier then 1 else 0; 1]%nat
      with ([0; 2; index] ++ [0; if is_popular tier then 1 else 0; 1])%nat.
    rewrite node_at_app.
    unfold tree, PricingSectionToggle. cbn [node_at children el lookup].
    simpl. rewrite list_lookup_imap, Htier. simpl.
    unfold note. destruct (is_popular tier), isYearly; reflexivity.
  - destruct isYearly; reflexivity.
  - intros H. destruct isYearly; [reflexivity|]. exfalso.
    unfold tree, note in H. cbv [PricingSectionToggle switch] in H.
    in_tree.
  - intros H. destruct isYearly; [reflexivity|]. exfalso.
    unfold tree, discount in H. cbv [PricingSectionToggle switch] in H.
    in_tree.
Qed.

End PricingToggle.

(** ** Testimonials: the rating stars *)

Section Stars.
Import JS Markup Spec.

Lemma lt_int_integer (i r : Z) :
  lt_int i (Finite (inject_Z r)) = (i <? r)%Z.
Proof.
  unfold lt_int. destruct (Qlt_le_dec (inject_Z i) (inject_Z r)) as [H | H].
  - rewrite <- Zlt_Qlt in H. symmetry. now apply Z.ltb_lt.
  - rewrite <- Zle_Qle in H. symmetry. now apply Z.ltb_ge.
Qed.

Lemma five_flags_count (r : Z) :
  counts_rating
    ((if (0 <? r)%Z then 1 else 0) + (if (1 <? r)%Z then 1 else 0)
     + (if (2 <? r)%Z then 1 else 0) + (if (3 <? r)%Z then 1 else 0)
     + (if (4 <? r)%Z then 1 else 0))%nat r.
Proof.
  unfold counts_rating.
  destruct (Z.ltb_spec 0 r), (Z.ltb_spec 1 r), (Z.ltb_spec 2 r),
    (Z.ltb_spec 3 r), (Z.ltb_spec 4 r); lia.
Qed.

(** Proves [star_row] for the star row of one of the testimonial
    components. *)
Ltac star_row_tac star_def :=
  split; [reflexivity|];
  let i := fresh "i" in let Hi := fresh "Hi" in
  intros i Hi;
  do 5 (destruct i as [|i];
        [eexists; split; [reflexivity|];
         unfold star_def; destruct (lt_int _ _); split; reflexivity|]);
  lia.

(** Proves that the number of filled stars of a row is the number of
    positions below the rating. *)
Ltac filled_count_tac stars_def star_def :=
  unfold filled_count, stars_def, star_def;
  cbn [fmap list_fmap seq];
  change (Z.of_nat 0) with 0%Z; change (Z.of_nat 1) with 1%Z;
  change (Z.of_nat 2) with 2%Z; change (Z.of_nat 3) with 3%Z;
  change (Z.of_nat 4) with 4%Z;
  destruct (lt_int 0 _), (lt_int 1 _), (lt_int 2 _), (lt_int 3 _),
    (lt_int 4 _); reflexivity.

Lemma flags_integer (r : Z) : counts_rating (flags (Finite (inject_Z r))) r.
Proof. unfold flags. rewrite !lt_int_integer. apply five_flags_count. Qed.

Lemma grid_filled_count (t : Testimonials_section.Testimonial) :
  filled_count (@Testimonials_section.stars unit t)
  = flags (Testimonials_section.rating t).
Proof.
  unfold flags.
  filled_count_tac (@Testimonials_section.stars) (@Testimonials_section.star).
Qed.

Lemma carousel_filled_count (t : Testimonials_carousel.Testimonial) :
  filled_count (@Testimonials_carousel.stars Z t)
  = flags (Testimonials_carousel.rating t).
Proof.
  unfold flags.
  filled_count_tac (@Testimonials_carousel.stars) (@Testimonials_carousel.star).
Qed.

(** C7. The rating is used as it comes: for every testimonial the card
    that TestimonialsSection renders holds a row of exactly 5 star icons,
    of which star i (0-based) is filled if and only if i < rating; hence an
    integer rating between 0 and 5 fills exactly rating stars, a rating
    above 5 fills all 5 and a negative rating fills none (and so does NaN).
    The same holds of the slide that the carousel renders. *)
Theorem stars_follow_rating_unvalidated :
  (forall (p : Testimonials_section.TestimonialsSectionProps) k t,
     Testimonials_section.testimonials p !! k = Some t ->
     exists row,
       node_at [0; 1; k; 0; 0; 0]%nat
         (Testimonials_section.TestimonialsSection p)
       = Some (el "div" "mb-4 flex gap-1" row)
       /\ Forall (fun star => exists props, star = Elem "Star" props []) row
       /\ star_row row (Testimonials_section.rating t)
       /\ (forall r, Testimonials_section.rating t = Finite (inject_Z r) ->
             counts_rating (filled_count row) r)
       /\ (Testimonials_section.rating t = NaN -> filled_count row = 0%nat))
  /\ (forall (p : Testimonials_carousel.TestimonialsBaseProps) (k : nat) t,
        Testimonials_carousel.testimonials p !! k = Some t ->
        exists tree row,
          Testimonials_carousel.TestimonialsSectionCarousel p (Z.of_nat k)
          = Eval.Ok tree
          /\ node_at [0; 1; 0; 0; 0; 0; 1]%nat tree
             = Some (el "div" "mb-6 flex gap-1" row)
          /\ Forall (fun star => exists props, star = Elem "Star" props []) row
          /\ star_row row (Testimonials_carousel.rating t)
          /\ (forall r, Testimonials_carousel.rating t = Finite (inject_Z r) ->
                counts_rating (filled_count row) r)
          /\ (Testimonials_carousel.rating t = NaN -> filled_count row = 0%nat)).
Proof.
  split.
  - intros p k t Hk. exists (Testimonials_section.stars t).
    split; [|split; [|split; [|split]]].
    + change [0; 1; k; 0; 0; 0]%nat with ([0; 1; k] ++ [0; 0; 0])%nat.
      rewrite node_at_app.
      unfold Testimonials_section.TestimonialsSection.
      cbn [node_at children el lookup]. simpl.
      rewrite list_lookup_imap, Hk. reflexivity.
    + repeat (apply List.Forall_cons; [eexists; reflexivity|]).
      apply List.Forall_nil.
    + star_row_tac (@Testimonials_section.star).
    + intros r Hr. rewrite grid_filled_count, Hr. apply flags_integer.
    + intros Hr. rewrite grid_filled_count, Hr. reflexivity.
  - intros p k t Hk.
    unfold Testimonials_carousel.TestimonialsSectionCarousel.
    assert (E : at_index (Testimonials_carousel.testimonials p) (Z.of_nat k)
                = Some t).
    { unfold at_index.
      replace (Z.of_nat k <? 0)%Z with false by (symmetry; apply Z.ltb_ge; lia).
      now rewrite Nat2Z.id. }
    rewrite E. eexists. exists (Testimonials_carousel.stars t).
    split; [reflexivity|]. split; [reflexivity|].
    split; [|split; [|split]].
    + repeat (apply List.Forall_cons; [eexists; reflexivity|]).
      apply List.Forall_nil.
    + star_row_tac (@Testimonials_carousel.star).
    + intros r Hr. rewrite carousel_filled_count, Hr. apply flags_integer.
    + intros Hr. rewrite carousel_filled_count, Hr. reflexivity.
Qed.

End Stars.

(** ** Testimonials: the avatar fallback *)

Section AvatarFallback.
Import JS Markup Spec.

Lemma split_space_cons (s : string) :
  exists w ws, split_space s = w :: ws.
Proof.
  induction s as [|c s (w & ws & IH)]; simpl; [eauto|].
  destruct (Ascii.eqb c " "); [eauto|]. rewrite IH. eauto.
Qed.

Lemma continuation_not_space (c : ascii) :
  continuation c = true -> Ascii.eqb c " " = false.
Proof.
  intros H. destruct (Ascii.eqb_spec c " ") as [-> | Hne]; [discriminate H|].
  reflexivity.
Qed.

Lemma continuation_not_ascii (c : ascii) :
  continuation c = true -> (byte c <? 128)%N = false.
Proof.
  unfold continuation. intros H. apply andb_true_iff in H.
  destruct H as [H _]. apply N.leb_le in H. apply N.ltb_ge. exact H.
Qed.

Lemma continuation_bytes_none (s : string) :
  starts_with_continuation s = false -> continuation_bytes s = EmptyString.
Proof. destruct s as [|c s]; simpl; [reflexivity | now intros ->]. Qed.

(** The continuation bytes at the start of a string are those at the
    start of its first word. *)
Lemma continuation_bytes_word (s w : string) (ws : list string) :
  split_space s = w :: ws -> continuation_bytes w = continuation_bytes s.
Proof.
  revert w ws. induction s as [|c s IH]; intros w ws; simpl.
  - now intros [= <- <-].
  - destruct (Ascii.eqb c " ") eqn:Hc.
    + intros [= <- <-]. simpl.
      destruct (continuation c) eqn:Hk; [|reflexivity].
      apply continuation_not_space in Hk. congruence.
    + destruct (split_space_cons s) as (w' & ws' & E). rewrite E.
      intros [= <- <-]. simpl. now rewrite (IH _ _ E).
Qed.

(** A string that starts with a continuation byte has these bytes as its
    first character. *)
Lemma characters_continuation (s : string) :
  starts_with_continuation s = true ->
  exists rest, characters s = continuation_bytes s :: rest.
Proof.
  induction s as [|d s IH]; [discriminate|].
  cbn [starts_with_continuation]. intros Hd.
  cbn [characters continuation_bytes]. rewrite Hd.
  rewrite (continuation_not_ascii d Hd). cbn [orb].
  destruct (starts_with_continuation s) eqn:Hs; cbn [negb].
  - destruct (IH eq_refl) as [rest ->]. eauto.
  - rewrite (continuation_bytes_none s Hs). eauto.
Qed.

Lemma chunk_not_space (c : ascii) (ch : string) :
  Ascii.eqb c " " = false -> String.eqb (String c ch) " " = false.
Proof. intros H. cbn [String.eqb]. now rewrite H. Qed.

Lemma bmp_cons (c : ascii) (s : string) :
  bmp (String c s) = (byte c <? 240)%N && bmp s.
Proof. reflexivity. Qed.

Lemma split_initials (s : string) :
  bmp s = true ->
  join_empty (first_char <$> split_space s)
  = initials_from true (characters s)
  /\ join_empty (first_char <$> tail (split_space s))
     = initials_from false (characters s).
Proof.
  induction s as [|c s IH]; intros Hbmp; [split; reflexivity|].
  rewrite bmp_cons in Hbmp. apply andb_true_iff in Hbmp.
  destruct Hbmp as [Hplane Hbmp]. destruct (IH Hbmp) as [IH1 IH2]. clear IH.
  cbn [split_space]. destruct (Ascii.eqb c " ") eqn:Hc.
  - apply Ascii.eqb_eq in Hc. subst c.
    rewrite characters_cons_ascii by reflexivity.
    cbn [fmap list_fmap tail join_empty fold_right first_char initials_from
         String.eqb Ascii.eqb Bool.eqb String.append].
    split; exact IH1.
  - destruct (split_space_cons s) as (w & ws & E). rewrite E in *.
    cbn [fmap list_fmap tail join_empty fold_right] in *.
    cbn [first_char].
    destruct ((byte c <? 128)%N) eqn:Hlow.
    + rewrite characters_cons_ascii by exact Hlow.
      cbn [initials_from]. rewrite (chunk_not_space c _ Hc).
      cbn [String.append]. split; [f_equal|]; exact IH2.
    + rewrite Hplane, (continuation_bytes_word s w ws E).
      cbn [characters]. rewrite Hlow. cbn [orb].
      destruct (starts_with_continuation s) eqn:Hs; cbn [negb].
      * destruct (characters_continuation s Hs) as [rest Hrest].
        rewrite Hrest in *. cbn [initials_from] in *.
        rewrite (chunk_not_space c _ Hc).
        assert (Hch : String.eqb (continuation_bytes s) " " = false).
        { destruct s as [|d s]; [discriminate Hs|].
          cbn [starts_with_continuation] in Hs.
          cbn [continuation_bytes]. rewrite Hs.
          apply chunk_not_space, continuation_not_space, Hs. }
        rewrite Hch in IH2. cbn [String.append].
        split; [now rewrite IH2 | exact IH2].
      * rewrite (continuation_bytes_none s Hs).
        cbn [initials_from]. rewrite (chunk_not_space c _ Hc).
        cbn [String.append]. split; [f_equal|]; exact IH2.
Qed.

Lemma split_join_initials (s : string) :
  bmp s = true -> join_empty (first_char <$> split_space s) = initials s.
Proof. intros H. now apply split_initials. Qed.

(** X27. For a name in the Basic Multilingual Plane the avatar fallback
    is the concatenation of the first character of each space-separated
    word of the name, and the grid, the carousel and the masonry component
    compute it the same way: in each of them the AvatarFallback of the card
    of a testimonial holds exactly that text.  "John Doe" gives "JD". *)
Theorem avatar_fallback_is_initials (who : string) :
  bmp who = true ->
  let fallback (S : Type) : node S :=
    Elem "AvatarFallback" [] [Text (initials who)] in
  (forall (p : Testimonials_section.TestimonialsSectionProps) k t,
     Testimonials_section.testimonials p !! k = Some t ->
     Testimonials_section.name t = who ->
     node_at [0; 1; k; 0; 0; 2; 0; 1]%nat
       (Testimonials_section.TestimonialsSection p)
     = Some (fallback unit))
  /\ (forall (p : Testimonials_carousel.TestimonialsBaseProps) (k : nat) t,
        Testimonials_carousel.testimonials p !! k = Some t ->
        Testimonials_carousel.name t = who ->
        exists tree,
          Testimonials_carousel.TestimonialsSectionCarousel p (Z.of_nat k)
          = Eval.Ok tree
          /\ node_at [0; 1; 0; 0; 0; 0; 3; 0; 1]%nat tree = Some (fallback Z))
  /\ (forall (p : Testimonials_masonry.TestimonialsBaseProps) k t,
        Testimonials_masonry.testimonials p !! k = Some t ->
        Testimonials_masonry.name t = who ->
        node_at [0; 1; k; 0; 0; 2; 0; 1]%nat
          (Testimonials_masonry.TestimonialsSectionMasonry p)
        = Some (fallback unit))
  /\ initials "John Doe" = "JD".
Proof.
  intros Hbmp fallback. split; [|split; [|split]].
  - intros p k t Hk <-.
    change [0; 1; k; 0; 0; 2; 0; 1]%nat
      with ([0; 1; k] ++ [0; 0; 2; 0; 1])%nat.
    rewrite node_at_app.
    unfold Testimonials_section.TestimonialsSection.
    cbn [node_at children el lookup]. simpl.
    rewrite list_lookup_imap, Hk. simpl.
    unfold fallback, Testimonials_section.fallback_text.
    now rewrite split_join_initials.
  - intros p k t Hk <-.
    unfold Testimonials_carousel.TestimonialsSectionCarousel.
    assert (E : at_index (Testimonials_carousel.testimonials p) (Z.of_nat k)
                = Some t).
    { unfold at_index.
      replace (Z.of_nat k <? 0)%Z with false by (symmetry; apply Z.ltb_ge; lia).
      now rewrite Nat2Z.id. }
    rewrite E. eexists. split; [reflexivity|]. simpl.
    unfold fallback, Testimonials_carousel.fallback_text.
    now rewrite split_join_initials.
  - intros p k t Hk <-.
    change [0; 1; k; 0; 0; 2; 0; 1]%nat
      with ([0; 1; k] ++ [0; 0; 2; 0; 1])%nat.
    rewrite node_at_app.
    unfold Testimonials_masonry.TestimonialsSectionMasonry.
    cbn [node_at children el lookup]. simpl.
    rewrite list_lookup_imap, Hk. simpl.
    unfold fallback, Testimonials_masonry.fallback_text.
    now rewrite split_join_initials.
  - reflexivity.
Qed.

(** C10, at a name that starts with a character beyond the Basic
    Multilingual Plane.  The first characters of the two words of
    [𠮷田 太郎] are [𠮷] and [太].  The components take [n[0]], the first
    UTF-16 code unit of each word, and [𠮷] (U+20BB7) is a pair of code
    units: the AvatarFallback holds the first half of the pair, U+D842,
    which is no character, followed by [太]. *)
Theorem avatar_fallback_splits_surrogate_pair :
  let who := "𠮷田 太郎" in
  let half := String "237" (String "161" (String "130" EmptyString)) in
  initials who = "𠮷太"
  /\ split_space who = ["𠮷田"; "太郎"]
  /\ first_char "𠮷田" = half
  /\ first_char "太郎" = "太"
  /\ Testimonials_section.fallback_text (More_samples.reviewer who)
     = (half ++ "太")%string
  /\ node_at [0; 1; 0; 0; 0; 2; 0; 1]%nat
       (Testimonials_section.TestimonialsSection (More_samples.reviews who))
     = Some (Elem "AvatarFallback" [] [Text (half ++ "太")%string])
  /\ (half ++ "太")%string <> initials who.
Proof.
  intros who half. repeat split. discriminate.
Qed.

End AvatarFallback.

(** ** lib/animations.ts *)

Section AnimationPresets.
Import JS Animations Spec.

(** C8. Every animation variant the module exports has a hidden state with
    opacity 0 and a visible state with opacity 1, and in every visible state
    each of x, y and rotate that is present is 0, the blur filter, when
    present, is "blur(0px)", and the scale, when present, is 1. *)
Theorem animation_presets_are_state_pairs :
  fst <$> exported_variants
  = ["fadeIn"; "fadeInUp"; "fadeInDown"; "fadeInLeft"; "fadeInRight";
     "scaleIn"; "scaleInUp"; "slideInLeft"; "slideInRight"; "slideInUp";
     "slideInDown"; "staggerContainer"; "staggerItem"; "blur"; "rotate"]
  /\ Forall (fun named => preset_ok (snd named)) exported_variants.
Proof.
  split; [reflexivity|].
  unfold exported_variants, preset_ok, absent_or.
  repeat (apply List.Forall_cons;
          [vm_compute; repeat split; auto|]).
  apply List.Forall_nil.
Qed.

End AnimationPresets.

(** ** HeroSectionSplit and FooterMega: names the module does not bind *)

Section UnboundNames.
Import JS Markup Eval.

Lemma succeeds_sequence {A} (ms : list (result A)) :
  Forall succeeds ms -> succeeds (sequence ms).
Proof.
  induction 1 as [|m ms [a ->] _ [l IH]]; simpl; [now exists []|].
  rewrite IH. now exists (a :: l).
Qed.

Lemma succeeds_jsx {S} tag props (children : list (result (list (node S)))) :
  succeeds tag -> Forall succeeds props -> Forall succeeds children ->
  succeeds (jsx tag props children).
Proof.
  intros [t ->] Hp Hc. unfold jsx.
  destruct (succeeds_sequence _ Hp) as [ps Eps].
  destruct (succeeds_sequence _ Hc) as [cs Ecs].
  simpl. rewrite Eps. simpl. rewrite Ecs. simpl. eexists. reflexivity.
Qed.

Lemma succeeds_child {S} (e : result (node S)) :
  succeeds e -> succeeds (child e).
Proof. intros [n ->]. now exists [n]. Qed.

Lemma succeeds_and_then {S} (o : option string)
    (element : string -> result (node S)) :
  (forall s, succeeds (element s)) -> succeeds (and_then o element).
Proof.
  intros H. unfold and_then. destruct o as [s|]; [|now exists []].
  destruct (truthy (Some s)); [now apply succeeds_child | now exists []].
Qed.

Lemma succeeds_and_then_falsy {S} (o : option string)
    (element : string -> result (node S)) :
  truthy o = false -> succeeds (and_then o element).
Proof.
  intros H. unfold and_then. destruct o as [s|]; [|now exists []].
  rewrite H. now exists [].
Qed.

Lemma succeeds_and_given {S V} (o : option V)
    (element : V -> result (node S)) :
  (forall v, succeeds (element v)) -> succeeds (and_given o element).
Proof.
  intros H. unfold and_given. destruct o; [now apply succeeds_child|].
  now exists [].
Qed.

Lemma succeeds_each {S A} (l : list A)
    (element : nat -> A -> result (node S)) :
  (forall i a, succeeds (element i a)) -> succeeds (each l element).
Proof.
  intros H. unfold each. apply succeeds_sequence.
  revert element H. induction l as [|a l IH]; intros element H; simpl;
    constructor; [apply H | apply IH; intros; apply H].
Qed.

Lemma succeeds_bound {S} (k : string) (v : result value) :
  succeeds v -> succeeds (@bound S k v).
Proof. intros [x ->]. eexists. reflexivity. Qed.

(** Shows that an evaluation in which every name read is bound ends with
    a value. *)
Ltac all_bound :=
  repeat first
    [ assumption
    | apply List.Forall_nil
    | apply List.Forall_cons
    | apply succeeds_jsx
    | apply succeeds_child
    | apply succeeds_and_then_falsy; assumption
    | apply succeeds_and_then; intros ?
    | apply succeeds_and_given; intros ?
    | apply succeeds_each; intros ? ?
    | apply succeeds_bound
    | (eexists; reflexivity) ].

(** C1, at the two components it names.  HeroSectionSplit reads
    [transitions], which hero-split.tsx does not import: every render
    throws a ReferenceError (with the name imported, as in
    hero-section.tsx, every render ends with a tree).  FooterMega reads
    [Mail], which footer-mega.tsx does not import, when [contactEmail] is
    given and not empty: the render throws then, and ends with a tree
    otherwise. *)
Theorem hero_split_and_footer_mega_throw :
  (forall p,
     Hero_split.HeroSectionSplit p = Throw (ReferenceError "transitions"))
  /\ (forall p,
        succeeds
          (Hero_split.HeroSectionSplit_in Hero_split.imports_with_transitions p))
  /\ (forall currentYear p,
        truthy (Footer_mega.contactEmail p) = true ->
        Footer_mega.FooterMega currentYear p = Throw (ReferenceError "Mail"))
  /\ (forall currentYear p,
        truthy (Footer_mega.contactEmail p) = false ->
        succeeds (Footer_mega.FooterMega currentYear p)).
Proof.
  split; [|split; [|split]].
  - intros p. reflexivity.
  - intros p. unfold Hero_split.HeroSectionSplit_in.
    assert (Ht : succeeds (Hero_split.textContent
                             Hero_split.imports_with_transitions p)).
    { unfold Hero_split.textContent. all_bound. }
    assert (Hi : succeeds (Hero_split.imageContent
                             Hero_split.imports_with_transitions p)).
    { unfold Hero_split.imageContent. all_bound. }
    destruct Ht as [t ->], Hi as [i ->]. simpl.
    destruct (default Hero_split.right (Hero_split.imagePosition p));
      eexists; reflexivity.
  - intros currentYear [company d tg cols sl ce ad] H. simpl in H.
    destruct ce as [[|a e]|]; try discriminate H.
    destruct tg as [[|]|], d as [[|]|]; reflexivity.
  - intros currentYear p H.
    unfold Footer_mega.FooterMega, Footer_mega.FooterMega_in.
    unfold Footer_mega.policy_link.
    all_bound.
Qed.

End UnboundNames.

(** ** The properties at the sample props *)

Section AtSamples.
Import JS Markup Eval.

Lemma navbar_sample_split :
  Navbar_centered.left Samples.navbar
  = take 2 (Navbar_centered.links Samples.navbar)
  /\ length (Navbar_centered.right Samples.navbar) = 1%nat
  /\ Navbar_centered.mobile_links Samples.navbar
     = Navbar_centered.links Samples.navbar.
Proof.
  destruct (navbar_centered_splits_in_half Samples.navbar false
              ltac:(reflexivity) ltac:(reflexivity))
    as (HL & _ & _ & HR & HM & _).
  split; [exact HL | split; [exact HR | exact HM]].
Defined.

Lemma carousel_sample_wraps_around :
  Testimonials_carousel.next Samples.carousel 2 = 0%Z
  /\ Testimonials_carousel.previous Samples.carousel 0 = 2%Z.
Proof.
  destruct (carousel_index_stays_in_range Samples.carousel
              ltac:(simpl; lia)) as (_ & Hstep & _).
  destruct (Hstep 2%Z ltac:(simpl; lia)) as (Hnext & _).
  destruct (Hstep 0%Z ltac:(simpl; lia)) as (_ & Hprev & _).
  split; [exact Hnext | exact Hprev].
Defined.

Example lower_case_sample : toLowerCase "How do I RESET?" = "how do i reset?".
Proof. reflexivity. Qed.

Example search_sample :
  Faq_searchable.filteredFaqs Samples.faqs "PASSWORD" = take 1 Samples.faqs
  /\ Faq_searchable.filteredFaqs Samples.faqs "we accept" = drop 1 Samples.faqs
  /\ Faq_searchable.filteredFaqs Samples.faqs "refund" = [].
Proof. repeat split. Qed.

Example initials_samples :
  Spec.initials "John Doe" = "JD"
  /\ Spec.initials "Ada  Lovelace " = "AL"
  /\ join_empty (first_char <$> split_space "Ada  Lovelace ") = "AL"
  /\ split_space "Ada  Lovelace " = ["Ada"; ""; "Lovelace"; ""].
Proof. repeat split. Qed.

Example slice_samples :
  slice [1; 2; 3; 4; 5]%nat 0 (Some 3%Z) = [1; 2; 3]%nat
  /\ slice [1; 2; 3; 4; 5]%nat 3 None = [4; 5]%nat
  /\ slice [1; 2; 3; 4; 5]%nat (-2) None = [4; 5]%nat
  /\ ceil_half 5 = 3%Z /\ ceil_half 4 = 2%Z /\ ceil_half 0 = 0%Z.
Proof. repeat split. Qed.

Example hero_split_sample :
  Hero_split.HeroSectionSplit Samples.hero_split
  = Throw (ReferenceError "transitions").
Proof. reflexivity. Qed.

Example footer_mega_sample :
  Footer_mega.FooterMega 2025 Samples.footer_mega
  = Throw (ReferenceError "Mail").
Proof. reflexivity. Qed.

Example carousel_sample_stars :
  Spec.filled_count (@Testimonials_carousel.stars Z (Samples.testimonial "Bob" 3))
  = 3%nat
  /\ Spec.filled_count
       (@Testimonials_carousel.stars Z (Samples.testimonial "Eve" (9 # 2)))
     = 5%nat
  /\ Spec.filled_count (@Testimonials_carousel.stars Z (Samples.testimonial "Max" 7))
     = 5%nat
  /\ Spec.filled_count
       (@Testimonials_carousel.stars Z (Samples.testimonial "Neg" (-1)))
     = 0%nat.
Proof. repeat split. Qed.

Example carousel_sample_empty :
  Testimonials_carousel.TestimonialsSectionCarousel
    {| Testimonials_carousel.badge := None;
       Testimonials_carousel.title := "Reviews";
       Testimonials_carousel.description := None;
       Testimonials_carousel.testimonials := [] |} 0
  = Throw (TypeError "rating").
Proof. reflexivity. Qed.

End AtSamples.

(** * Further properties of the components *)

(** ** NavbarCentered: explicit groups and the mobile sheet *)

Section NavbarMore.
Import JS Markup Events Navbar_centered.

Lemma handlers_app_children {S} (l1 l2 : list (node S)) :
  flat_map handlers (l1 ++ l2) = flat_map handlers l1 ++ flat_map handlers l2.
Proof. apply flat_map_app. Qed.

Lemma handlers_imap_const {S A} (f : nat -> A -> node S) (h : S -> S)
    (l : list A) :
  (forall i a, handlers (f i a) = [h]) ->
  flat_map handlers (imap f l) = repeat h (length l).
Proof.
  intros H. revert f H. induction l as [|a l IH]; intros f H; simpl;
    [reflexivity|].
  rewrite H. simpl. f_equal. apply IH. intros i b. apply H.
Qed.

(** X1. A supplied group replaces its half of [links].  With both
    [leftLinks] and [rightLinks] supplied the [links] prop plays no part:
    whatever array is passed, the rendered tree is the same.  With only
    [leftLinks] supplied the right group is still the second half of
    [links], and with only [rightLinks] supplied the left group is still
    the first half, so the mobile menu lists the supplied group next to
    that half. *)
Theorem navbar_supplied_group_replaces_half
    (brand : string) (ls other l r : list NavLink) (cta : option Cta)
    (isOpen : bool) :
  let navbar ls left right :=
    {| brandName := brand; links := ls; leftLinks := left;
       rightLinks := right; ctaButton := cta |} in
  let half := ((length ls + 1) / 2)%nat in
  NavbarCentered (navbar ls (Some l) (Some r)) isOpen
  = NavbarCentered (navbar other (Some l) (Some r)) isOpen
  /\ mobile_links (navbar ls (Some l) (Some r)) = l ++ r
  /\ mobile_links (navbar ls (Some l) None) = l ++ drop half ls
  /\ mobile_links (navbar ls None (Some r)) = take half ls ++ r.
Proof.
  intros navbar half.
  assert (Hle : (half <= length ls)%nat).
  { unfold half. pose proof (Nat.div_mod_eq (length ls + 1) 2).
    pose proof (Nat.mod_upper_bound (length ls + 1) 2 ltac:(lia)). lia. }
  split; [reflexivity|]. split; [reflexivity|]. split.
  - unfold mobile_links, left, right. cbn [leftLinks rightLinks links navbar].
    now rewrite ceil_half_nat, slice_suffix.
  - unfold mobile_links, left, right. cbn [leftLinks rightLinks links navbar].
    now rewrite ceil_half_nat, slice_prefix.
Qed.

(** X2. Every click handler of the navbar closes the mobile sheet, whatever
    the state was: there is one on each link of the mobile menu and one on
    the call-to-action of the mobile menu when there is one, and none
    elsewhere (the desktop groups, the brand and the trigger of the sheet
    have none).  The sheet itself reports its open state through a single
    handler, which stores the flag it is given. *)
Theorem navbar_clicks_close_sheet (p : NavbarCenteredProps) (isOpen : bool) :
  let tree := NavbarCentered p isOpen in
  (forall h s, In h (handlers tree) -> h s = false)
  /\ length (handlers tree)
     = (length (mobile_links p)
        + match ctaButton p with Some _ => 1 | None => 0 end)%nat
  /\ (forall k link,
        mobile_links p !! k = Some link ->
        node_at [0; 3; 1; 0; k] tree
        = Some (Elem "a"
                  [key k; str "href" (href link);
                   ("onClick", Handler (fun _ => false));
                   cls "text-lg font-medium text-muted-foreground transition-colors hover:text-primary"]
                  [Text (label link)]))
  /\ (forall c,
        ctaButton p = Some c ->
        node_at [0; 3; 1; 0; length (mobile_links p)] tree
        = Some (Elem "Button" [("asChild", Val (Bool true)); cls "mt-4"]
                  [Elem "a"
                     [str "href" (cta_href c);
                      ("onClick", Handler (fun _ => false))]
                     [Text (text c)]]))
  /\ (forall path,
        In path [[0; 0]; [0; 1]; [0; 2]; [0; 3; 0]]%nat ->
        exists part, node_at path tree = Some part /\ handlers part = [])
  /\ (fun h => (h true isOpen, h false isOpen)) <$> bool_handlers tree
     = [(true, false)].
Proof.
  intros tree.
  assert (E : handlers tree
              = repeat (fun _ : bool => false)
                  (length (mobile_links p)
                   + match ctaButton p with Some _ => 1 | None => 0 end)).
  { unfold tree, NavbarCentered.
    cbn [handlers el cls str own_handlers flat_map app key].
    rewrite !handlers_app_children.
    rewrite !handlers_imap_none by reflexivity.
    rewrite (handlers_imap_const mobile_link (fun _ : bool => false))
      by reflexivity.
    rewrite repeat_app.
    destruct (ctaButton p); simpl; now rewrite ?app_nil_r. }
  split; [|split; [|split; [|split; [|split]]]].
  - intros h s Hh. rewrite E in Hh. apply repeat_spec in Hh. now subst.
  - now rewrite E, repeat_length.
  - intros k link Hk. unfold tree, NavbarCentered.
    cbn [node_at children el lookup]. simpl.
    rewrite lookup_app_l
      by (rewrite length_imap; eapply lookup_lt_Some; exact Hk).
    rewrite list_lookup_imap, Hk. reflexivity.
  - intros c Hc. unfold tree, NavbarCentered.
    cbn [node_at children el lookup]. simpl.
    rewrite lookup_app_r by (rewrite length_imap; lia).
    rewrite length_imap, Nat.sub_diag, Hc. reflexivity.
  - intros path Hpath. unfold tree, NavbarCentered.
    destruct Hpath as [<- | [<- | [<- | [<- | []]]]];
      eexists; (split; [reflexivity|]);
      cbn [handlers el cls str own_handlers flat_map app key];
      rewrite ?handlers_app_children, ?handlers_imap_none by reflexivity;
      try reflexivity.
    destruct (ctaButton p); reflexivity.
  - unfold tree, NavbarCentered.
    assert (N : forall (l : list NavLink) f,
              (forall i a, bool_handlers (f i a) = []) ->
              flat_map (@bool_handlers bool) (imap f l) = []).
    { intros l. induction l as [|a l IH]; intros f Hf; simpl; [reflexivity|].
      rewrite Hf. simpl. apply IH. intros; apply Hf. }
    cbn [bool_handlers el cls str own_bool_handlers flat_map app key].
    rewrite !flat_map_app, !N by reflexivity.
    destruct (ctaButton p); reflexivity.
Qed.

End NavbarMore.

(** ** FAQ accordions: the search box and the item values *)

Section FaqMore.
Import JS Markup Events.

Lemma index_text_inj (i j : nat) : index_text i = index_text j -> i = j.
Proof.
  unfold index_text. intros H.
  apply (f_equal NilZero.uint_of_string) in H.
  assert (N : forall n, Nat.to_uint n <> Decimal.Nil).
  { intros n E.
    pose proof (DecimalNat.Unsigned.to_of (Nat.to_uint n)) as T.
    rewrite DecimalNat.Unsigned.of_to, E in T. discriminate T. }
  rewrite !NilZero.usu in H by apply N.
  injection H as H. now apply DecimalNat.Unsigned.to_uint_inj.
Qed.

Lemma prefixed_index_inj (prefix : string) (i j : nat) :
  (prefix ++ index_text i)%string = (prefix ++ index_text j)%string -> i = j.
Proof.
  induction prefix as [|c prefix IH]; simpl; intros H.
  - now apply index_text_inj.
  - injection H as H. auto.
Qed.

Lemma NoDup_prefixed (prefix : string) (from n : nat) :
  NoDup ((fun i => Some (prefix ++ index_text i)%string) <$> seq from n).
Proof.
  apply NoDup_fmap_2; [|apply NoDup_seq].
  intros i j [= H]. now apply prefixed_index_inj in H.
Qed.

Lemma faq_item_values (l : list Faq_section.Faq) (from : nat) :
  text_prop "value"
    <$> imap (fun k => @Faq_section.accordion_item unit (from + k)) l
  = (fun i => Some ("item-" ++ index_text i)%string) <$> seq from (length l).
Proof.
  revert from. induction l as [|a l IH]; intros from; simpl; [reflexivity|].
  rewrite Nat.add_0_r. f_equal. rewrite <- IH. f_equal.
  apply imap_ext. intros k x _. simpl. do 3 f_equal. lia.
Qed.

Lemma searchable_item_values (l : list Faq_searchable.Faq) (from : nat) :
  text_prop "value"
    <$> imap (fun k => @Faq_searchable.accordion_item string (from + k)) l
  = (fun i => Some ("item-" ++ index_text i)%string) <$> seq from (length l).
Proof.
  revert from. induction l as [|a l IH]; intros from; simpl; [reflexivity|].
  rewrite Nat.add_0_r. f_equal. rewrite <- IH. f_equal.
  apply imap_ext. intros k x _. simpl. do 3 f_equal. lia.
Qed.

Lemma input_handlers_imap_none {S A} (f : nat -> A -> node S) (l : list A) :
  (forall i a, input_handlers (f i a) = []) ->
  flat_map input_handlers (imap f l) = [].
Proof.
  intros H. revert f H. induction l as [|a l IH]; intros f H; simpl;
    [reflexivity|].
  rewrite H. simpl. apply IH. intros i b. apply H.
Qed.

Lemma input_handlers_when_truthy {S} (o : option string)
    (element : string -> node S) :
  (forall s, input_handlers (element s) = []) ->
  flat_map input_handlers (when_truthy o element) = [].
Proof.
  intros H. unfold when_truthy. destruct o as [s|]; [|reflexivity].
  destruct (truthy (Some s)); simpl; [now rewrite H | reflexivity].
Qed.

(** X3. The search box of FaqSectionSearchable is a controlled input with
    no other control beside it: the tree has no click handler (there is no
    submit or clear button) and a single input handler, which stores the
    typed text as it is (untrimmed, case kept); rendered at that state the
    input shows the typed text and the block below it holds the results for
    the typed text. *)
Theorem faq_search_box_is_controlled (p : Faq_searchable.FaqBaseProps)
    (searchQuery typed : string) :
  let tree := Faq_searchable.FaqSectionSearchable p in
  handlers (tree searchQuery) = []
  /\ (fun h => h typed searchQuery) <$> input_handlers (tree searchQuery)
     = [typed]
  /\ (node_at [0; 1; 0; 1] (tree typed) ≫= text_prop "value") = Some typed
  /\ node_at [0; 2; 0] (tree typed)
     = Some (Faq_searchable.results (Faq_searchable.faqs p) typed).
Proof.
  intros tree. split; [|split; [|split]]; try reflexivity.
  - unfold tree, Faq_searchable.FaqSectionSearchable.
    cbn [handlers el cls str own_handlers flat_map app].
    rewrite !flat_map_app.
    rewrite (handlers_when_truthy (Faq_searchable.badge p)) by reflexivity.
    cbn [handlers el cls str own_handlers flat_map app].
    rewrite (handlers_when_truthy (Faq_searchable.description p))
      by reflexivity.
    unfold Faq_searchable.results.
    destruct (0 <? _)%nat; simpl; [|reflexivity].
    rewrite handlers_imap_none by reflexivity. reflexivity.
  - unfold tree, Faq_searchable.FaqSectionSearchable.
    cbn [input_handlers el cls str own_input_handlers flat_map app].
    rewrite !flat_map_app.
    rewrite (input_handlers_when_truthy (Faq_searchable.badge p))
      by reflexivity.
    cbn [input_handlers el cls str own_input_handlers flat_map app].
    rewrite (input_handlers_when_truthy (Faq_searchable.description p))
      by reflexivity.
    unfold Faq_searchable.results.
    destruct (0 <? _)%nat; simpl; [|reflexivity].
    rewrite input_handlers_imap_none by reflexivity. reflexivity.
Qed.

(** X4. The items of an FAQ accordion carry pairwise distinct values,
    "item-0", "item-1", ... by position, so that opening one item never
    opens another.  In FaqSectionSearchable the position is the one in the
    filtered list: the shown FAQs are renumbered from 0 at every query. *)
Theorem faq_item_values_are_distinct :
  (forall p : Faq_section.FaqSectionProps,
     exists items,
       node_at [0; 1; 0]%nat (Faq_section.FaqSection p)
       = Some (Elem "Accordion"
                 [str "type" "single"; ("collapsible", Val (Bool true));
                  cls "space-y-4"] items)
       /\ text_prop "value" <$> items
          = (fun i => Some ("item-" ++ index_text i)%string)
              <$> seq 0 (length (Faq_section.faqs p))
       /\ NoDup (text_prop "value" <$> items))
  /\ (forall (faqs : list Faq_searchable.Faq) (searchQuery : string),
        let shown := Faq_searchable.filteredFaqs faqs searchQuery in
        let items := children (@Faq_searchable.accordion string shown) in
        text_prop "value" <$> items
        = (fun i => Some ("item-" ++ index_text i)%string)
            <$> seq 0 (length shown)
        /\ NoDup (text_prop "value" <$> items)).
Proof.
  split.
  - intros p. eexists. split; [reflexivity|].
    assert (E : text_prop "value"
                  <$> imap (@Faq_section.accordion_item unit)
                        (Faq_section.faqs p)
                = (fun i => Some ("item-" ++ index_text i)%string)
                    <$> seq 0 (length (Faq_section.faqs p)))
      by exact (faq_item_values (Faq_section.faqs p) 0).
    split; [exact E|]. rewrite E. apply NoDup_prefixed.
  - intros faqs searchQuery shown items.
    assert (E : text_prop "value" <$> items
                = (fun i => Some ("item-" ++ index_text i)%string)
                    <$> seq 0 (length shown))
      by exact (searchable_item_values shown 0).
    split; [exact E|]. rewrite E. apply NoDup_prefixed.
Qed.

End FaqMore.

(** ** FaqSectionSearchable on ASCII text *)

Section FaqSearchAscii.
Import JS Markup Spec Faq_searchable.

Lemma Exists_ext {A} (P Q : A -> Prop) (l : list A) :
  Forall (fun x => P x <-> Q x) l -> Exists P l <-> Exists Q l.
Proof.
  induction 1 as [|x l Hx _ IH]; [split; intros H; inversion H|].
  split; intros H; inversion H; subst;
    solve [left; now apply Hx | right; now apply IH].
Qed.

(** X25. On ASCII text the search is the case-insensitive one and its
    result is what the component shows: for a search string and FAQs of
    ASCII characters, the FAQs kept are exactly those whose question or
    answer contains the search string up to the case of its letters, in
    their original order; when there is one the block under the search bar
    is the accordion with one item per kept FAQ, showing its question and
    its answer, and when there is none it is the message that quotes the
    search string. *)
Theorem faq_search_shows_matches_on_ascii (p : FaqBaseProps)
    (searchQuery : string) :
  ascii_only searchQuery = true ->
  Forall (fun faq => ascii_only (question faq) = true
                     /\ ascii_only (answer faq) = true) (faqs p) ->
  let shown := filteredFaqs (faqs p) searchQuery in
  keeps_exactly (hit searchQuery) (faqs p) shown
  /\ (Exists (hit searchQuery) (faqs p) ->
      node_at [0; 2; 0] (FaqSectionSearchable p searchQuery)
      = Some (Elem "Accordion"
                [str "type" "single"; ("collapsible", Val (Bool true));
                 cls "space-y-4"]
                (imap (fun index faq =>
                   Elem "AccordionItem"
                     [key index; str "value" ("item-" ++ index_text index);
                      cls "border rounded-lg px-6 bg-card"]
                     [el "AccordionTrigger" "text-left hover:no-underline py-4"
                        [el "span" "font-semibold" [Text (question faq)]];
                      el "AccordionContent" "text-muted-foreground pb-4"
                        [Text (answer faq)]])
                   shown)))
  /\ (~ Exists (hit searchQuery) (faqs p) ->
      node_at [0; 2; 0] (FaqSectionSearchable p searchQuery)
      = Some (el "div" "text-center py-12"
                [el "p" "text-muted-foreground text-lg"
                   [Text ("No results found for " ++ dquote); Text searchQuery;
                    Text dquote];
                 el "p" "text-sm text-muted-foreground mt-2"
                   [Text "Try searching with different keywords"]])).
Proof.
  intros Hq Hfaqs shown.
  assert (Hsame : Forall (fun faq => matches searchQuery faq = true
                                     <-> hit searchQuery faq) (faqs p)).
  { eapply Forall_impl; [exact Hfaqs|]. intros faq [H1 H2].
    now apply matches_hit. }
  assert (Hnil : shown = [] <-> ~ Exists (hit searchQuery) (faqs p)).
  { unfold shown, filteredFaqs. rewrite filter_nil_iff.
    now rewrite (Exists_ext _ _ _ Hsame). }
  split; [|split].
  - eapply keeps_exactly_ext; [exact Hsame | apply filter_keeps_exactly].
  - intros Hhit.
    change (node_at [0; 2; 0] (FaqSectionSearchable p searchQuery))
      with (Some (@results string (faqs p) searchQuery)).
    unfold results. fold shown. destruct shown as [|faq rest] eqn:E.
    + exfalso. now apply (proj1 Hnil).
    + reflexivity.
  - intros Hnone.
    change (node_at [0; 2; 0] (FaqSectionSearchable p searchQuery))
      with (Some (@results string (faqs p) searchQuery)).
    unfold results. fold shown. apply Hnil in Hnone. now rewrite Hnone.
Qed.

(** X26. With the empty search string the filter keeps every FAQ; for
    every search string the result is an order-preserving sublist of the
    FAQs; and for ASCII search strings a longer search string never adds
    an entry: the result for a search string that extends another is a
    sublist of the result for the shorter one, whatever the FAQs are. *)
Theorem faq_filter_narrows_on_ascii (faqs : list Faq) :
  filteredFaqs faqs EmptyString = faqs
  /\ (forall searchQuery, sublist (filteredFaqs faqs searchQuery) faqs)
  /\ (forall searchQuery more,
        ascii_only (searchQuery ++ more) = true ->
        sublist (filteredFaqs faqs (searchQuery ++ more))
                (filteredFaqs faqs searchQuery)).
Proof.
  split; [|split].
  - apply filter_all. intros faq. unfold matches.
    change (toLowerCase EmptyString) with EmptyString.
    now rewrite includes_empty.
  - intros q. apply filter_sublist.
  - intros q more Hq. apply filter_sublist_weaker. intros faq.
    unfold matches. rewrite (toLowerCase_ascii _ Hq).
    rewrite ascii_only_app in Hq. apply andb_true_iff in Hq.
    destruct Hq as [Hq _]. rewrite (toLowerCase_ascii _ Hq).
    rewrite lower_ascii_app, !orb_true_iff.
    intros [H | H]; [left | right]; eapply includes_app_l; exact H.
Qed.

End FaqSearchAscii.

(** ** TestimonialsSectionCarousel: moving around and the empty list *)

Section CarouselMore.
Import JS Markup Eval Events Testimonials_carousel.

Lemma next_in_range (p : TestimonialsBaseProps) (i : Z) :
  let n := Z.of_nat (length (testimonials p)) in
  (0 <= i < n)%Z ->
  next p i = (if (i + 1 =? n)%Z then 0 else i + 1)%Z.
Proof.
  intros n Hi. unfold next, rem. fold n.
  rewrite Z.rem_mod_nonneg by lia.
  destruct (Z.eqb_spec (i + 1) n) as [E | E].
  - rewrite E. apply Z.mod_same. lia.
  - apply Z.mod_small. lia.
Qed.

Lemma previous_in_range (p : TestimonialsBaseProps) (i : Z) :
  let n := Z.of_nat (length (testimonials p)) in
  (0 <= i < n)%Z ->
  previous p i = (if (i =? 0)%Z then n - 1 else i - 1)%Z.
Proof.
  intros n Hi. unfold previous, rem. fold n.
  rewrite Z.rem_mod_nonneg by lia.
  destruct (Z.eqb_spec i 0) as [E | E].
  - subst i. replace (0 - 1 + n)%Z with (n - 1)%Z by lia.
    apply Z.mod_small. lia.
  - replace (i - 1 + n)%Z with (i - 1 + 1 * n)%Z by lia.
    rewrite Z.mod_add by lia. apply Z.mod_small. lia.
Qed.

(** X5. On a non-empty carousel the two arrows undo each other: from any
    index in range, next then previous, and previous then next, lead back
    to the same index. *)
Theorem carousel_arrows_are_inverse (p : TestimonialsBaseProps) (i : Z) :
  (0 <= i < Z.of_nat (length (testimonials p)))%Z ->
  previous p (next p i) = i /\ next p (previous p i) = i.
Proof.
  intros Hi. set (n := Z.of_nat (length (testimonials p))) in *.
  split.
  - rewrite (next_in_range p i Hi). fold n.
    destruct (Z.eqb_spec (i + 1) n) as [E | E].
    + rewrite previous_in_range by (fold n; lia). fold n. simpl. lia.
    + rewrite previous_in_range by (fold n; lia). fold n.
      destruct (Z.eqb_spec (i + 1) 0); lia.
  - rewrite (previous_in_range p i Hi). fold n.
    destruct (Z.eqb_spec i 0) as [E | E].
    + rewrite next_in_range by (fold n; lia). fold n.
      destruct (Z.eqb_spec (n - 1 + 1) n); lia.
    + rewrite next_in_range by (fold n; lia). fold n.
      destruct (Z.eqb_spec (i - 1 + 1) n); lia.
Qed.

Lemma next_iterated (p : TestimonialsBaseProps) (i : Z) (k : nat) :
  let n := Z.of_nat (length (testimonials p)) in
  (0 <= i < n)%Z ->
  Nat.iter k (next p) i = ((i + Z.of_nat k) mod n)%Z.
Proof.
  intros n Hi. induction k as [|k IH].
  - simpl. rewrite Z.add_0_r. symmetry. apply Z.mod_small. exact Hi.
  - rewrite Nat.iter_succ, IH. unfold next, rem. fold n.
    pose proof (Z.mod_pos_bound (i + Z.of_nat k) n ltac:(lia)).
    rewrite Z.rem_mod_nonneg by lia.
    rewrite Z.add_mod_idemp_l by lia. f_equal. lia.
Qed.

(** X6. Pressing next [k] times moves [k] testimonials forward, wrapping
    around at the end; pressing it as many times as there are testimonials
    leads back to where one started. *)
Theorem carousel_next_cycles (p : TestimonialsBaseProps) (i : Z) (k : nat) :
  (0 <= i < Z.of_nat (length (testimonials p)))%Z ->
  Nat.iter k (next p) i
  = ((i + Z.of_nat k) mod Z.of_nat (length (testimonials p)))%Z
  /\ Nat.iter (length (testimonials p)) (next p) i = i.
Proof.
  intros Hi. split; [now apply next_iterated|].
  rewrite next_iterated by exact Hi.
  replace (i + Z.of_nat (length (testimonials p)))%Z
    with (i + 1 * Z.of_nat (length (testimonials p)))%Z by lia.
  rewrite Z.mod_add by lia. apply Z.mod_small. exact Hi.
Qed.

(** X7. The carousel renders exactly at the indices of its testimonials:
    outside the array (in particular at the initial index 0 of an empty
    list) reading the rating of the current testimonial throws a TypeError,
    so the component cannot show an empty list. *)
Theorem carousel_throws_outside_the_list (p : TestimonialsBaseProps) (i : Z) :
  (TestimonialsSectionCarousel p i = Throw (TypeError "rating")
   <-> ~ (0 <= i < Z.of_nat (length (testimonials p)))%Z)
  /\ (succeeds (TestimonialsSectionCarousel p i)
      <-> (0 <= i < Z.of_nat (length (testimonials p)))%Z)
  /\ (testimonials p = [] ->
      TestimonialsSectionCarousel p 0 = Throw (TypeError "rating")).
Proof.
  assert (Hat : (0 <= i < Z.of_nat (length (testimonials p)))%Z
                <-> is_Some (at_index (testimonials p) i)).
  { unfold at_index. destruct (Z.ltb_spec i 0) as [Hneg | Hpos].
    - split; [lia | intros [x Hx]; discriminate].
    - rewrite lookup_lt_is_Some. lia. }
  unfold TestimonialsSectionCarousel.
  split; [|split].
  - rewrite Hat. destruct (at_index (testimonials p) i) as [t|].
    + split; [discriminate | intros H; exfalso; apply H; eauto].
    + split; [intros _ [x Hx]; discriminate | reflexivity].
  - rewrite Hat. destruct (at_index (testimonials p) i) as [t|].
    + split; [eauto | intros _; eexists; reflexivity].
    + split; [intros [x Hx]; discriminate | intros [x Hx]; discriminate].
  - intros ->. reflexivity.
Qed.



End CarouselMore.

(** ** PricingSectionToggle: the cards around the price *)

Section PricingMore.
Import JS Markup Events Pricing_toggle.

(** X9. A tier whose [popular] flag is [false] is rendered exactly like a
    tier that omits the flag: no "Most Popular" badge and an outline
    button; the badge and the default button variant come with
    [popular: true] only. *)
Theorem pricing_popular_false_is_omitted (isYearly : bool) (index : nat)
    (tier : PricingTierWithToggle) :
  let with_popular flag :=
    {| name := name tier; period := period tier;
       description := description tier; features := features tier;
       cta := cta tier; popular := flag;
       monthlyPrice := monthlyPrice tier; yearlyPrice := yearlyPrice tier |} in
  let badge :=
    el "div" "absolute -top-4 left-1/2 -translate-x-1/2"
      [el "Badge" "bg-primary text-primary-foreground px-4 py-1"
         [Text "Most Popular"]] in
  tier_card isYearly index (with_popular (Some false))
  = tier_card isYearly index (with_popular None)
  /\ node_at [0; 0] (tier_card isYearly index (with_popular (Some true)))
     = Some badge
  /\ ~ In badge (descendants (tier_card isYearly index (with_popular None)))
  /\ (node_at [0; 2; 1] (tier_card isYearly index (with_popular (Some true)))
        ≫= text_prop "variant") = Some "default"
  /\ (node_at [0; 1; 1] (tier_card isYearly index (with_popular None))
        ≫= text_prop "variant") = Some "outline".
Proof.
  intros with_popular badge.
  split; [reflexivity|]. split; [reflexivity|].
  split; [|split; reflexivity].
  intros H. unfold badge in H.
  cbv [tier_card price_block with_popular is_popular popular name period
       description features cta monthlyPrice yearlyPrice default
       billed_annually] in H.
  in_tree.
Qed.

(** X10. The switch changes the price block and nothing else of a card:
    the yearly and the monthly card of a tier are the same tree once the
    price block is taken out of both.  In particular the title, the
    description, the feature list and the call-to-action button of every
    tier are the same elements in the monthly and in the yearly tree, and
    so is the header of the section. *)
Theorem pricing_toggle_leaves_the_rest (cn : string -> string -> string)
    (p : PricingSectionToggleProps) (index : nat)
    (tier : PricingTierWithToggle) :
  let header_at := if is_popular tier then 1%nat else 0%nat in
  delete_at [0; header_at; 1]%nat (tier_card true index tier)
  = delete_at [0; header_at; 1]%nat (tier_card false index tier)
  /\ (forall isYearly,
        exists price note,
          node_at [0; header_at; 1]%nat (tier_card isYearly index tier)
          = Some (el "div" "mb-2"
                    (Elem "motion.span"
                       [str "key" (if isYearly then "yearly" else "monthly");
                        ("initial",
                         Val (Obj [("opacity", Num 0); ("y", Num (-10))]));
                        ("animate",
                         Val (Obj [("opacity", Num 1); ("y", Num 0)]));
                        cls "text-4xl font-bold"]
                       [Text price]
                     :: el "span" "text-muted-foreground"
                          [Text "/"; Text (period tier)]
                     :: note)))
  /\ node_at [0; 0] (PricingSectionToggle cn p true)
     = node_at [0; 0] (PricingSectionToggle cn p false)
  /\ (forall part, part = 0%nat \/ part = 2%nat ->
        node_at [0; header_at; part] (tier_card true index tier)
        = node_at [0; header_at; part] (tier_card false index tier))
  /\ node_at [0; S header_at] (tier_card true index tier)
     = node_at [0; S header_at] (tier_card false index tier)
  /\ node_at [0; S header_at] (tier_card true index tier)
     = Some (el "CardContent" "space-y-6"
               [el "ul" "space-y-3"
                  (imap (fun featureIndex feature =>
                     Elem "li" [key featureIndex; cls "flex items-start gap-3"]
                       [el "Check" "size-5 shrink-0 text-primary mt-0.5" [];
                        el "span" "text-sm" [Text feature]])
                     (features tier));
                Elem "Button"
                  [("asChild", Val (Bool true)); cls "w-full";
                   str "variant"
                     (if is_popular tier then "default" else "outline");
                   str "size" "lg"]
                  [Elem "a" [str "href" (href (cta tier))]
                     [Text (text (cta tier))]]]).
Proof.
  intros header_at. unfold header_at, tier_card.
  split; [destruct (is_popular tier); reflexivity|].
  split.
  { intros isYearly. destruct (is_popular tier); do 2 eexists; reflexivity. }
  split; [reflexivity|].
  split; [intros part [-> | ->]; destruct (is_popular tier); reflexivity|].
  destruct (is_popular tier); split; reflexivity.
Qed.

End PricingMore.

(** ** Rating stars: fractions and the other components *)

Section StarsMore.
Import JS Markup Spec.

Lemma lt_int_finite (i : Z) (q : Q) :
  lt_int i (Finite q) = (i <? Qceiling q)%Z.
Proof.
  unfold lt_int. destruct (Qlt_le_dec (inject_Z i) q) as [H | H].
  - symmetry. apply Z.ltb_lt. rewrite Zlt_Qlt.
    eapply Qlt_le_trans; [exact H | apply Qle_ceiling].
  - symmetry. apply Z.ltb_ge.
    rewrite <- (Qceiling_Z i). now apply Qceiling_resp_le.
Qed.

Lemma flags_finite (q : Q) :
  flags (Finite q) = Z.to_nat (Z.max 0 (Z.min 5 (Qceiling q))).
Proof.
  unfold flags. rewrite !lt_int_finite.
  destruct (Z.ltb_spec 0 (Qceiling q)), (Z.ltb_spec 1 (Qceiling q)),
    (Z.ltb_spec 2 (Qceiling q)), (Z.ltb_spec 3 (Qceiling q)),
    (Z.ltb_spec 4 (Qceiling q)); lia.
Qed.

Lemma lt_int_downward (i j : Z) (r : number) :
  (i <= j)%Z -> lt_int j r = true -> lt_int i r = true.
Proof.
  intros Hij. destruct r as [q| | |]; try (intros H; exact H).
  rewrite !lt_int_finite. rewrite !Z.ltb_lt. lia.
Qed.

Lemma masonry_filled_count (t : Testimonials_masonry.Testimonial) :
  filled_count (@Testimonials_masonry.stars unit t)
  = flags (Testimonials_masonry.rating t).
Proof.
  unfold flags, filled_count, Testimonials_masonry.stars,
    Testimonials_masonry.star.
  cbn [fmap list_fmap seq].
  change (Z.of_nat 0) with 0%Z; change (Z.of_nat 1) with 1%Z;
  change (Z.of_nat 2) with 2%Z; change (Z.of_nat 3) with 3%Z;
  change (Z.of_nat 4) with 4%Z.
  destruct (lt_int 0 _), (lt_int 1 _), (lt_int 2 _), (lt_int 3 _),
    (lt_int 4 _); reflexivity.
Qed.

(** X11. A fractional rating is rounded up: for every finite rating the
    number of filled stars, in the grid, the carousel and the masonry
    component alike, is the ceiling of the rating, kept between 0 and 5
    (4.5 fills five stars, 0.1 fills one). *)
Theorem stars_round_fractions_up (q : Q) :
  (forall t : Testimonials_section.Testimonial,
     Testimonials_section.rating t = Finite q ->
     filled_count (@Testimonials_section.stars unit t)
     = Z.to_nat (Z.max 0 (Z.min 5 (Qceiling q))))
  /\ (forall t : Testimonials_carousel.Testimonial,
        Testimonials_carousel.rating t = Finite q ->
        filled_count (@Testimonials_carousel.stars Z t)
        = Z.to_nat (Z.max 0 (Z.min 5 (Qceiling q))))
  /\ (forall t : Testimonials_masonry.Testimonial,
        Testimonials_masonry.rating t = Finite q ->
        filled_count (@Testimonials_masonry.stars unit t)
        = Z.to_nat (Z.max 0 (Z.min 5 (Qceiling q)))).
Proof.
  split; [|split]; intros t Hr.
  - now rewrite grid_filled_count, Hr, flags_finite.
  - now rewrite carousel_filled_count, Hr, flags_finite.
  - now rewrite masonry_filled_count, Hr, flags_finite.
Qed.

(** X12. The filled stars always come first: whatever the rating (a
    fraction, an infinity or NaN), if the star at a position is filled then
    so is every star before it, and the row of the masonry component is the
    very row of the grid for the same rating. *)
Theorem filled_stars_come_first :
  (forall (t : Testimonials_section.Testimonial) (i j : nat),
     (i <= j)%nat ->
     has_class "fill-yellow-400" (@Testimonials_section.star unit t j) = true ->
     has_class "fill-yellow-400" (@Testimonials_section.star unit t i) = true)
  /\ (forall (t : Testimonials_section.Testimonial)
             (m : Testimonials_masonry.Testimonial),
        Testimonials_masonry.rating m = Testimonials_section.rating t ->
        @Testimonials_masonry.stars unit m = Testimonials_section.stars t).
Proof.
  split.
  - intros t i j Hij.
    assert (E : forall k,
              has_class "fill-yellow-400" (@Testimonials_section.star unit t k)
              = lt_int (Z.of_nat k) (Testimonials_section.rating t)).
    { intros k. unfold Testimonials_section.star.
      cbn [has_class class_prop key cls].
      destruct (lt_int _ _); reflexivity. }
    rewrite !E. apply lt_int_downward. lia.
  - intros t m Hr. unfold Testimonials_masonry.stars, Testimonials_section.stars,
      Testimonials_masonry.star, Testimonials_section.star.
    now rewrite Hr.
Qed.

End StarsMore.

(** ** Avatar fallback: words and spaces *)

Section FallbackMore.
Import JS JS_more Markup Spec.

Lemma includes_space_cons (c : ascii) (s : string) :
  includes (String c s) " " = Ascii.eqb c " " || includes s " ".
Proof.
  cbn [includes]. f_equal.
  destruct (Ascii.eqb_spec c " ") as [-> | Hne].
  - apply prefix_app. now exists s.
  - apply not_true_is_false. intros H. apply prefix_app in H.
    destruct H as [r Hr]. injection Hr as Hc _. congruence.
Qed.

Lemma includes_space_app (a b : string) :
  includes (a ++ b) " " = includes a " " || includes b " ".
Proof.
  induction a as [|c a IH]; [reflexivity|].
  cbn [String.append]. rewrite !includes_space_cons, IH. apply orb_assoc.
Qed.

Lemma continuation_bytes_no_space (s : string) :
  includes (continuation_bytes s) " " = false.
Proof.
  induction s as [|c s IH]; [reflexivity|]. cbn [continuation_bytes].
  destruct (continuation c) eqn:Hc; [|reflexivity].
  now rewrite includes_space_cons, IH, (continuation_not_space c Hc).
Qed.

Lemma upper_byte_not_space (n : N) :
  (128 <= n < 256)%N -> Ascii.eqb (ascii_of_N n) " " = false.
Proof.
  intros Hn. apply Ascii.eqb_neq. intros H.
  apply (f_equal N_of_ascii) in H. rewrite N_ascii_embedding in H by lia.
  vm_compute in H. lia.
Qed.

Lemma continuation_byte_not_space (x : N) :
  Ascii.eqb (ascii_of_N (128 + x mod 64)) " " = false.
Proof.
  apply upper_byte_not_space.
  pose proof (N.mod_upper_bound x 64 ltac:(lia)) as H.
  revert H. generalize (x mod 64)%N. intros m Hm. lia.
Qed.

Lemma high_surrogate_no_space (a b c d : ascii) :
  includes (high_surrogate a b c d) " " = false.
Proof.
  unfold high_surrogate. cbv zeta. rewrite !includes_space_cons.
  rewrite !continuation_byte_not_space.
  rewrite upper_byte_not_space by lia. reflexivity.
Qed.

Lemma first_char_no_space (c : ascii) (rest : string) :
  Ascii.eqb c " " = false -> includes (first_char (String c rest)) " " = false.
Proof.
  intros Hc. cbn [first_char].
  destruct (byte c <? 128)%N; [now rewrite includes_space_cons, Hc|].
  pose proof (continuation_bytes_no_space rest) as Hrest.
  destruct (byte c <? 240)%N; [now rewrite includes_space_cons, Hc, Hrest|].
  destruct (continuation_bytes rest) as [|d [|e [|f [|g more]]]];
    try (now rewrite includes_space_cons, Hc, Hrest).
  apply high_surrogate_no_space.
Qed.


(** No word of a split starts with a space. *)
Lemma split_space_starts (s : string) :
  Forall (fun w => match w with
                   | String c _ => Ascii.eqb c " " = false
                   | EmptyString => True
                   end) (split_space s).
Proof.
  induction s as [|c s IH]; cbn [split_space]; [now repeat constructor|].
  destruct (Ascii.eqb c " ") eqn:Hc; [now constructor|].
  destruct (split_space_cons s) as (w & ws & E). rewrite E in *.
  inversion IH; subst. now constructor.
Qed.

Lemma split_space_app (a b : string) :
  split_space (a ++ String " " b) = split_space a ++ split_space b.
Proof.
  induction a as [|c a IH]; [reflexivity|].
  cbn [String.append split_space]. rewrite IH.
  destruct (Ascii.eqb c " "); [reflexivity|].
  destruct (split_space_cons a) as (w & ws & ->). reflexivity.
Qed.

Lemma join_empty_app (l k : list string) :
  join_empty (l ++ k) = (join_empty l ++ join_empty k)%string.
Proof.
  induction l as [|x l IH]; [reflexivity|].
  cbn [app join_empty fold_right]. fold (join_empty (l ++ k)).
  fold (join_empty l). now rewrite IH, append_assoc.
Qed.

Lemma fallback_no_space (s : string) :
  includes (join_empty (first_char <$> split_space s)) " " = false.
Proof.
  pose proof (split_space_starts s) as H.
  induction H as [|w ws Hw _ IH]; [reflexivity|].
  cbn [fmap list_fmap join_empty fold_right].
  fold (join_empty (first_char <$> ws)).
  rewrite includes_space_app, IH, orb_false_r.
  destruct w as [|c rest]; [reflexivity | now apply first_char_no_space].
Qed.




(** X13. The avatar fallback is computed word by word: the fallback of two
    names joined by a space is the fallback of the first followed by the
    fallback of the second, and it never contains a space, however many
    spaces the name has. *)
Theorem fallback_is_wordwise (t first second : Testimonials_section.Testimonial) :
  Testimonials_section.name t
  = (Testimonials_section.name first ++ " "
     ++ Testimonials_section.name second)%string ->
  Testimonials_section.fallback_text t
  = (Testimonials_section.fallback_text first
     ++ Testimonials_section.fallback_text second)%string
  /\ includes (Testimonials_section.fallback_text t) " " = false.
Proof.
  intros Hname. unfold Testimonials_section.fallback_text.
  split; [|apply fallback_no_space].
  rewrite Hname.
  change (" " ++ Testimonials_section.name second)%string
    with (String " " (Testimonials_section.name second)).
  now rewrite split_space_app, fmap_app, join_empty_app.
Qed.


End FallbackMore.

(** ** lib/animations.ts: the shape of the table *)

Section AnimationsMore.
Import JS JS_more Animations.

(** X15. In every animation variant that the module exports (fadeIn,
    fadeInUp, fadeInDown, fadeInLeft, fadeInRight, scaleIn, scaleInUp,
    slideInLeft, slideInRight, slideInUp, slideInDown, staggerContainer,
    staggerItem, blur, rotate) the hidden and the visible state animate the
    same properties, in the same order: each property that starts off its
    resting value in [hidden] has a target in [visible], and [visible] adds
    nothing but, for the two stagger variants, a [transition].  Every
    variant has these two states and no other. *)
Theorem animation_states_match :
  fst <$> exported_variants
  = ["fadeIn"; "fadeInUp"; "fadeInDown"; "fadeInLeft"; "fadeInRight";
     "scaleIn"; "scaleInUp"; "slideInLeft"; "slideInRight"; "slideInUp";
     "slideInDown"; "staggerContainer"; "staggerItem"; "blur"; "rotate"]
  /\ Forall (fun named =>
               keys (snd named) = ["hidden"; "visible"]
               /\ List.filter (fun k => negb (String.eqb k "transition"))
                    (keys (member "visible" (snd named)))
                  = keys (member "hidden" (snd named)))
       exported_variants
  /\ List.filter (fun named =>
                    existsb (String.eqb "transition")
                      (keys (member "visible" (snd named))))
       exported_variants
     = [("staggerContainer", staggerContainer); ("staggerItem", staggerItem)].
Proof.
  split; [reflexivity|]. split; [|reflexivity].
  unfold exported_variants.
  repeat (apply List.Forall_cons; [split; reflexivity|]).
  apply List.Forall_nil.
Qed.

End AnimationsMore.

(** ** Optional props given as the empty string *)

Section EmptyStrings.
Import JS Markup Spec.

(** X16. An optional text prop given as the empty string is treated like
    an omitted one wherever it is rendered conditionally: FaqSection with an
    empty [badge] or [description] and HeroSection with an empty [image]
    render the tree of the omitted prop.  The [badge] of HeroSection is
    different: given as the empty string it is rendered as an empty badge,
    not replaced by the default text. *)
Theorem empty_string_props (t d : string) (f : list Faq_section.Faq)
    (b : option string) (c : Hero_section.Cta) (s : option Hero_section.Cta)
    (i : option string) :
  faq_with_badge t (Some d) f (Some EmptyString)
  = faq_with_badge t (Some d) f None
  /\ faq_with_description b t f (Some EmptyString)
     = faq_with_description b t f None
  /\ hero_with_image b t d c s (Some EmptyString)
     = hero_with_image b t d c s None
  /\ node_at [1; 0; 0]%nat (hero_with_badge t d c s i (Some EmptyString))
     = Some (Hero_section.badge_block EmptyString)
  /\ hero_with_badge t d c s i (Some EmptyString)
     <> hero_with_badge t d c s i None.
Proof.
  repeat split. discriminate.
Qed.

End EmptyStrings.

(** ** FaqSectionTwoColumn: the two columns *)

Section TwoColumn.
Import JS Markup Events Faq_twocolumn.



End TwoColumn.

(** ** FeaturesSectionBento: the featured card *)

Section Bento.
Import JS JS_more Markup Events Features_bento.

Lemma index_is_unique (i j : nat) (n : number) :
  index_is i n = true -> index_is j n = true -> i = j.
Proof.
  destruct n as [q| | |]; cbn [index_is]; try discriminate.
  intros Hi Hj. apply Qeq_bool_iff in Hi. apply Qeq_bool_iff in Hj.
  apply Nat2Z.inj, inject_Z_injective. now rewrite Hi, Hj.
Qed.

Lemma at_most_one (f : nat -> bool) (from n : nat) :
  (forall i j, f i = true -> f j = true -> i = j) ->
  (length (List.filter f (seq from n)) <= 1)%nat
  /\ (forall i, f i = true -> (from + n <= i)%nat ->
        List.filter f (seq from n) = []).
Proof.
  intros Huniq. revert from. induction n as [|n IH]; intros from; simpl.
  - split; [lia | reflexivity].
  - destruct (IH (S from)) as [IH1 IH2]. destruct (f from) eqn:Hf.
    + split.
      * simpl. destruct (List.filter f (seq (S from) n)) as [|x rest] eqn:E;
          [simpl; lia|].
        assert (Hx : In x (List.filter f (seq (S from) n)))
          by (rewrite E; now left).
        apply filter_In in Hx. destruct Hx as [Hx1 Hx2].
        apply in_seq in Hx1. pose proof (Huniq _ _ Hf Hx2). lia.
      * intros i Hi Hle. pose proof (Huniq _ _ Hf Hi). lia.
    + split; [exact IH1|]. intros i Hi Hle. apply (IH2 i); [exact Hi | lia].
Qed.

Lemma card_featured (p : FeaturesSectionBentoProps) (k : nat) (f : Feature) :
  has_class "sm:col-span-2" (card p k f) = isFeatured p k.
Proof.
  unfold card. cbn [has_class class_prop key cls].
  destruct (isFeatured p k); reflexivity.
Qed.

Lemma featured_cards (p : FeaturesSectionBentoProps) (l : list Feature)
    (from : nat) :
  length (List.filter (has_class "sm:col-span-2")
            (imap (fun k => card p (from + k)) l))
  = length (List.filter (isFeatured p) (seq from (length l))).
Proof.
  revert from. induction l as [|a l IH]; intros from; [reflexivity|].
  cbn [imap seq length List.filter].
  rewrite Nat.add_0_r, card_featured.
  assert (E : imap ((fun k => card p (from + k)) ∘ S) l
              = imap (fun k => card p (S from + k)) l).
  { apply imap_ext. intros k x _. unfold compose. f_equal. lia. }
  rewrite E. destruct (isFeatured p from); cbn [length]; now rewrite IH.
Qed.

(** X18. FeaturesSectionBento features at most one card: the card at
    position k is the wide, featured one exactly when [featuredIndex] is
    the integer k.  With [featuredIndex] omitted the first card is featured;
    with a [featuredIndex] that is no position of the list (negative, too
    large, a fraction, NaN) no card is featured and nothing fails. *)
Theorem bento_features_at_most_one_card (p : FeaturesSectionBentoProps) :
  let cards := imap (card p) (features p) in
  node_at [0; 1] (FeaturesSectionBento p)
  = Some (Elem "motion.div"
            [("variants", Val Animations.staggerContainer);
             str "initial" "hidden"; str "whileInView" "visible";
             ("viewport", Val Animations.viewportOptions);
             cls "grid gap-6 sm:grid-cols-2 lg:grid-cols-4 auto-rows-fr"]
            cards)
  /\ (forall k f, features p !! k = Some f ->
        cards !! k = Some (card p k f)
        /\ has_class "sm:col-span-2" (card p k f)
           = index_is k (default (Finite 0) (featuredIndex p)))
  /\ (length (List.filter (has_class "sm:col-span-2") cards) <= 1)%nat
  /\ (featuredIndex p = None ->
      forall f, features p !! 0%nat = Some f ->
      has_class "sm:col-span-2" (card p 0 f) = true)
  /\ ((forall k, (k < length (features p))%nat ->
         index_is k (default (Finite 0) (featuredIndex p)) = false) ->
      List.filter (has_class "sm:col-span-2") cards = []).
Proof.
  intros cards.
  assert (Hcount := featured_cards p (features p) 0).
  change (imap (fun k => card p (0 + k)) (features p)) with cards in Hcount.
  split; [reflexivity|]. split; [|split; [|split]].
  - intros k f Hk. split; [|apply card_featured].
    unfold cards. now rewrite list_lookup_imap, Hk.
  - rewrite Hcount. apply at_most_one. intros i j. apply index_is_unique.
  - intros Hnone f _. rewrite card_featured. unfold isFeatured.
    now rewrite Hnone.
  - intros Hout. apply length_zero_iff_nil. rewrite Hcount.
    apply length_zero_iff_nil.
    destruct (List.filter (isFeatured p) (seq 0 (length (features p))))
      as [|k rest] eqn:E; [reflexivity|].
    assert (Hk : In k (List.filter (isFeatured p)
                         (seq 0 (length (features p)))))
      by (rewrite E; now left).
    apply filter_In in Hk. destruct Hk as [Hk Hf]. apply in_seq in Hk.
    unfold isFeatured in Hf. rewrite Hout in Hf by lia. discriminate.
Qed.

End Bento.

(** ** StepsSection: the zigzag *)

Section Steps.
Import JS Markup Events Steps_section.

Lemma isEven_even (k : nat) : isEven k = Nat.even k.
Proof.
  unfold isEven, rem.
  rewrite Z.rem_mod_nonneg by lia.
  destruct (Nat.even k) eqn:E.
  - apply Nat.even_spec in E. destruct E as [m ->].
    apply Z.eqb_eq. rewrite Nat2Z.inj_mul. simpl Z.of_nat.
    rewrite Z.mul_comm. apply Z.mod_mul. lia.
  - apply Z.eqb_neq. intros H.
    assert (Hodd : Nat.odd k = true) by (unfold Nat.odd; now rewrite E).
    apply Nat.odd_spec in Hodd. destruct Hodd as [m ->].
    rewrite Nat2Z.inj_add, Nat2Z.inj_mul in H.
    change (Z.of_nat 2) with 2%Z in H. change (Z.of_nat 1) with 1%Z in H.
    rewrite Z.add_comm, Z.mul_comm, Z.mod_add in H by lia. discriminate.
Qed.

(** X19. StepsSection lays its steps out in a zigzag unless told not to:
    with [alternating] omitted or true the steps at odd positions (the
    second, fourth, ...) are mirrored, entering from the right, and the
    others are not; with [alternating] false no step is mirrored.  The
    steps are numbered from 1 in the order given. *)
Theorem steps_zigzag (p : StepsSectionProps) (k : nat) (step : Step) :
  steps p !! k = Some step ->
  let block := step_block p k step in
  let mirrored := default true (alternating p) && Nat.odd k in
  node_at [0; 1; k] (StepsSection p) = Some block
  /\ has_class "md:flex-row-reverse" block = mirrored
  /\ has_class "md:flex-row" block = negb mirrored
  /\ prop "variants" block
     = Some (Val (if mirrored then Animations.fadeInRight
                  else Animations.fadeInLeft))
  /\ node_at [0; 1; 0] block = Some (Text (index_text (k + 1))).
Proof.
  intros Hk block mirrored.
  assert (E : reversed p k = mirrored).
  { unfold reversed, mirrored. rewrite isEven_even. reflexivity. }
  split.
  { cbn [node_at children el StepsSection lookup]. simpl.
    now rewrite list_lookup_imap, Hk. }
  unfold block, step_block. rewrite E.
  cbn [has_class class_prop key cls str prop lookup_prop].
  destruct mirrored; repeat split.
Qed.

End Steps.

(** ** FaqSectionCategorized: tabs and panels *)

Section Categorized.
Import JS Markup Events Faq_categorized.

(** X20. FaqSectionCategorized gives every category one tab and one panel,
    in the order of the categories and both under the category's name, so
    that each tab opens the panel of its own category; the tab selected at
    first is the first category, and with no category at all the component
    renders an empty tab list with no selection instead of failing.  Each
    panel holds one accordion item per FAQ of its category. *)
Theorem categorized_tabs_match_panels (p : FaqSectionCategorizedProps) :
  exists tabs panels,
    node_at [0; 1; 0] (FaqSectionCategorized p)
    = Some (Elem "Tabs"
              [("defaultValue", Val (of_option (defaultValue p))); cls "w-full"]
              (el "TabsList" "w-full justify-start mb-8 flex-wrap h-auto" tabs
               :: panels))
    /\ text_prop "value" <$> tabs = Some <$> (name <$> categories p)
    /\ text_prop "value" <$> panels = Some <$> (name <$> categories p)
    /\ defaultValue p = head (name <$> categories p)
    /\ (categories p = [] ->
        tabs = [] /\ panels = [] /\ of_option (defaultValue p) = Undefined)
    /\ (forall k category,
          categories p !! k = Some category ->
          exists items,
            panels !! k ≫= node_at [0]
            = Some (Elem "Accordion"
                      [str "type" "single"; ("collapsible", Val (Bool true));
                       cls "space-y-4"] items)
            /\ length items = length (faqs category)).
Proof.
  exists (trigger <$> categories p), (panel <$> categories p).
  split; [reflexivity|].
  split; [rewrite <- !list_fmap_compose; reflexivity|].
  split; [rewrite <- !list_fmap_compose; reflexivity|].
  split; [unfold defaultValue; now destruct (categories p)|].
  split.
  - intros E. unfold defaultValue. now rewrite E.
  - intros k category Hk. eexists. rewrite list_lookup_fmap, Hk. simpl.
    split; [reflexivity | apply length_imap].
Qed.

End Categorized.

(** ** PricingSectionTable: parallel arrays *)

Section PricingTable.
Import JS JS_more Markup Events Eval Pricing_table.

Lemma sequence_imap_ok {A B} (f : nat -> A -> result B) (l : list A) :
  (forall i a, l !! i = Some a -> succeeds (f i a)) ->
  succeeds (sequence (imap f l)).
Proof.
  revert f. induction l as [|a l IH]; intros f H; simpl; [now exists []|].
  destruct (H 0%nat a eq_refl) as [b ->]. simpl.
  destruct (IH (f ∘ S)) as [bs ->]; [intros i x Hi; apply (H (S i) x Hi)|].
  now exists (b :: bs).
Qed.

Lemma sequence_imap_throw {A B} (f : nat -> A -> result B) (l : list A)
    (e : error) :
  (forall i a, f i a = Throw e \/ succeeds (f i a)) ->
  (exists i a, l !! i = Some a /\ f i a = Throw e) ->
  sequence (imap f l) = Throw e.
Proof.
  revert f. induction l as [|a l IH]; intros f Hall (i & x & Hi & Hx).
  - discriminate.
  - destruct i as [|i].
    + simpl in Hi. injection Hi as ->. simpl. now rewrite Hx.
    + simpl. destruct (Hall 0%nat a) as [-> | [b ->]]; [reflexivity|]. simpl.
      rewrite (IH (f ∘ S)); [reflexivity | intros; apply Hall | eauto].
Qed.

Lemma head_cell_cases (p : PricingSectionTableProps) (k : nat) (nm : string) :
  (head_cell p k nm = Throw (TypeError "href") /\ ctas p !! k = None)
  \/ (succeeds (head_cell p k nm) /\ is_Some (ctas p !! k)).
Proof.
  unfold head_cell. destruct (ctas p !! k) as [c|].
  - right. split; [eexists; reflexivity | eauto].
  - left. split; reflexivity.
Qed.

(** X21. PricingSectionTable needs a call-to-action for every tier: it
    renders when [ctas] is at least as long as [tierNames], and throws a
    TypeError (reading [href] of a missing element) when it is shorter.
    The other parallel arrays are not needed: a tier beyond the end of
    [prices], [periods] or [descriptions] gets an empty price, period or
    description. *)
Theorem pricing_table_needs_every_cta (p : PricingSectionTableProps) :
  (succeeds (PricingSectionTable p)
   <-> (length (tierNames p) <= length (ctas p))%nat)
  /\ (PricingSectionTable p = Throw (TypeError "href")
      <-> (length (ctas p) < length (tierNames p))%nat)
  /\ (forall k nm c,
        ctas p !! k = Some c ->
        prices p !! k = None -> periods p !! k = None ->
        descriptions p !! k = None ->
        let first := if is_popular p k then 2%nat else 1%nat in
        exists cell,
          head_cell p k nm = Ok cell
          /\ node_at [0; first] cell
             = Some (el "div" "text-3xl font-bold mb-1" [])
          /\ node_at [0; S first] cell
             = Some (el "div" "text-sm text-muted-foreground mb-2" [Text "/"])
          /\ node_at [0; S (S first)] cell
             = Some (el "div" "text-sm text-muted-foreground mb-4" [])).
Proof.
  assert (Hok : (length (tierNames p) <= length (ctas p))%nat ->
                succeeds (PricingSectionTable p)).
  { intros Hlen. unfold PricingSectionTable.
    destruct (sequence_imap_ok (head_cell p) (tierNames p)) as [cells ->].
    - intros i a Hi. apply lookup_lt_Some in Hi.
      destruct (head_cell_cases p i a) as [[_ Hnone] | [Hs _]]; [|exact Hs].
      apply lookup_ge_None in Hnone. lia.
    - eexists. reflexivity. }
  assert (Hthrow : (length (ctas p) < length (tierNames p))%nat ->
                   PricingSectionTable p = Throw (TypeError "href")).
  { intros Hlen. unfold PricingSectionTable.
    rewrite (sequence_imap_throw (head_cell p) (tierNames p) (TypeError "href")).
    - reflexivity.
    - intros i a. destruct (head_cell_cases p i a) as [[H _] | [H _]]; auto.
    - destruct (lookup_lt_is_Some_2 (tierNames p) (length (ctas p)) Hlen)
        as [a Ha].
      exists (length (ctas p)), a. split; [exact Ha|].
      destruct (head_cell_cases p (length (ctas p)) a) as [[H _] | [_ [c Hc]]];
        [exact H|].
      apply lookup_lt_Some in Hc. lia. }
  split; [|split].
  - split; [|exact Hok]. intros [tree Htree].
    destruct (Nat.le_gt_cases (length (tierNames p)) (length (ctas p)))
      as [H | H]; [exact H|].
    rewrite (Hthrow H) in Htree. discriminate.
  - split; [|exact Hthrow]. intros Hfail.
    destruct (Nat.le_gt_cases (length (tierNames p)) (length (ctas p)))
      as [H | H]; [|exact H].
    destruct (Hok H) as [tree Htree]. rewrite Htree in Hfail. discriminate.
  - intros k nm c Hc Hp Hper Hd first. unfold head_cell. rewrite Hc.
    eexists. split; [reflexivity|].
    unfold text_at, first. rewrite Hp, Hper, Hd.
    destruct (is_popular p k); split; [|split| |split]; reflexivity.
Qed.

End PricingTable.

Section PricingTableColumn.
Import JS JS_more Markup Events Eval Pricing_table.

Lemma sequence_imap_lookup {A B} (f : nat -> A -> result B) (l : list A)
    (r : list B) (k : nat) (a : A) :
  sequence (imap f l) = Ok r -> l !! k = Some a ->
  exists b, f k a = Ok b /\ r !! k = Some b.
Proof.
  revert f r k. induction l as [|x l IH]; intros f r k H Hk; [discriminate|].
  cbn [imap sequence] in H.
  destruct (f 0%nat x) as [b0|e] eqn:E0; [|discriminate H].
  destruct (sequence (imap (f ∘ S) l)) as [bs|e] eqn:Es; [|discriminate H].
  injection H as <-. destruct k as [|k].
  - injection Hk as <-. eauto.
  - destruct (IH (f ∘ S) bs k Es Hk) as (b & Hb & Hr). eauto.
Qed.

(** X22. PricingSectionTable highlights one column at most, and the same
    one in the head and in the body of the table it renders: the head cell
    of tier k carries the "Popular" badge and the frame exactly when
    [popularTier] is the integer k, and so does the k-th cell of every
    feature row.  With [popularTier] omitted nothing is highlighted. *)
Theorem pricing_table_highlights_one_column (p : PricingSectionTableProps)
    (tree : node unit) :
  PricingSectionTable p = Ok tree ->
  let badge :=
    el "Badge" "absolute -top-3 left-1/2 -translate-x-1/2 bg-primary"
      [Text "Popular"] in
  (forall k nm,
     tierNames p !! k = Some nm ->
     exists cell frame,
       node_at [0; 1; 0; 0; 0; S k] tree = Some cell
       /\ node_at [0] cell = Some frame
       /\ has_class "border-primary" frame = is_popular p k
       /\ (In badge (descendants cell) <-> is_popular p k = true))
  /\ (forall r feature k value,
        features p !! r = Some feature -> tiers feature !! k = Some value ->
        exists cell props content,
          node_at [0; 1; 0; 1; r; S k] tree = Some cell
          /\ cell = Elem "td" props [content]
          /\ has_class "border-primary" cell = is_popular p k)
  /\ (forall i j, is_popular p i = true -> is_popular p j = true -> i = j)
  /\ (popularTier p = None -> forall k, is_popular p k = false).
Proof.
  intros Htree badge. unfold PricingSectionTable in Htree.
  destruct (sequence (imap (head_cell p) (tierNames p)))
    as [head_cells|e] eqn:Hcells; [|discriminate Htree].
  injection Htree as <-.
  split; [|split; [|split]].
  - intros k nm Hk.
    destruct (sequence_imap_lookup _ _ _ _ _ Hcells Hk) as (cell & Hcell & Hat).
    exists cell. unfold head_cell in Hcell.
    destruct (ctas p !! k) as [c|]; [|discriminate Hcell].
    injection Hcell as <-. eexists.
    split; [cbn [node_at children el lookup]; simpl; now rewrite Hat|].
    split; [reflexivity|]. split.
    + cbn [has_class class_prop cls]. destruct (is_popular p k); reflexivity.
    + split.
      * intros H. destruct (is_popular p k) eqn:E; [reflexivity|]. exfalso.
        unfold badge, text_at in H.
        destruct (prices p !! k), (periods p !! k), (descriptions p !! k);
          in_tree.
      * intros E. rewrite E.
        apply (node_at_in_descendants [0; 0]%nat). reflexivity.
  - intros r feature k value Hr Hk.
    exists (body_cell p k value). do 2 eexists. split; [|split].
    + cbn [node_at children el lookup]. simpl.
      rewrite list_lookup_imap, Hr. simpl.
      now rewrite list_lookup_imap, Hk.
    + reflexivity.
    + unfold body_cell. cbn [has_class class_prop key cls].
      destruct (is_popular p k); reflexivity.
  - unfold is_popular. destruct (popularTier p) as [n|]; [|discriminate].
    intros i j. apply index_is_unique.
  - intros Hnone k. unfold is_popular. now rewrite Hnone.
Qed.

End PricingTableColumn.

(** ** NavbarMegaMenu: names the module does not bind *)

Section MegaMenu.
Import JS Markup Eval Navbar_megamenu.

Ltac names_bound :=
  repeat first
    [ assumption
    | apply List.Forall_nil
    | apply List.Forall_cons
    | apply succeeds_jsx
    | apply succeeds_child
    | apply succeeds_and_given; intros ?
    | apply succeeds_each; intros ? ?
    | apply succeeds_bound
    | (eexists; reflexivity) ].

(** X23. NavbarMegaMenu reads [NavigationMenu], which navbar-megamenu.tsx
    does not import (it imports the button, the sheet and the menu icon
    only): whatever the props and the state, the render throws a
    ReferenceError before the desktop menu is built.  With the six
    navigation-menu components imported every render ends with a tree. *)
Theorem navbar_megamenu_throws (p : NavbarMegaMenuProps) (isOpen : bool) :
  NavbarMegaMenu p isOpen = Throw (ReferenceError "NavigationMenu")
  /\ succeeds (NavbarMegaMenu_in imports_with_navigation_menu p isOpen).
Proof.
  split; [reflexivity|].
  unfold NavbarMegaMenu_in. names_bound.
Qed.

End MegaMenu.

(** ** FooterMega without a contact e-mail *)

Section FooterMore.
Import JS Markup Events Eval Footer_mega Footer_mega_output.

Lemma and_then_ok {S} (o : option string) (f : string -> result (node S))
    (g : string -> node S) :
  (forall s, f s = Ok (g s)) -> and_then o f = Ok (when_truthy o g).
Proof.
  intros H. unfold and_then, when_truthy, child. destruct o as [s|]; [|reflexivity].
  destruct (truthy (Some s)); [now rewrite H | reflexivity].
Qed.

Lemma and_then_falsy {S} (o : option string) (f : string -> result (node S)) :
  truthy o = false -> and_then o f = Ok [].
Proof.
  intros H. unfold and_then. destruct o as [s|]; [|reflexivity]. now rewrite H.
Qed.

Lemma and_given_ok {S V} (o : option V) (f : V -> result (node S))
    (g : V -> node S) :
  (forall v, f v = Ok (g v)) -> and_given o f = Ok (when_given o g).
Proof.
  intros H. unfold and_given, when_given, child. destruct o; [now rewrite H|].
  reflexivity.
Qed.

Lemma each_ok {State A} (l : list A) (f : nat -> A -> result (node State))
    (g : nat -> A -> node State) :
  (forall i a, f i a = Ok (g i a)) -> each l f = Ok (imap g l).
Proof.
  intros H. unfold each. revert f g H.
  induction l as [|a l IH]; intros f g H; simpl; [reflexivity|].
  rewrite H. simpl. rewrite (IH (f ∘ S) (g ∘ S)); [reflexivity|].
  intros i x. apply H.
Qed.

Lemma social_links_tree (s : SocialLinks) :
  social_links imports s
  = Ok (el "div" "flex gap-2"
          (when_truthy (github s) (fun u => social_button_tree u "GitHub" "Github")
           ++ when_truthy (twitter s)
                (fun u => social_button_tree u "Twitter" "Twitter")
           ++ when_truthy (linkedin s)
                (fun u => social_button_tree u "LinkedIn" "Linkedin")
           ++ when_truthy (youtube s)
                (fun u => social_button_tree u "YouTube" "Youtube"))).
Proof.
  unfold social_links.
  rewrite (and_then_ok (github s) _
             (fun u => social_button_tree u "GitHub" "Github")) by reflexivity.
  rewrite (and_then_ok (twitter s) _
             (fun u => social_button_tree u "Twitter" "Twitter")) by reflexivity.
  rewrite (and_then_ok (linkedin s) _
             (fun u => social_button_tree u "LinkedIn" "Linkedin")) by reflexivity.
  rewrite (and_then_ok (youtube s) _
             (fun u => social_button_tree u "YouTube" "Youtube")) by reflexivity.
  cbn. now rewrite app_nil_r.
Qed.

Lemma social_labels (s : SocialLinks) :
  (fun b => node_at [0] b ≫= text_prop "aria-label")
    <$> (when_truthy (github s) (fun u => social_button_tree u "GitHub" "Github")
         ++ when_truthy (twitter s)
              (fun u => social_button_tree u "Twitter" "Twitter")
         ++ when_truthy (linkedin s)
              (fun u => social_button_tree u "LinkedIn" "Linkedin")
         ++ when_truthy (youtube s)
              (fun u => social_button_tree u "YouTube" "Youtube"))
  = Some <$> networks s.
Proof.
  unfold networks. destruct s as [gh tw li yt]. cbn [github twitter linkedin youtube].
  destruct gh as [[|? ?]|], tw as [[|? ?]|], li as [[|? ?]|], yt as [[|? ?]|];
    reflexivity.
Qed.

Lemma link_column_tree (index : nat) (column : FooterColumn) :
  link_column index column = Ok (column_tree index column).
Proof.
  unfold link_column.
  rewrite (each_ok (links column) _
             (fun linkIndex link =>
                Elem "li" [key linkIndex]
                  [Elem "a"
                     [str "href" (href link);
                      cls "text-sm text-muted-foreground hover:text-primary transition-colors"]
                     [Text (label link)]])) by reflexivity.
  cbn. now rewrite app_nil_r.
Qed.

(** X24 (FooterMega, no contact e-mail).  When [contactEmail] is omitted
    or empty the footer renders: nothing unbound is reached.  Its grid holds
    the company block followed by one block per column, in order; the
    company block holds a contact block exactly when [address] is a
    non-empty string, and that block is the address paragraph alone; when
    [socialLinks] is given the company block ends with its row of buttons,
    one for each network with a non-empty address, in the order GitHub,
    Twitter, LinkedIn, YouTube. *)
Theorem footer_mega_without_email (currentYear : Z) (p : FooterMegaProps) :
  truthy (contactEmail p) = false ->
  exists tree company,
    FooterMega currentYear p = Ok tree
    /\ node_at [0; 0] tree
       = Some (el "div" "grid gap-12 lg:grid-cols-5 mb-12"
                 (el "div" "lg:col-span-2" company
                  :: imap column_tree (columns p)))
    /\ (forall c, In (el "div" "space-y-3 mb-6" c) company
          <-> exists a, address p = Some a /\ truthy (Some a) = true
                /\ c = [el "p" "text-sm text-muted-foreground" [Text a]])
    /\ (forall s, socialLinks p = Some s ->
          exists buttons,
            last company = Some (el "div" "flex gap-2" buttons)
            /\ (fun b => node_at [0] b ≫= text_prop "aria-label") <$> buttons
               = Some <$> networks s).
Proof.
  intros Hemail.
  assert (Hcontact : contact_info imports p
            = Ok (el "div" "space-y-3 mb-6"
                    (when_truthy (address p) (fun a =>
                       el "p" "text-sm text-muted-foreground" [Text a])))).
  { unfold contact_info. rewrite (and_then_falsy (contactEmail p)) by exact Hemail.
    rewrite (and_then_ok (address p) _
               (fun a => el "p" "text-sm text-muted-foreground" [Text a]))
      by reflexivity.
    cbn. now rewrite app_nil_r. }
  unfold FooterMega, FooterMega_in.
  rewrite (and_then_ok (tagline p) _
             (fun t => el "p" "text-sm font-medium text-primary mb-3" [Text t]))
    by reflexivity.
  rewrite (and_then_ok (description p) _
             (fun d => el "p" "text-sm text-muted-foreground mb-6 max-w-md" [Text d]))
    by reflexivity.
  rewrite (and_then_ok (or_else (contactEmail p) (address p)) _
             (fun _ => el "div" "space-y-3 mb-6"
                         (when_truthy (address p) (fun a =>
                            el "p" "text-sm text-muted-foreground" [Text a]))))
    by (intros _; exact Hcontact).
  rewrite (and_given_ok (socialLinks p) _ _ social_links_tree).
  rewrite (each_ok (columns p) _ _ link_column_tree).
  cbn -[int_text when_truthy when_given or_else]. rewrite !app_nil_r.
  eexists. eexists. split; [reflexivity|].
  split; [reflexivity|].
  assert (Hor : or_else (contactEmail p) (address p) = address p)
    by (unfold or_else; now rewrite Hemail).
  rewrite Hor. clear Hor Hcontact Hemail.
  split.
  - intros c.
    destruct (tagline p) as [[|? ?]|], (description p) as [[|? ?]|],
      (address p) as [[|? ?]|], (socialLinks p) as [?|]; cbn; split;
      first
        [ intros [x [Hx _]]; discriminate Hx
        | intros [x [Hx [Ht _]]]; injection Hx as <-; discriminate Ht
        | intros [x [Hx [_ ->]]]; injection Hx as <-; intuition reflexivity
        | intros H;
          repeat (destruct H as [H|H];
                  [ first [ discriminate H
                          | injection H as <-; eexists; repeat split; reflexivity ]
                  | ]);
          contradiction ].
  - intros s ->. eexists. split.
    + destruct (tagline p) as [[|? ?]|], (description p) as [[|? ?]|],
        (address p) as [[|? ?]|]; reflexivity.
    + apply social_labels.
Qed.

End FooterMore.

(** ** The further properties at sample props *)

Section MoreAtSamples.
Import JS Markup Events Eval.

Lemma carousel_sample_arrows_undo :
  Testimonials_carousel.previous Samples.carousel
    (Testimonials_carousel.next Samples.carousel 2) = 2%Z
  /\ Testimonials_carousel.next Samples.carousel
       (Testimonials_carousel.previous Samples.carousel 2) = 2%Z.
Proof.
  exact (carousel_arrows_are_inverse Samples.carousel 2 ltac:(simpl; lia)).
Defined.

Lemma carousel_sample_cycle :
  Nat.iter 5 (Testimonials_carousel.next Samples.carousel) 1%Z = 0%Z
  /\ Nat.iter 3 (Testimonials_carousel.next Samples.carousel) 1%Z = 1%Z.
Proof.
  exact (carousel_next_cycles Samples.carousel 1 5 ltac:(simpl; lia)).
Defined.


Lemma fallback_sample_wordwise :
  Testimonials_section.fallback_text (More_samples.reviewer "John Doe")
  = (Testimonials_section.fallback_text (More_samples.reviewer "John")
     ++ Testimonials_section.fallback_text (More_samples.reviewer "Doe"))%string
  /\ includes
       (Testimonials_section.fallback_text (More_samples.reviewer "John Doe"))
       " " = false.
Proof.
  exact (fallback_is_wordwise (More_samples.reviewer "John Doe")
           (More_samples.reviewer "John") (More_samples.reviewer "Doe")
           ltac:(reflexivity)).
Defined.

Lemma steps_sample_second_is_mirrored :
  exists block,
    node_at [0; 1; 1] (Steps_section.StepsSection More_samples.steps) = Some block
    /\ has_class "md:flex-row-reverse" block = true
    /\ prop "variants" block = Some (Val Animations.fadeInRight).
Proof.
  destruct (steps_zigzag More_samples.steps 1
              {| Steps_section.icon := "Settings";
                 Steps_section.title := "Configure";
                 Steps_section.description := "Set up your workspace" |}
              ltac:(reflexivity))
    as (Hblock & Hclass & _ & Hvariants & _).
  eexists. split; [exact Hblock | split; [exact Hclass | exact Hvariants]].
Defined.

Lemma footer_sample_without_email :
  truthy (Footer_mega.contactEmail More_samples.footer_without_email) = false
  /\ succeeds (Footer_mega.FooterMega 2025 More_samples.footer_without_email).
Proof.
  split; [reflexivity|].
  destruct (footer_mega_without_email 2025 More_samples.footer_without_email
              ltac:(reflexivity))
    as (tree & company & Htree & _).
  exists tree. exact Htree.
Defined.

Lemma avatar_fallback_sample :
  bmp "Élodie Durand" = true
  /\ node_at [0; 1; 0; 0; 0; 2; 0; 1]%nat
       (Testimonials_section.TestimonialsSection
          (More_samples.reviews "Élodie Durand"))
     = Some (Elem "AvatarFallback" [] [Text "ÉD"]).
Proof.
  split; [reflexivity|].
  destruct (avatar_fallback_is_initials "Élodie Durand" ltac:(reflexivity))
    as (Hgrid & _).
  exact (Hgrid (More_samples.reviews "Élodie Durand") 0%nat
           (More_samples.reviewer "Élodie Durand")
           ltac:(reflexivity) ltac:(reflexivity)).
Defined.

Lemma pricing_table_sample_column :
  exists tree cell,
    Pricing_table.PricingSectionTable More_samples.pricing_table = Ok tree
    /\ node_at [0; 1; 0; 1; 2; 2]%nat tree = Some cell
    /\ has_class "border-primary" cell = true.
Proof.
  destruct (Pricing_table.PricingSectionTable More_samples.pricing_table)
    as [tree|e] eqn:E; [|discriminate E].
  destruct (pricing_table_highlights_one_column More_samples.pricing_table
              tree E) as (_ & Hbody & _).
  destruct (Hbody 2%nat _ 1%nat _ ltac:(reflexivity) ltac:(reflexivity))
    as (cell & props & content & Hcell & _ & Hclass).
  exists tree, cell. split; [reflexivity|]. split; [exact Hcell|].
  rewrite Hclass. reflexivity.
Defined.

Lemma faq_search_sample :
  ascii_only "PASSWORD" = true
  /\ Spec.keeps_exactly (Spec.hit "PASSWORD") Samples.faqs (take 1 Samples.faqs).
Proof.
  split; [reflexivity|].
  destruct (faq_search_shows_matches_on_ascii More_samples.faq_search
              "PASSWORD" ltac:(reflexivity)
              ltac:(repeat constructor)) as (Hkept & _).
  exact Hkept.
Defined.

End MoreAtSamples.
